(** * ASTM / AISC steel checking: a shallow embedding of [ASTM_materials.py]

    The Python module computes with floating-point numbers; they are
    modelled here as real numbers, so rounding is out of scope, while
    every exception that the arithmetic of Python can raise on exact
    values (division by zero, [math.sqrt] and [math.pow] domain errors,
    out-of-range indexing, interpolation outside the table) is part of
    the model.  Messages sent to the logging sink are collected in a
    log, in the order the code emits them. *)

From Stdlib Require Import Reals Lra List String Bool DecimalString DecimalNat.
From Stdlib Require Import Permutation.
From Stdlib Require Import Machin.
Import ListNotations.

Open Scope R_scope.

(** ** Effects: a log of messages and Python exceptions *)

Module Py.

Inductive exn : Type :=
| ZeroDivisionError
| ValueError
| IndexError
| KeyError
| NameError
| TypeError
| AttributeError.

(** What a computation leaves behind: messages for the logging sink and
    text written to the output file of a [report]. *)
Inductive logmsg : Type :=
| Warning (msg : string)
| Error (msg : string)
| Wrote (text : string).

(** A computation yields the messages it logged and either the
    exception it raised or the value it returned. *)
Inductive result (A : Type) : Type :=
| Raise (e : exn)
| Return (a : A).
Arguments Raise {A} e.
Arguments Return {A} a.

Definition M (A : Type) : Type := (list logmsg * result A)%type.

Definition ret {A} (a : A) : M A := ([], Return a).
Definition raise {A} (e : exn) : M A := ([], Raise e).
Definition log (m : logmsg) : M unit := ([m], Return tt).
Definition lmsg_warning (msg : string) : M unit := log (Warning msg).
Definition lmsg_error (msg : string) : M unit := log (Error msg).
Definition write (text : string) : M unit := log (Wrote text).

Definition bind {A B} (c : M A) (k : A -> M B) : M B :=
  match c with
  | (l, Raise e) => (l, Raise e)
  | (l, Return a) => let (l', r) := k a in (l ++ l', r)
  end.

Definition value {A} (c : M A) : result A := snd c.
Definition logged {A} (c : M A) : list logmsg := fst c.

(** [returns c] holds when [c] ends with a [return], whatever it logged. *)
Definition returns {A} (c : M A) : Prop := exists a, value c = Return a.

End Py.
Import Py.

Notation "x <- c ;; k" := (bind c (fun x => k))
  (at level 61, c at next level, right associativity).
Notation "' p <- c ;; k" := (bind c (fun x => match x with p => k end))
  (at level 61, p pattern, c at next level, right associativity).
Notation "c ;;; k" := (bind c (fun _ => k))
  (at level 61, right associativity).

(** ** Python arithmetic on exact values *)

(** [a / b] on floats raises when the divisor is zero. *)
Definition pydiv (a b : R) : M R :=
  if Req_dec_T b 0 then raise ZeroDivisionError else ret (a / b).

(** [math.sqrt] raises a domain error on negative arguments. *)
Definition math_sqrt (x : R) : M R :=
  if Rlt_dec x 0 then raise ValueError else ret (sqrt x).

(** [math.pow x y]: a positive base uses the real power; a zero base is
    defined for non-negative exponents only; a negative base is defined
    for integral exponents only. *)
Definition math_pow (x y : R) : M R :=
  if Rlt_dec 0 x then ret (Rpower x y)
  else if Req_dec_T x 0 then
    (if Rlt_dec 0 y then ret 0
     else if Req_dec_T y 0 then ret 1 else raise ValueError)
  else if Req_dec_T (frac_part y) 0 then ret (powerRZ x (Int_part y))
  else raise ValueError.

(** The built-ins [max(a, b)] and [min(a, b)] keep the first argument
    unless the second one is strictly better. *)
Definition pymax (a b : R) : R := if Rlt_dec a b then b else a.
Definition pymin (a b : R) : R := if Rlt_dec b a then b else a.

Definition math_pi : R := PI.

(** ** Steel grades *)

(** [ASTMSteel]: the base class [steel_base.BasicSteel] receives
    [E = 200e9], [nu = 0.3], [fy], [fu] and [gammaM] from the
    constructor; [name], [Rt] and [Ry] are the fields the class adds. *)
Module Steel.

Record ASTMSteel : Type := mkSteel {
  E : R;
  nu : R;
  fy : R;
  fu : R;
  gammaM : R;
  name : option string;
  Rt : option R;
  Ry : option R
}.

End Steel.
Import Steel.

(** The line feed. *)
Definition nl : string := String (Ascii.ascii_of_nat 10) EmptyString.

(** Truth value of a [str]-or-[None] attribute. *)
Definition truthy (s : option string) : bool :=
  match s with
  | Some s => negb (String.eqb s "")
  | None => false
  end.

(** [ASTMSteel.__init__(name, fy, fu, gammaM, Rt, Ry)]. *)
Definition ASTMSteel_init (nm : option string) (fy fu gammaM : R)
    (Rt Ry : option R) : ASTMSteel :=
  mkSteel 200e9 0.3 fy fu gammaM (if truthy nm then nm else None) Rt Ry.

(** The constructor called with no argument: every default applies. *)
Definition ASTMSteel_default : ASTMSteel :=
  ASTMSteel_init None 250e6 400e6 1.0 None None.

(** [getPeakConnectionStrengthFactor]. *)
Definition getPeakConnectionStrengthFactor (s : ASTMSteel) : M R :=
  retval <- pydiv (fy s + fu s) (2 * fy s) ;;
  ret (pymin retval 1.2).

(** [getYt]. *)
Definition getYt (s : ASTMSteel) : M R :=
  tmp <- pydiv (fy s) (fu s) ;;
  ret (if Rle_dec 0.8 tmp then 1.1 else 1.0).

Definition A36 := ASTMSteel_init (Some "A36"%string) 250e6 400e6 1.0 (Some 1.2) (Some 1.5).
Definition A529 := ASTMSteel_init (Some "A529"%string) 290e6 414e6 1.0 (Some 1.2) (Some 1.2).
Definition A572 := ASTMSteel_init (Some "A572"%string) 345e6 450e6 1.0 (Some 1.1) (Some 1.1).
Definition A53 := ASTMSteel_init (Some "A53"%string) 240e6 414e6 1.0 (Some 1.2) (Some 1.5).
Definition A992 := ASTMSteel_init (Some "A992"%string) 345e6 450e6 1.0 (Some 1.1) (Some 1.1).
Definition A500 := ASTMSteel_init (Some "A500"%string) 315e6 400e6 1.0 (Some 1.3) (Some 1.4).
Definition A307 := ASTMSteel_init (Some "A307"%string) 245e6 390e6 1.0 None None.
Definition A325 := ASTMSteel_init (Some "A325"%string) 660e6 830e6 1.0 None None.

Definition ksi : R := 6.89475908677537e6.
Definition A354BC := ASTMSteel_init (Some "A354BC"%string) (109 * ksi) (125 * ksi) 1.0 None None.
Definition A354BD := ASTMSteel_init (Some "A354BD"%string) (115 * ksi) (140 * ksi) 1.0 None None.
Definition A490 := ASTMSteel_init (Some "A490"%string) 940e6 1040e6 1.0 None None.

Definition F1554gr36 := ASTMSteel_init (Some "F1554gr36"%string) 248e6 400e6 1.0 None None.
Definition F1554gr55 := ASTMSteel_init (Some "F1554gr55"%string) 380e6 517e6 1.0 None None.
Definition F1554gr105 := ASTMSteel_init (Some "F1554gr105"%string) 724e6 862e6 1.0 None None.

(** The module-level grade constants, in the order of their definition. *)
Definition registry : list ASTMSteel :=
  [A36; A529; A572; A53; A992; A500; A307; A325;
   A354BC; A354BD; A490; F1554gr36; F1554gr55; F1554gr105].

(** An optional ratio is acceptable when it is absent or at least one. *)
Definition ratio_ok (r : option R) : Prop :=
  match r with
  | Some x => 1.0 <= x
  | None => True
  end.

Definition grade_ok (s : ASTMSteel) : Prop :=
  fy s <= fu s /\ ratio_ok (Rt s) /\ ratio_ok (Ry s).

(** ** Collaborators *)

Module geom.

(** Points of the geometry library. *)
Record Pos3d : Type := mkPos3d { px : R; py : R; pz : R }.
Definition Pos2d : Type := (R * R)%type.
Definition Vector2d : Type := (R * R)%type.
Definition pos_plus (p : Pos2d) (v : Vector2d) : Pos2d :=
  (fst p + fst v, snd p + snd v).

(** The 2D polygon interface of the geometry library [geom], an external
    collaborator: construction, in-place union and area. *)
Class Geometry : Type := {
  Polygon2d : Type;
  Polygon2d_new : Polygon2d;
  appendVertex : Polygon2d -> Pos2d -> Polygon2d;
  unePolygon2d : Polygon2d -> Polygon2d -> Polygon2d;
  getArea : Polygon2d -> R
}.

End geom.
Import geom.

(** [scipy.interpolate.interp1d(xs, ys)] with its default arguments:
    linear interpolation between the tabulated points, and a
    [ValueError] for an abscissa below the first or above the last
    tabulated one (the default [bounds_error]).  The segment used is the
    one whose upper end is the first tabulated abscissa not below [x]. *)
Fixpoint interp_linear (pts : list (R * R)) (x : R) : R :=
  match pts with
  | (x_lo, y_lo) :: (((x_hi, y_hi) :: rest) as tl) =>
      let slope := (y_hi - y_lo) / (x_hi - x_lo) in
      match rest with
      | [] => slope * (x - x_lo) + y_lo
      | _ => if Rle_dec x x_hi then slope * (x - x_lo) + y_lo
             else interp_linear tl x
      end
  | _ => 0
  end.

Definition interp1d (xs ys : list R) (x : R) : M R :=
  if Rlt_dec x (hd 0 xs) then raise ValueError
  else if Rlt_dec (last xs 0) x then raise ValueError
  else ret (interp_linear (combine xs ys) x).

(** ** Welds *)

Definition getFilletWeldMinimumLeg (t : R) : R :=
  if Rle_dec t 6e-3 then 3e-3
  else if Rle_dec t 13e-3 then 5e-3
  else if Rle_dec t 19e-3 then 6e-3
  else 8e-3.

Definition getFilletWeldMaximumLeg (t : R) : R :=
  if Rle_dec t 6e-3 then t else t - 2e-3.

(** ** Bolts *)

(** [BoltFastener]: [diameter] and [pos3d] live in the base class
    [bolts.BoltBase]. *)
Record BoltFastener : Type := mkBolt {
  diameter : R;
  steelType : ASTMSteel;
  pos3d : option Pos3d
}.

(** Modelled from the spec: [bolts.BoltBase.getArea], the area of the
    circle of the bolt diameter (the spec's example takes the area of an
    M16 bolt as pi times the square of 8 mm). *)
Definition getArea_of_diameter (d : R) : R := math_pi * (d / 2.0) ^ 2.

Definition bf_diams : list R := [16e-3; 20e-3; 22e-3; 24e-3; 27e-3; 30e-3; 36e-3].
Definition tabJ3_4M : list R := [22e-3; 26e-3; 28e-3; 30e-3; 34e-3; 38e-3; 46e-3].
Definition fTabJ3_4M : R -> M R := interp1d bf_diams tabJ3_4M.
Definition standardHoleDia : list R := [18e-3; 22e-3; 24e-3; 27e-3; 30e-3; 33e-3].
Definition oversizeHoleDia : list R := [20e-3; 24e-3; 28e-3; 30e-3; 35e-3; 38e-3].
Definition fStandardHoleDia : R -> M R := interp1d (removelast bf_diams) standardHoleDia.
Definition fOversizeHoleDia : R -> M R := interp1d (removelast bf_diams) oversizeHoleDia.
Definition groupA : list string := ["A325"; "A325M"; "A354BC"]%string.
Definition groupB : list string := ["A490"; "A490M"; "A354BD"]%string.
Definition groupC : list string := ["F3043"; "F3111"]%string.

(** [x in l] for an attribute that is a string or [None]. *)
Definition name_in (nm : option string) (l : list string) : bool :=
  match nm with
  | Some s => existsb (String.eqb s) l
  | None => false
  end.

Definition name_is (nm : option string) (s : string) : bool :=
  match nm with
  | Some s' => String.eqb s' s
  | None => false
  end.

Module Bolt.

Definition getArea (b : BoltFastener) : R := getArea_of_diameter (diameter b).

Definition getGroup (b : BoltFastener) : option string :=
  if name_in (name (steelType b)) groupA then Some "A"%string
  else if name_in (name (steelType b)) groupB then Some "B"%string
  else if name_in (name (steelType b)) groupC then Some "C"%string
  else None.

Definition getMinDistanceBetweenCenters (b : BoltFastener) : R :=
  (2 + 2.0 / 3.0) * diameter b.

Definition getRecommendedDistanceBetweenCenters (b : BoltFastener) : R :=
  3.0 * diameter b.

Definition getMinimumEdgeDistanceJ3_4M (b : BoltFastener) : M R :=
  if Rle_dec (diameter b) 36e-3 then fTabJ3_4M (diameter b)
  else ret (1.25 * diameter b).

Definition getNominalHoleDiameter (b : BoltFastener) (oversized : bool) : M R :=
  if oversized then
    if Rge_dec (diameter b) 36e-3 then ret (diameter b + 8e-3)
    else fOversizeHoleDia (diameter b)
  else
    if Rge_dec (diameter b) 36e-3 then ret (diameter b + 3e-3)
    else fStandardHoleDia (diameter b).

Definition getNominalTensileStrength (b : BoltFastener) : R :=
  let retval := getArea b in
  match getGroup b with
  | Some group =>
      if String.eqb group "A" then retval * 620e6
      else if String.eqb group "B" then retval * 780e6
      else if String.eqb group "C" then retval * 1040e6
      else retval
  | None =>
      if name_is (name (steelType b)) "A307" then retval * 310e6
      else retval * (0.75 * fu (steelType b))
  end.

Definition getDesignTensileStrength (b : BoltFastener) : R :=
  0.75 * getNominalTensileStrength b.

Definition getNominalShearStrength (b : BoltFastener) (threadsExcluded : bool) : R :=
  let retval := getArea b in
  match getGroup b with
  | Some group =>
      if String.eqb group "A" then
        if threadsExcluded then retval * 469e6 else retval * 372e6
      else if String.eqb group "B" then
        if threadsExcluded then retval * 579e6 else retval * 469e6
      else if String.eqb group "C" then
        if threadsExcluded then retval * 779e6 else retval * 620e6
      else retval
  | None =>
      if name_is (name (steelType b)) "A307" then retval * 186e6
      else if threadsExcluded then retval * (0.563 * fu (steelType b))
      else retval * (0.45 * fu (steelType b))
  end.

Definition getDesignShearStrength (b : BoltFastener) (threadsExcluded : bool) : R :=
  0.75 * getNominalShearStrength b threadsExcluded.

End Bolt.

(** [BoltFastener(diameter)]: the steel defaults to A307. *)
Definition BoltFastener_init (d : R) : BoltFastener := mkBolt d A307 None.

Definition M16 := BoltFastener_init 16e-3.
Definition M20 := BoltFastener_init 20e-3.
Definition M22 := BoltFastener_init 22e-3.
Definition M24 := BoltFastener_init 24e-3.
Definition M27 := BoltFastener_init 27e-3.
Definition M30 := BoltFastener_init 30e-3.
Definition M36 := BoltFastener_init 36e-3.

Definition standardBolts : list BoltFastener := [M16; M20; M22; M24; M27; M30; M36].

(** The loop of [getBoltForHole] over the bolts still to be tried. *)
Fixpoint getBoltForHole_loop (bs : list BoltFastener) (threshold : R)
    : M (option BoltFastener) :=
  match bs with
  | [] => ret None
  | b :: bs' =>
      holeDiameter <- Bolt.getNominalHoleDiameter b false ;;
      if Rlt_dec holeDiameter threshold then ret (Some b)
      else getBoltForHole_loop bs' threshold
  end.

Definition getBoltForHole (holeDiameter tol : R) : M (option BoltFastener) :=
  let threshold := holeDiameter + tol in
  getBoltForHole_loop (rev standardBolts) threshold.

(** ** Anchor bolts and anchor groups *)

(** What the anchor classes use of [bolts.BoltBase] besides the fields:
    the bolt designation and the lines its [report] writes. *)
Class BoltBase : Type := {
  BoltBase_getName : R -> string;
  BoltBase_report : R -> option Pos3d -> list string
}.

Module Anchor.

Record AnchorBolt : Type := mkAnchor {
  name : string;
  steelType : ASTMSteel;
  diameter : R;
  pos3d : option Pos3d
}.

Definition getArea (a : AnchorBolt) : R := getArea_of_diameter (diameter a).

Definition getTensileStrength (a : AnchorBolt) : R :=
  let Ag := getArea a in fu (steelType a) * Ag.

Definition getNominalTensileStrength (a : AnchorBolt) : R :=
  0.75 * getTensileStrength a.

Definition getDesignTensileStrength (a : AnchorBolt) (phi : R) : R :=
  phi * getNominalTensileStrength a.

Section WithGeometry.
Context {G : Geometry}.

(** [AnchorBolt.getConcreteBreakoutConePolygon]. *)
Definition getConcreteBreakoutConePolygon (a : AnchorBolt) (h_ef : R)
    : M Polygon2d :=
  let retval := Polygon2d_new in
  let delta := 1.5 * h_ef in
  match pos3d a with
  | Some p =>
      let origin : Pos2d := (px p, py p) in
      let retval := appendVertex retval (pos_plus origin (delta, delta)) in
      let retval := appendVertex retval (pos_plus origin (- delta, delta)) in
      let retval := appendVertex retval (pos_plus origin (- delta, - delta)) in
      let retval := appendVertex retval (pos_plus origin (delta, - delta)) in
      ret retval
  | None =>
      lmsg_error "Anchor position not specified." ;;;
      ret retval
  end.

End WithGeometry.

(** [AnchorBolt.report]: the base class writes first; concatenating a
    steel name that is [None] to a string is a [TypeError]. *)
Definition report {B : BoltBase} (a : AnchorBolt) : M unit :=
  write (String.concat "" (BoltBase_report (diameter a) (pos3d a))) ;;;
  match Steel.name (steelType a) with
  | Some nm => write ("     steel type: " ++ nm ++ nl)%string
  | None => raise TypeError
  end.

End Anchor.

Module Group.
Import Anchor.

Record AnchorGroup : Type := mkGroup { anchors : list AnchorBolt }.

(** [str(count)] for the insertion index. *)
Definition str_of_nat (n : nat) : string :=
  NilEmpty.string_of_uint (Nat.to_uint n).

Fixpoint init_loop (steel : ASTMSteel) (d : R) (positions : list (option Pos3d))
    (count : nat) : list AnchorBolt :=
  match positions with
  | [] => []
  | p :: ps =>
      mkAnchor (str_of_nat count) steel d p :: init_loop steel d ps (S count)
  end.

(** [AnchorGroup(steel, diameter, positions)]. *)
Definition AnchorGroup_init (steel : ASTMSteel) (d : R)
    (positions : list (option Pos3d)) : AnchorGroup :=
  mkGroup (init_loop steel d positions 0).

(** [setPositions]: [zip] stops at the shorter of the two lists. *)
Fixpoint setPositions_loop (l : list AnchorBolt) (positions : list (option Pos3d))
    : list AnchorBolt :=
  match l, positions with
  | a :: l', p :: ps =>
      mkAnchor (name a) (steelType a) (diameter a) p :: setPositions_loop l' ps
  | _, _ => l
  end.

Definition setPositions (g : AnchorGroup) (positions : list (option Pos3d))
    : AnchorGroup :=
  mkGroup (setPositions_loop (anchors g) positions).

Definition getNumberOfBolts (g : AnchorGroup) : nat := List.length (anchors g).

(** [l[0]]: an [IndexError] on the empty list. *)
Definition first {A} (l : list A) : M A :=
  match l with
  | [] => raise IndexError
  | a :: _ => ret a
  end.

Section WithGeometry.
Context {G : Geometry}.

(** The list of the individual cones, one call per anchor, in order. *)
Fixpoint cones (l : list AnchorBolt) (h_ef : R) : M (list Polygon2d) :=
  match l with
  | [] => ret []
  | a :: l' =>
      plg <- Anchor.getConcreteBreakoutConePolygon a h_ef ;;
      polygons <- cones l' h_ef ;;
      ret (plg :: polygons)
  end.

(** [AnchorGroup.getConcreteBreakoutConePolygon]: the first cone, into
    which every other cone is merged in turn. *)
Definition getConcreteBreakoutConePolygon (g : AnchorGroup) (h_ef : R)
    : M Polygon2d :=
  polygons <- cones (anchors g) h_ef ;;
  retval <- first polygons ;;
  ret (fold_left unePolygon2d (tl polygons) retval).

(** [AnchorGroup.getConcreteBreakoutStrength]. *)
Definition getConcreteBreakoutStrength (g : AnchorGroup) (h_ef fc psi3 phi : R)
    : M R :=
  plg <- getConcreteBreakoutConePolygon g h_ef ;;
  let AN := geom.getArea plg in
  a0 <- first (anchors g) ;;
  plg0 <- Anchor.getConcreteBreakoutConePolygon a0 h_ef ;;
  let ANo := geom.getArea plg0 in
  let fc_psi := fc * 145.038e-6 in
  root <- math_sqrt fc_psi ;;
  retval <- pydiv (phi * psi3 * root * AN) ANo ;;
  let h_ef_in := h_ef / 0.0254 in
  retval <- (if Rlt_dec h_ef_in 11 then
               p <- math_pow h_ef_in 1.5 ;; ret (retval * (24 * p))
             else
               p <- math_pow h_ef_in (5.0 / 3.0) ;; ret (retval * (16 * p))) ;;
  ret (retval * 4.4482216).

End WithGeometry.

(** [AnchorGroup.report]. *)
Definition report {B : BoltBase} (g : AnchorGroup) : M unit :=
  write ("   anchors: " ++ nl)%string ;;;
  a0 <- first (anchors g) ;;
  write ("     number of anchors: " ++ str_of_nat (List.length (anchors g))
         ++ " x " ++ BoltBase_getName (diameter a0) ++ nl)%string ;;;
  a0 <- first (anchors g) ;;
  Anchor.report a0.

(** Every anchor of the group has a position. *)
Definition positions_set (g : AnchorGroup) : Prop :=
  Forall (fun a => pos3d a <> None) (anchors g).

End Group.

(** ** Steel shapes *)

(** Modelled from the spec: [aisc.SectionClassif], the four section
    classes in increasing order of local-buckling susceptibility; the
    code compares them with [<]. *)
Inductive SectionClassif : Type := compact | noncompact | slender | too_slender.

Definition classif_rank (c : SectionClassif) : nat :=
  match c with
  | compact => 0
  | noncompact => 1
  | slender => 2
  | too_slender => 3
  end.

Definition classif_ltb (a b : SectionClassif) : bool :=
  Nat.ltb (classif_rank a) (classif_rank b).

Module Shape.

(** [ASTMShape] together with what the shape-table parent class supplies:
    the tabulated properties read by [get], the steel, and the methods
    of the parent that the checks call. *)
Record ASTMShape : Type := mkShape {
  name : string;
  steelType : ASTMSteel;
  get_A : R;
  get_iy : R;
  get_iz : R;
  get_E : R;
  slendernessCheck : R;
  getDesignFlexuralStrength : option R -> option R -> bool -> M R;
  getNominalFlexuralStrength : R -> R -> bool -> M R;
  getEffectiveArea : R
}.

(** [getDesignTensileStrength(Ae)]: [not Ae] holds for [None] and for
    zero. *)
Definition getDesignTensileStrength (s : ASTMShape) (Ae : option R) : R :=
  let Ag := get_A s in
  let retval := 0.9 * fy (steelType s) * Ag in
  let Ae := match Ae with
            | None => Ag
            | Some x => if Req_dec_T x 0 then Ag else x
            end in
  pymin retval (0.75 * fu (steelType s) * Ae).

Definition getFlexuralSlendernessRatio (s : ASTMShape)
    (effectiveLengthY effectiveLengthZ : R) : M R :=
  let sc := slendernessCheck s in
  (if Rlt_dec 1.01 sc then
     lmsg_warning "Member section has slender members. Results are not valid."
   else ret tt) ;;;
  retval <- pydiv effectiveLengthZ (get_iz s) ;;
  other <- pydiv effectiveLengthY (get_iy s) ;;
  ret (pymax retval other).

Definition getFlexuralElasticBucklingStress (s : ASTMShape)
    (effectiveLengthY effectiveLengthZ : R) : M R :=
  sr <- getFlexuralSlendernessRatio s effectiveLengthY effectiveLengthZ ;;
  let E := get_E s in
  pydiv (math_pi ^ 2 * E) (sr ^ 2).

Definition getCriticalStressE (s : ASTMShape)
    (effectiveLengthY effectiveLengthZ : R) (sectionClassif : SectionClassif)
    (Fe : R) : M R :=
  let retval := 0.0 in
  if classif_ltb sectionClassif slender then
    sr <- getFlexuralSlendernessRatio s effectiveLengthY effectiveLengthZ ;;
    let E := get_E s in
    let Fy := fy (steelType s) in
    Fratio <- pydiv Fy Fe ;;
    q <- pydiv E Fy ;;
    root <- math_sqrt q ;;
    let thresholdA := 4.71 * root in
    if orb (if Rle_dec sr thresholdA then true else false)
           (if Rle_dec Fratio 2.25 then true else false) then
      p <- math_pow 0.658 Fratio ;;
      ret (p * Fy)
    else
      ret (0.877 * Fe)
  else
    lmsg_error "Critical stress of slender members not implemented yet." ;;;
    ret retval.

Definition getFlexuralCriticalStress (s : ASTMShape)
    (effectiveLengthY effectiveLengthZ : R) (sectionClassif : SectionClassif)
    : M R :=
  Fe <- getFlexuralElasticBucklingStress s effectiveLengthY effectiveLengthZ ;;
  getCriticalStressE s effectiveLengthY effectiveLengthZ sectionClassif Fe.

(** [getTorsionalElasticBucklingStress] calls the module-level name
    [getShapeTorsionalElasticBucklingStress], which the module neither
    defines nor imports. *)
Definition getTorsionalElasticBucklingStress (s : ASTMShape)
    (effectiveLengthX : R) : M R :=
  raise NameError.

Definition getTorsionalCriticalStress (s : ASTMShape)
    (effectiveLengthX effectiveLengthY effectiveLengthZ : R)
    (sectionClassif : SectionClassif) : M R :=
  Fe <- getTorsionalElasticBucklingStress s effectiveLengthX ;;
  getCriticalStressE s effectiveLengthY effectiveLengthZ sectionClassif Fe.

(** [self.shape] is the row of the shape table: [self.shape.get('A')]
    reads the same area as [self.get('A')]. *)
Definition getNominalCompressiveStrength (s : ASTMShape)
    (effectiveLengthX effectiveLengthY effectiveLengthZ : R)
    (sectionClassif : SectionClassif) : M R :=
  let Ag := get_A s in
  if Rle_dec effectiveLengthX (pymax effectiveLengthY effectiveLengthZ) then
    Fcr <- getFlexuralCriticalStress s effectiveLengthY effectiveLengthZ sectionClassif ;;
    ret (Fcr * Ag)
  else
    Fcr <- getTorsionalCriticalStress s effectiveLengthX effectiveLengthY
             effectiveLengthZ sectionClassif ;;
    ret (Fcr * Ag).

Definition getDesignCompressiveStrength (s : ASTMShape)
    (effectiveLengthX effectiveLengthY effectiveLengthZ : R)
    (sectionClassif : SectionClassif) : M R :=
  Pn <- getNominalCompressiveStrength s effectiveLengthX effectiveLengthY
          effectiveLengthZ sectionClassif ;;
  ret (0.9 * Pn).

Definition getReferenceCompressiveStrength (s : ASTMShape)
    (sectionClassif : SectionClassif) : M R :=
  getDesignCompressiveStrength s 0.1 0.1 0.1 sectionClassif.

Definition getReferenceFlexuralStrength (s : ASTMShape) : M R :=
  getDesignFlexuralStrength s (Some 0.1) (Some 1.0) true.

(** The two equations of section H1 shared by the shape-level and the
    member-level checks. *)
Definition H1 (ratioN Msum : R) : R :=
  if Rge_dec ratioN 0.2 then ratioN + 8.0 / 9.0 * Msum
  else ratioN / 2.0 + Msum.

(** [getBiaxialBendingEfficiency]: the tuple
    [(CF, NcRd, McRdy, McRdz, MvRdz, MbRdz)]. *)
Definition getBiaxialBendingEfficiency (s : ASTMShape)
    (sectionClassif : SectionClassif) (Nd Myd Mzd Vyd chiN chiLT : R)
    : M (R * R * R * R * R * R) :=
  '(ratioN, NcRd) <-
     (if Rlt_dec Nd 0 then
        Nref <- getReferenceCompressiveStrength s sectionClassif ;;
        let NcRd := chiN * Nref in
        ratioN <- pydiv (Rabs Nd) NcRd ;;
        ret (ratioN, NcRd)
      else
        let NcRd := getDesignTensileStrength s None in
        ratioN <- pydiv Nd NcRd ;;
        ret (ratioN, NcRd)) ;;
  McRdy <- getDesignFlexuralStrength s None None false ;;
  McRdz <- getReferenceFlexuralStrength s ;;
  let MvRdz := McRdz in
  let MbRdz := chiLT * MvRdz in
  ratioMz <- pydiv (Rabs Mzd) MbRdz ;;
  ratioMy <- pydiv (Rabs Myd) McRdy ;;
  let CF := H1 ratioN (ratioMz + ratioMy) in
  ret (CF, NcRd, McRdy, McRdz, MvRdz, MbRdz).

End Shape.

(** ** Members *)

Record BendingState : Type := mkBendingState {
  Mmax : R; Ma : R; Mb : R; Mc : R
}.

(** [BendingState.getLateralTorsionalBucklingModificationFactor]. *)
Definition BendingState_getCb (bs : BendingState) : M R :=
  pydiv (12.5 * Mmax bs) (2.5 * Mmax bs + 3 * Ma bs + 4 * Mb bs + 3 * Mc bs).

(** [MemberConnection]: the fixities belong to the base class
    [buckling_base.MemberConnection]. *)
Record MemberConnection : Type := mkConnection {
  L : R;
  Lb : R;
  rotI : string;
  transI : string;
  rotJ : string;
  transJ : string
}.

(** [MemberConnection(L, rotI, transI, rotJ, transJ)]. *)
Definition MemberConnection_init (L : R) (rotI transI rotJ transJ : string)
    : MemberConnection :=
  mkConnection L L rotI transI rotJ transJ.

(** The effective-length coefficient recommended by the base class for
    the four fixities, an external collaborator. *)
Class BucklingBase : Type := {
  getEffectiveBucklingLengthCoefficientRecommended :
    string -> string -> string -> string -> R
}.

Definition MemberConnection_getCb (c : MemberConnection) (bs : BendingState)
    : M R :=
  if andb (String.eqb (transJ c) "free") (String.eqb (rotJ c) "free")
  then ret 1.0
  else BendingState_getCb bs.

Module Member.
Import Shape.

Record ConnectedMember : Type := mkMember {
  shape : ASTMShape;
  connection : MemberConnection
}.

Section WithBucklingBase.
Context {BB : BucklingBase}.

Definition getEffectiveLength (m : ConnectedMember) : R :=
  let c := connection m in
  let K := getEffectiveBucklingLengthCoefficientRecommended
             (rotI c) (transI c) (rotJ c) (transJ c) in
  K * L c.

Definition getSlendernessRatio (m : ConnectedMember) : M R :=
  let Lc := getEffectiveLength m in
  let r := pymin (get_iy (shape m)) (get_iz (shape m)) in
  pydiv Lc r.

Definition getElasticBucklingStress (m : ConnectedMember) : M R :=
  sr <- getSlendernessRatio m ;;
  pydiv (math_pi ^ 2 * E (steelType (shape m))) (sr ^ 2).

Definition getCriticalStress (m : ConnectedMember) : M R :=
  let st := steelType (shape m) in
  q <- pydiv (E st) (fy st) ;;
  root <- math_sqrt q ;;
  let treshold := 4.71 * root in
  r <- getSlendernessRatio m ;;
  Fe <- getElasticBucklingStress m ;;
  fy_fe <- pydiv (fy st) Fe ;;
  if orb (if Rle_dec r treshold then true else false)
         (if Rle_dec fy_fe 2.25 then true else false) then
    p <- math_pow 0.658 fy_fe ;;
    ret (p * fy st)
  else
    ret (0.877 * Fe).

Definition getNominalCompressiveStrength (m : ConnectedMember) : M R :=
  Fcr <- getCriticalStress m ;;
  ret (getEffectiveArea (shape m) * Fcr).

(** [getZNominalFlexuralStrength]: with holes in the flange
    ([AfgAfnRatio > 1]) the test reads [self.steelType], an attribute
    that a [ConnectedMember] does not have. *)
Definition getZNominalFlexuralStrength (m : ConnectedMember)
    (bendingState : BendingState) (AfgAfnRatio : R) : M R :=
  cb <- MemberConnection_getCb (connection m) bendingState ;;
  retval <- getNominalFlexuralStrength (shape m) (Lb (connection m)) cb true ;;
  if Rlt_dec 1.0 AfgAfnRatio then
    Yt <- getYt (steelType (shape m)) ;;
    raise AttributeError
  else ret retval.

Definition getYNominalFlexuralStrength (m : ConnectedMember)
    (bendingState : BendingState) : M R :=
  cb <- MemberConnection_getCb (connection m) bendingState ;;
  getNominalFlexuralStrength (shape m) (Lb (connection m)) cb false.

(** [getCapacityFactor]: the function ends without a [return] in the
    tension branch, so that its value there is [None]. *)
Definition getCapacityFactor (m : ConnectedMember) (Nd Myd Mzd gammaC : R)
    (bendingStateY bendingStateZ : BendingState) (AfgAfnRatio : R)
    : M (option R) :=
  if Rle_dec Nd 0.0 then
    Pn0 <- getNominalCompressiveStrength m ;;
    Pn <- pydiv Pn0 gammaC ;;
    Mnz0 <- getZNominalFlexuralStrength m bendingStateZ AfgAfnRatio ;;
    Mnz <- pydiv Mnz0 gammaC ;;
    Mny0 <- getYNominalFlexuralStrength m bendingStateY ;;
    Mny <- pydiv Mny0 gammaC ;;
    ratioN <- pydiv (Rabs Nd) Pn ;;
    mz <- pydiv (Rabs Mzd) Mnz ;;
    my <- pydiv (Rabs Myd) Mny ;;
    let Msum := mz + my in
    ret (Some (H1 ratioN Msum))
  else
    lmsg_error "Capacity factor not implemented for tension." ;;;
    ret None.

End WithBucklingBase.

End Member.

(** ** Dictionaries *)

Inductive pyval : Type :=
| VNone
| VFloat (x : R)
| VStr (s : string)
| VPos (p : Pos3d)
| VDict (d : list (string * pyval)).

Definition dict : Type := list (string * pyval).

Fixpoint dict_get (d : dict) (k : string) : option pyval :=
  match d with
  | [] => None
  | (k', v) :: d' => if String.eqb k' k then Some v else dict_get d' k
  end.

(** [d[k] = v]: an existing key keeps its place, a new one goes last. *)
Fixpoint dict_set (d : dict) (k : string) (v : pyval) : dict :=
  match d with
  | [] => [(k, v)]
  | (k', v') :: d' =>
      if String.eqb k' k then (k, v) :: d' else (k', v') :: dict_set d' k v
  end.

(** [d.update(other)]. *)
Definition dict_update (d other : dict) : dict :=
  fold_left (fun acc kv => dict_set acc (fst kv) (snd kv)) other d.

(** [d[k]]: a [KeyError] for a missing key. *)
Definition dict_item (d : dict) (k : string) : M pyval :=
  match dict_get d k with
  | Some v => ret v
  | None => raise KeyError
  end.

Definition ASTMSteel_className : string :=
  "materials.astm_aisc.ASTM_materials.ASTMSteel".

(** [eval(steelTypeClassName + '()')]: the one class name that [getDict]
    stores for a steel of this module builds a steel with every default
    of the constructor; another name is not bound. *)
Definition eval_steel (className : string) : M ASTMSteel :=
  if String.eqb className ASTMSteel_className then ret ASTMSteel_default
  else raise NameError.

Module Serial.

Definition pos_val (p : option Pos3d) : pyval :=
  match p with
  | Some p => VPos p
  | None => VNone
  end.

(** Modelled from the spec: [steel_base.BasicSteel.getDict], the member
    values that the base constructor receives. *)
Definition BasicSteel_getDict (s : ASTMSteel) : dict :=
  [("E"%string, VFloat (E s)); ("nu"%string, VFloat (nu s));
   ("fy"%string, VFloat (fy s)); ("fu"%string, VFloat (fu s));
   ("gammaM"%string, VFloat (gammaM s))].

(** [ASTMSteel.getDict]. *)
Definition ASTMSteel_getDict (s : ASTMSteel) : dict :=
  let retval := BasicSteel_getDict s in
  let name := if truthy (Steel.name s)
              then match Steel.name s with Some n => VStr n | None => VNone end
              else VNone in
  dict_update retval [("name"%string, name)].

(** [ASTMSteel.setFromDict]: only the name is read. *)
Definition ASTMSteel_setFromDict (s : ASTMSteel) (dct : dict) : ASTMSteel :=
  let cleared := mkSteel (E s) (nu s) (fy s) (fu s) (gammaM s) None (Rt s) (Ry s) in
  match dict_get dct "name" with
  | Some (VStr n) =>
      if truthy (Some n)
      then mkSteel (E s) (nu s) (fy s) (fu s) (gammaM s) (Some n) (Rt s) (Ry s)
      else cleared
  | _ => cleared
  end.

(** Modelled from the spec: [bolts.BoltBase.getDict] and
    [bolts.BoltBase.setFromDict], which store and read back the two
    fields of the base class, the diameter and the position. *)
Definition BoltBase_getDict (d : R) (p : option Pos3d) : dict :=
  [("diameter"%string, VFloat d); ("pos3d"%string, pos_val p)].

Definition BoltBase_setFromDict (dct : dict) : M (R * option Pos3d) :=
  d <- dict_item dct "diameter" ;;
  p <- dict_item dct "pos3d" ;;
  match d, p with
  | VFloat d, VPos p => ret (d, Some p)
  | VFloat d, VNone => ret (d, None)
  | _, _ => raise TypeError
  end.

(** The steel part shared by [BoltFastener.setFromDict] and
    [AnchorBolt.setFromDict]. *)
Definition steel_fromDict (dct : dict) : M ASTMSteel :=
  cn <- dict_item dct "steelTypeClassName" ;;
  match cn with
  | VStr cn =>
      st <- eval_steel cn ;;
      sd <- dict_item dct "steelType" ;;
      match sd with
      | VDict sd => ret (ASTMSteel_setFromDict st sd)
      | _ => raise TypeError
      end
  | _ => raise TypeError
  end.

(** [BoltFastener.getDict]. *)
Definition BoltFastener_getDict (b : BoltFastener) : dict :=
  let retval := BoltBase_getDict (diameter b) (pos3d b) in
  dict_update retval
    [("steelTypeClassName"%string, VStr ASTMSteel_className);
     ("steelType"%string, VDict (ASTMSteel_getDict (steelType b)))].

(** [BoltFastener.setFromDict]. *)
Definition BoltFastener_setFromDict (b : BoltFastener) (dct : dict)
    : M BoltFastener :=
  '(d, p) <- BoltBase_setFromDict dct ;;
  st <- steel_fromDict dct ;;
  ret (mkBolt d st p).

(** [AnchorBolt.getDict]. *)
Definition AnchorBolt_getDict (a : Anchor.AnchorBolt) : dict :=
  let retval := BoltBase_getDict (Anchor.diameter a) (Anchor.pos3d a) in
  dict_update retval
    [("name"%string, VStr (Anchor.name a));
     ("steelTypeClassName"%string, VStr ASTMSteel_className);
     ("steelType"%string, VDict (ASTMSteel_getDict (Anchor.steelType a)))].

(** [AnchorBolt.setFromDict]. *)
Definition AnchorBolt_setFromDict (a : Anchor.AnchorBolt) (dct : dict)
    : M Anchor.AnchorBolt :=
  '(d, p) <- BoltBase_setFromDict dct ;;
  nm <- dict_item dct "name" ;;
  match nm with
  | VStr nm =>
      st <- steel_fromDict dct ;;
      ret (Anchor.mkAnchor nm st d p)
  | _ => raise TypeError
  end.

(** [ASTMShape.getDict]. *)
Definition ASTMShape_getDict (s : Shape.ASTMShape) : dict :=
  [("name"%string, VStr (Shape.name s))].

(** [ASTMShape.setFromDict]: the name is the only member read back. *)
Definition ASTMShape_setFromDict (s : Shape.ASTMShape) (dct : dict)
    : M Shape.ASTMShape :=
  nm <- dict_item dct "name" ;;
  match nm with
  | VStr nm =>
      ret (Shape.mkShape nm (Shape.steelType s) (Shape.get_A s) (Shape.get_iy s)
             (Shape.get_iz s) (Shape.get_E s) (Shape.slendernessCheck s)
             (Shape.getDesignFlexuralStrength s)
             (Shape.getNominalFlexuralStrength s) (Shape.getEffectiveArea s))
  | _ => raise TypeError
  end.

End Serial.

(** ** Vocabulary of the statements *)

(** A bolt fits when its standard hole diameter is computed and lies
    strictly below the threshold. *)
Definition fits (b : BoltFastener) (threshold : R) : Prop :=
  exists h, value (Bolt.getNominalHoleDiameter b false) = Return h /\ h < threshold.

(** The two-regime rule of section E3 as the specification words it:
    the inelastic formula when the slenderness ratio is at most
    [4.71 sqrt(E/Fy)] or the stress ratio [Fy/Fe] is at most 2.25, the
    elastic formula otherwise. *)
Definition spec_two_regime (sr E Fy Fe : R) : R :=
  if Rle_dec sr (4.71 * sqrt (E / Fy)) then Rpower 0.658 (Fy / Fe) * Fy
  else if Rle_dec (Fy / Fe) 2.25 then Rpower 0.658 (Fy / Fe) * Fy
  else 0.877 * Fe.

(** Properties of a shape that the compression checks divide by or take
    the root of: non-zero radii of gyration, a positive yield stress and
    a non-negative modulus. *)
Definition shape_wf (s : Shape.ASTMShape) : Prop :=
  Shape.get_iy s <> 0 /\ Shape.get_iz s <> 0 /\
  0 < fy (Shape.steelType s) /\ 0 <= Shape.get_E s.

(** The same for a member: a non-zero effective length and least radius
    of gyration, a positive yield stress and a positive modulus of the
    steel. *)
Definition member_wf {BB : BucklingBase} (m : Member.ConnectedMember) : Prop :=
  Member.getEffectiveLength m <> 0 /\
  pymin (Shape.get_iy (Member.shape m)) (Shape.get_iz (Member.shape m)) <> 0 /\
  0 < fy (Shape.steelType (Member.shape m)) /\
  0 < E (Shape.steelType (Member.shape m)).

(** A W310X97 section of A992 steel, with flexural strengths about the
    two axes standing for those of the shape table. *)
Definition W310X97 : Shape.ASTMShape :=
  Shape.mkShape "W310X97" A992 12300e-6 76.9e-3 134e-3 200e9 0.5
    (fun _ _ majorAxis => ret (if majorAxis then 494e3 else 224e3))
    (fun _ _ majorAxis => ret (if majorAxis then 549e3 else 249e3))
    12300e-6.

(** The effective-length coefficients of a pinned-pinned member, for
    the examples. *)
Definition PinnedK : BucklingBase :=
  {| getEffectiveBucklingLengthCoefficientRecommended := fun _ _ _ _ => 1.0 |}.

(** A 4 m long column of that section. *)
Definition column4m : Member.ConnectedMember :=
  Member.mkMember W310X97 (MemberConnection_init 4.0 "free" "fixed" "free" "fixed").

(** The square cone that [AnchorBolt.getConcreteBreakoutConePolygon]
    builds around a position. *)
Definition cone_polygon {G : Geometry} (p : Pos3d) (h_ef : R) : Polygon2d :=
  let delta := 1.5 * h_ef in
  let origin : Pos2d := (px p, py p) in
  appendVertex
    (appendVertex
       (appendVertex
          (appendVertex Polygon2d_new (pos_plus origin (delta, delta)))
          (pos_plus origin (- delta, delta)))
       (pos_plus origin (- delta, - delta)))
    (pos_plus origin (delta, - delta)).

(** The cone of an anchor, the empty polygon when it has no position. *)
Definition cone_of {G : Geometry} (h_ef : R) (a : Anchor.AnchorBolt) : Polygon2d :=
  match Anchor.pos3d a with
  | Some p => cone_polygon p h_ef
  | None => Polygon2d_new
  end.

(** The embedment-depth law of the breakout strength as the
    specification words it, on the depth in inches. *)
Definition spec_depth_law (h_ef : R) : R :=
  let h_ef_in := h_ef / 0.0254 in
  if Rlt_dec h_ef_in 11 then 24 * Rpower h_ef_in 1.5
  else 16 * Rpower h_ef_in (5 / 3).

(** A geometry for the examples: a region is a list of rings, the area
    of a ring is given by the shoelace formula, and the rings of a union
    are counted one by one, which is the area of the union when they do
    not overlap. *)
Fixpoint shoelace_from (first : Pos2d) (vs : list Pos2d) : R :=
  match vs with
  | [] => 0
  | [v] => fst v * snd first - fst first * snd v
  | v :: ((w :: _) as tl) => fst v * snd w - fst w * snd v + shoelace_from first tl
  end.

Definition ring_area (vs : list Pos2d) : R :=
  match vs with
  | [] => 0
  | v :: _ => Rabs (shoelace_from v vs) / 2
  end.

Definition RingGeometry : Geometry :=
  {| Polygon2d := list (list Pos2d);
     Polygon2d_new := [[]];
     appendVertex := fun p v =>
       match p with
       | r :: rs => (r ++ [v])%list :: rs
       | [] => [[v]]
       end;
     unePolygon2d := fun p q => (p ++ q)%list;
     getArea := fun p => fold_right (fun r acc => ring_area r + acc) 0 p |}.

(** A designation and a report of the base class, for the examples. *)
Definition PlainBoltBase : BoltBase :=
  {| BoltBase_getName := fun _ => "anchor"%string;
     BoltBase_report := fun _ _ => [] |}.

(** Two F1554 grade 36 anchors of 25 mm, one metre apart. *)
Definition two_anchors : Group.AnchorGroup :=
  Group.AnchorGroup_init F1554gr36 25e-3
    [Some (mkPos3d 0 0 0); Some (mkPos3d 1 0 0)].

Definition one_anchor : Group.AnchorGroup :=
  Group.AnchorGroup_init F1554gr36 25e-3 [Some (mkPos3d 0 0 0)].

(** ** Further operations of the module *)

(** [getFilletWeldMinimumLegSheets] and [getFilletWeldMaximumLegSheets]. *)
Definition getFilletWeldMinimumLegSheets (t1 t2 : R) : R :=
  let amin1 := getFilletWeldMinimumLeg t1 in
  let amin2 := getFilletWeldMinimumLeg t2 in
  pymax amin1 amin2.

Definition getFilletWeldMaximumLegSheets (t1 t2 : R) : R :=
  let amax1 := getFilletWeldMaximumLeg t1 in
  let amax2 := getFilletWeldMaximumLeg t2 in
  pymin amax1 amax2.

(** Tables 3.2 and 2.3 of the design guide, class attributes of
    [AnchorBolt]. *)
Definition ab_diams : list R :=
  [0.015875; 0.01905; 0.022225; 0.0254; 0.028575; 0.03175; 0.0381; 0.04445;
   0.0508; 0.05715; 0.0635; 0.06985; 0.0762; 0.08255; 0.0889; 0.09525; 0.1016].
Definition bearingArea : list R :=
  [0.00044451524; 0.00058451496; 0.0007870952; 0.00096774; 0.0011677396;
   0.0014451584; 0.0020193508; 0.0026903172; 0.003451606; 0.0043161204;
   0.0052709572; 0.006322568; 0.007354824; 0.008580628; 0.009870948;
   0.0112903; 0.012838684].
Definition fBearingArea : R -> M R := interp1d ab_diams bearingArea.
Definition rDiams : list R :=
  [0.01905; 0.022225; 0.0254; 0.03175; 0.0381; 0.04445; 0.0508; 0.0635].
Definition hDiams : list R :=
  [0.0333375; 0.0396875; 0.0460375; 0.0523875; 0.0587375; 0.06985; 0.08255;
   0.08255].
Definition fHoleDiameter : R -> M R := interp1d rDiams hDiams.

Module AnchorStrength.
Import Anchor.

(** [getNominalShearStrength(typ)]: the factor is 0.5 for type ['X'] and
    0.4 for any other type. *)
Definition getNominalShearStrength (a : AnchorBolt) (typ : string) : R :=
  let factor := if String.eqb typ "X" then 0.5 else 0.4 in
  factor * getTensileStrength a.

Definition getDesignShearStrength (a : AnchorBolt) (typ : string) (phi : R) : R :=
  phi * getNominalShearStrength a typ.

Definition getBearingArea (a : AnchorBolt) : M R := fBearingArea (diameter a).

Definition getNominalHoleDiameter (a : AnchorBolt) : M R :=
  fHoleDiameter (diameter a).

Definition getNominalPulloutStrength (a : AnchorBolt) (fc psi4 : R) : M R :=
  Abrg <- getBearingArea a ;;
  ret (psi4 * Abrg * 8 * fc).

Definition getDesignPulloutStrength (a : AnchorBolt) (fc psi4 phi : R) : M R :=
  Np <- getNominalPulloutStrength a fc psi4 ;;
  ret (phi * Np).

End AnchorStrength.

(** The number of messages of a log that are errors with a given text. *)
Fixpoint count_errors (msg : string) (l : list logmsg) : nat :=
  match l with
  | [] => 0
  | Error m :: l' =>
      if String.eqb m msg then S (count_errors msg l') else count_errors msg l'
  | _ :: l' => count_errors msg l'
  end.

(** The number of anchors of a list that have no position. *)
Fixpoint count_unset (l : list Anchor.AnchorBolt) : nat :=
  match l with
  | [] => 0
  | a :: l' =>
      match Anchor.pos3d a with
      | None => S (count_unset l')
      | Some _ => count_unset l'
      end
  end.

Module GroupSerial.

(** [AnchorGroup.getDict]: one entry per anchor name. *)
Definition getDict (g : Group.AnchorGroup) : dict :=
  fold_left
    (fun retval a =>
       dict_set retval (Anchor.name a) (VDict (Serial.AnchorBolt_getDict a)))
    (Group.anchors g) [].

(** The bolt that [AnchorGroup.setFromDict] creates before it reads an
    entry; [AnchorBolt.setFromDict] replaces each of its members,
    its steel included, which the source creates as [None]. *)
Definition blank_bolt : Anchor.AnchorBolt :=
  Anchor.mkAnchor "" ASTMSteel_default 0.0 None.

(** The loop of [AnchorGroup.setFromDict] over the keys still to be
    read; an entry that is not a dictionary cannot be indexed by a
    key. *)
Fixpoint setFromDict_loop (dct : dict) (keys : list string)
    : M (list Anchor.AnchorBolt) :=
  match keys with
  | [] => ret []
  | key :: keys' =>
      v <- dict_item dct key ;;
      match v with
      | VDict d =>
          bolt <- Serial.AnchorBolt_setFromDict blank_bolt d ;;
          anchors <- setFromDict_loop dct keys' ;;
          ret (bolt :: anchors)
      | _ => raise TypeError
      end
  end.

(** The order in which [for key in dct] visits the keys of a
    dictionary: every key once, in the order of insertion from
    Python 3.7 on, and in an order of the interpreter's choosing
    before. *)
Class DictOrder : Type := {
  iter_keys : dict -> list string;
  iter_keys_perm : forall d : dict, Permutation (iter_keys d) (map fst d)
}.

(** [AnchorGroup.setFromDict]. *)
Definition setFromDict {O : DictOrder} (g : Group.AnchorGroup) (dct : dict)
    : M Group.AnchorGroup :=
  anchors <- setFromDict_loop dct (iter_keys dct) ;;
  ret (Group.mkGroup anchors).

(** The iteration in the order of insertion. *)
Definition InsertionOrder : DictOrder :=
  {| iter_keys := fun d => map fst d;
     iter_keys_perm := fun d => Permutation_refl (map fst d) |}.

End GroupSerial.

(** An anchor as [AnchorBolt.setFromDict] rebuilds it from its own
    dictionary: the steel keeps its name only. *)
Definition reread (a : Anchor.AnchorBolt) : Anchor.AnchorBolt :=
  Anchor.mkAnchor (Anchor.name a)
    (ASTMSteel_init (Steel.name (Anchor.steelType a)) 250e6 400e6 1.0 None None)
    (Anchor.diameter a) (Anchor.pos3d a).

(** The entry of an anchor in the dictionary of its group. *)
Definition entry (a : Anchor.AnchorBolt) : string * pyval :=
  (Anchor.name a, VDict (Serial.AnchorBolt_getDict a)).

Module ShapeAxis.
Import Shape.

(** [getFlexuralCriticalSlendernessRatio]. *)
Definition getFlexuralCriticalSlendernessRatio (s : ASTMShape)
    (effectiveLengthY effectiveLengthZ : R) : M R :=
  sr <- getFlexuralSlendernessRatio s effectiveLengthY effectiveLengthZ ;;
  let E := get_E s in
  let Fy := fy (steelType s) in
  q <- pydiv Fy E ;;
  root <- math_sqrt q ;;
  ret (sr / math_pi * root).

(** [getFlexuralElasticBucklingStressOnAxis]: the radii are read from
    the row of the shape table. *)
Definition getFlexuralElasticBucklingStressOnAxis (s : ASTMShape)
    (effectiveLengthY effectiveLengthZ : R) (majorAxis : bool) : M R :=
  sr <- (if majorAxis then pydiv effectiveLengthZ (get_iz s)
         else pydiv effectiveLengthY (get_iy s)) ;;
  let E := get_E s in
  pydiv (math_pi ^ 2 * E) (sr ^ 2).

End ShapeAxis.

(** A group of one positioned anchor whose steel, built by the
    constructor without arguments, has no name. *)
Definition unnamed_anchor : Group.AnchorGroup :=
  Group.AnchorGroup_init ASTMSteel_default 25e-3 [Some (mkPos3d 0 0 0)].

(** * Properties *)

(** ** The effect monad *)

Lemma bind_ret_l {A B} (a : A) (k : A -> M B) : bind (ret a) k = k a.
Proof. unfold bind, ret; destruct (k a); reflexivity. Qed.

Lemma bind_raise_l {A B} (e : exn) (k : A -> M B) : bind (raise e) k = raise e.
Proof. reflexivity. Qed.

Lemma value_bind_return {A B} (c : M A) (k : A -> M B) a :
  value c = Return a -> value (bind c k) = value (k a).
Proof.
  destruct c as [l r]; simpl; intros ->; simpl.
  destruct (k a); reflexivity.
Qed.

Lemma value_bind_raise {A B} (c : M A) (k : A -> M B) e :
  value c = Raise e -> value (bind c k) = Raise e.
Proof. destruct c as [l r]; simpl; intros ->; reflexivity. Qed.

Lemma logged_bind_return {A B} (c : M A) (k : A -> M B) a :
  value c = Return a -> logged (bind c k) = (logged c ++ logged (k a))%list.
Proof.
  destruct c as [l r]; simpl; intros ->; simpl.
  destruct (k a); reflexivity.
Qed.

Lemma bind_log_l {B} (m : logmsg) (k : unit -> M B) :
  bind (log m) k = (m :: logged (k tt), value (k tt)).
Proof. unfold bind, log; destruct (k tt); reflexivity. Qed.

(** ** Arithmetic *)

Lemma pydiv_ok a b : b <> 0 -> pydiv a b = ret (a / b).
Proof.
  intros H; unfold pydiv; destruct (Req_dec_T b 0); [contradiction|reflexivity].
Qed.

Lemma pydiv_zero a : pydiv a 0 = raise ZeroDivisionError.
Proof. unfold pydiv; destruct (Req_dec_T 0 0); [reflexivity|contradiction]. Qed.

Lemma math_sqrt_ok x : 0 <= x -> math_sqrt x = ret (sqrt x).
Proof. intros H; unfold math_sqrt; destruct (Rlt_dec x 0); [lra|reflexivity]. Qed.

Lemma math_pow_pos x y : 0 < x -> math_pow x y = ret (Rpower x y).
Proof. intros H; unfold math_pow; destruct (Rlt_dec 0 x); [reflexivity|lra]. Qed.

Lemma pymax_Rmax a b : pymax a b = Rmax a b.
Proof.
  unfold pymax, Rmax; destruct (Rlt_dec a b), (Rle_dec a b); try reflexivity; lra.
Qed.

Lemma pymin_Rmin a b : pymin a b = Rmin a b.
Proof.
  unfold pymin, Rmin; destruct (Rlt_dec b a), (Rle_dec a b); try reflexivity; lra.
Qed.

(** Five digits of pi, from the Machin-like series of the library. *)
Lemma PI_bounds : 3.14159 < PI < 3.1416.
Proof.
  pose proof (PI_2_3_7_ineq 3) as [Hlo Hhi].
  unfold sum_f_R0, tg_alt, PI_2_3_7_tg, Ratan_seq in Hlo, Hhi.
  simpl in Hlo, Hhi.
  split; lra.
Qed.

(** ** The registry of steel grades *)

Lemma registry_grades :
  map Steel.name registry =
    map Some ["A36"; "A529"; "A572"; "A53"; "A992"; "A500"; "A307"; "A325";
              "A354BC"; "A354BD"; "A490"; "F1554gr36"; "F1554gr55";
              "F1554gr105"]%string
  /\ Forall grade_ok registry.
Proof.
  split; [reflexivity|].
  unfold registry.
  repeat constructor; simpl; unfold ksi; lra.
Qed.

Lemma setFromDict_keeps_members (s : ASTMSteel) (dct : dict) :
  let s' := Serial.ASTMSteel_setFromDict s dct in
  E s' = E s /\ nu s' = nu s /\ fy s' = fy s /\ fu s' = fu s /\
  gammaM s' = gammaM s /\ Rt s' = Rt s /\ Ry s' = Ry s.
Proof.
  intros s'. unfold s', Serial.ASTMSteel_setFromDict.
  destruct (dict_get dct "name") as [[| | n | |]|]; try (repeat split; fail).
  destruct (truthy (Some n)); repeat split.
Qed.

(** The read-only half of the claim C8 fails: [setFromDict] assigns the
    name of the steel that receives it, and called on the constant A36
    with an empty dictionary it leaves that constant without a name. *)
Lemma registry_not_read_only :
  In A36 registry
  /\ Steel.name A36 = Some "A36"%string
  /\ Steel.name (Serial.ASTMSteel_setFromDict A36 []) = None
  /\ Serial.ASTMSteel_setFromDict A36 [] <> A36.
Proof.
  split; [left; reflexivity|]. split; [reflexivity|]. split; [reflexivity|].
  intros H. apply (f_equal Steel.name) in H. discriminate H.
Qed.

(** C8, amended. Every grade constant of the module (A36, A529, A572,
    A53, A992, A500, A307, A325, A354BC, A354BD, A490 and the three
    F1554 grades) has a yield stress not above its ultimate stress, and
    its ratios Rt and Ry, where they are defined, are at least 1.0.  The
    registry is not read-only, since [setFromDict] assigns the name of
    its receiver; but that method, the only one of the class that
    assigns a member, changes neither the modulus, the Poisson ratio,
    the yield and ultimate stresses, the partial factor nor the ratios
    Rt and Ry of a grade, whatever the dictionary, so that the grade
    still satisfies the invariant afterwards. *)
Theorem registry_invariant (s : ASTMSteel) (dct : dict)
    (Hs : In s registry) :
  map Steel.name registry =
    map Some ["A36"; "A529"; "A572"; "A53"; "A992"; "A500"; "A307"; "A325";
              "A354BC"; "A354BD"; "A490"; "F1554gr36"; "F1554gr55";
              "F1554gr105"]%string
  /\ Forall grade_ok registry
  /\ (let s' := Serial.ASTMSteel_setFromDict s dct in
      E s' = E s /\ nu s' = nu s /\ fy s' = fy s /\ fu s' = fu s /\
      gammaM s' = gammaM s /\ Rt s' = Rt s /\ Ry s' = Ry s /\
      grade_ok s').
Proof.
  destruct registry_grades as [Hnames Hok].
  split; [exact Hnames|]. split; [exact Hok|].
  intros s'.
  destruct (setFromDict_keeps_members s dct) as (HE & Hnu & Hfy & Hfu & Hg & HRt & HRy).
  fold s' in HE, Hnu, Hfy, Hfu, Hg, HRt, HRy.
  repeat (split; [assumption|]).
  unfold grade_ok. rewrite Hfy, Hfu, HRt, HRy.
  exact (proj1 (Forall_forall _ _) Hok s Hs).
Qed.

Lemma registry_invariant_witness :
  fy (Serial.ASTMSteel_setFromDict A36 []) = fy A36
  /\ grade_ok (Serial.ASTMSteel_setFromDict A36 []).
Proof.
  pose proof (registry_invariant A36 [] (or_introl eq_refl))
    as (_ & _ & _ & _ & Hfy & _ & _ & _ & _ & Hok).
  split; [exact Hfy|exact Hok].
Defined.

(** ** Bolt strengths *)

Lemma M16_ungrouped : Bolt.getGroup M16 = None.
Proof. reflexivity. Qed.

Lemma M16_area : Bolt.getArea M16 = PI * 64e-6.
Proof.
  unfold Bolt.getArea, getArea_of_diameter, math_pi; simpl. lra.
Qed.

(** C6. A bolt whose steel is in none of the groups A, B and C: with
    the steel name A307 the nominal tensile strength is the area times
    310 MPa and the nominal shear strength the area times 186 MPa,
    whatever the threads-excluded flag; with another name the nominal
    tensile strength is the area times 0.75 fu and the nominal shear
    strength the area times 0.45 fu, the factor being 0.563 in place of
    0.45 when the threads are excluded.  The design strengths are 0.75
    times the nominal ones.  For the M16 bolt of A307 steel the area is
    201.06 square millimetres to the hundredth, the nominal tensile
    strength 62,329 N and the design tensile strength 46,747 N, both to
    the newton. *)
Theorem ungrouped_bolt_strength (b : BoltFastener) (te : bool)
    (Hgroup : Bolt.getGroup b = None) :
  (name_is (Steel.name (steelType b)) "A307" = true ->
     Bolt.getNominalTensileStrength b = Bolt.getArea b * 310e6 /\
     Bolt.getNominalShearStrength b te = Bolt.getArea b * 186e6)
  /\ (name_is (Steel.name (steelType b)) "A307" = false ->
     Bolt.getNominalTensileStrength b
       = Bolt.getArea b * (0.75 * fu (steelType b)) /\
     Bolt.getNominalShearStrength b false
       = Bolt.getArea b * (0.45 * fu (steelType b)) /\
     Bolt.getNominalShearStrength b true
       = Bolt.getArea b * (0.563 * fu (steelType b)))
  /\ Bolt.getDesignTensileStrength b = 0.75 * Bolt.getNominalTensileStrength b
  /\ Bolt.getDesignShearStrength b te = 0.75 * Bolt.getNominalShearStrength b te
  /\ Rabs (Bolt.getArea M16 * 1e6 - 201.06) < 0.01
  /\ Rabs (Bolt.getNominalTensileStrength M16 - 62329) < 1
  /\ Rabs (Bolt.getDesignTensileStrength M16 - 46747) < 1.
Proof.
  assert (HM16 : Bolt.getNominalTensileStrength M16 = PI * 64e-6 * 310e6).
  { unfold Bolt.getNominalTensileStrength.
    rewrite M16_ungrouped, M16_area. reflexivity. }
  pose proof PI_bounds as [Hlo Hhi].
  split; [|split; [|split; [|split; [|split; [|split]]]]].
  - intros HA; split.
    + unfold Bolt.getNominalTensileStrength; rewrite Hgroup, HA; reflexivity.
    + unfold Bolt.getNominalShearStrength; rewrite Hgroup, HA; reflexivity.
  - intros HA; split; [|split].
    + unfold Bolt.getNominalTensileStrength; rewrite Hgroup, HA; reflexivity.
    + unfold Bolt.getNominalShearStrength; rewrite Hgroup, HA; reflexivity.
    + unfold Bolt.getNominalShearStrength; rewrite Hgroup, HA; reflexivity.
  - reflexivity.
  - reflexivity.
  - rewrite M16_area. apply Rabs_def1; lra.
  - rewrite HM16. apply Rabs_def1; lra.
  - unfold Bolt.getDesignTensileStrength. rewrite HM16. apply Rabs_def1; lra.
Qed.

Lemma ungrouped_bolt_strength_witness :
  Bolt.getGroup M16 = None /\
  Bolt.getNominalTensileStrength M16 = Bolt.getArea M16 * 310e6.
Proof.
  split; [reflexivity|].
  apply (ungrouped_bolt_strength M16 false); reflexivity.
Defined.

(** ** Interpolated tables *)

(** Evaluation of the bounds checks and of the segment search of
    [interp1d] at an abscissa related to the table by linear facts. *)
Ltac interp_eval :=
  unfold fTabJ3_4M, fStandardHoleDia, fOversizeHoleDia, interp1d,
    bf_diams, tabJ3_4M, standardHoleDia, oversizeHoleDia;
  cbn [removelast hd last combine interp_linear];
  repeat match goal with
  | |- context [Rlt_dec ?a ?b] => destruct (Rlt_dec a b); try lra
  | |- context [Rle_dec ?a ?b] => destruct (Rle_dec a b); try lra
  | |- context [Rge_dec ?a ?b] => destruct (Rge_dec a b); try lra
  end.

Lemma interp1d_below xs ys x : x < hd 0 xs -> interp1d xs ys x = raise ValueError.
Proof.
  intros H; unfold interp1d; destruct (Rlt_dec x (hd 0 xs)); [reflexivity|lra].
Qed.

Lemma interp1d_above xs ys x :
  hd 0 xs <= x -> last xs 0 < x -> interp1d xs ys x = raise ValueError.
Proof.
  intros H1 H2; unfold interp1d.
  destruct (Rlt_dec x (hd 0 xs)); [lra|].
  destruct (Rlt_dec (last xs 0) x); [reflexivity|lra].
Qed.

Lemma interp1d_inside xs ys x :
  hd 0 xs <= x <= last xs 0 ->
  interp1d xs ys x = ret (interp_linear (combine xs ys) x).
Proof.
  intros [H1 H2]; unfold interp1d.
  destruct (Rlt_dec x (hd 0 xs)); [lra|].
  destruct (Rlt_dec (last xs 0) x); [lra|reflexivity].
Qed.

Lemma hole_M36 : Bolt.getNominalHoleDiameter M36 false = ret (36e-3 + 3e-3).
Proof.
  unfold Bolt.getNominalHoleDiameter; simpl.
  destruct (Rge_dec 36e-3 36e-3); [reflexivity|lra].
Qed.

Lemma hole_M30 :
  exists h, Bolt.getNominalHoleDiameter M30 false = ret h /\ h = 33e-3.
Proof.
  unfold Bolt.getNominalHoleDiameter; simpl.
  destruct (Rge_dec 30e-3 36e-3); [lra|].
  eexists; split; [interp_eval; reflexivity|lra].
Qed.

Lemma hole_M27 :
  exists h, Bolt.getNominalHoleDiameter M27 false = ret h /\ h = 30e-3.
Proof.
  unfold Bolt.getNominalHoleDiameter; simpl.
  destruct (Rge_dec 27e-3 36e-3); [lra|].
  eexists; split; [interp_eval; reflexivity|lra].
Qed.

Lemma hole_M24 :
  exists h, Bolt.getNominalHoleDiameter M24 false = ret h /\ h = 27e-3.
Proof.
  unfold Bolt.getNominalHoleDiameter; simpl.
  destruct (Rge_dec 24e-3 36e-3); [lra|].
  eexists; split; [interp_eval; reflexivity|lra].
Qed.

Lemma hole_M22 :
  exists h, Bolt.getNominalHoleDiameter M22 false = ret h /\ h = 24e-3.
Proof.
  unfold Bolt.getNominalHoleDiameter; simpl.
  destruct (Rge_dec 22e-3 36e-3); [lra|].
  eexists; split; [interp_eval; reflexivity|lra].
Qed.

Lemma hole_M20 :
  exists h, Bolt.getNominalHoleDiameter M20 false = ret h /\ h = 22e-3.
Proof.
  unfold Bolt.getNominalHoleDiameter; simpl.
  destruct (Rge_dec 20e-3 36e-3); [lra|].
  eexists; split; [interp_eval; reflexivity|lra].
Qed.

Lemma hole_M16 :
  exists h, Bolt.getNominalHoleDiameter M16 false = ret h /\ h = 18e-3.
Proof.
  unfold Bolt.getNominalHoleDiameter; simpl.
  destruct (Rge_dec 16e-3 36e-3); [lra|].
  eexists; split; [interp_eval; reflexivity|lra].
Qed.

(** ** Choice of the bolt for a hole *)

Ltac hole_step H :=
  let h := fresh "h" in
  let Hh := fresh "Hh" in
  let Hv := fresh "Hv" in
  destruct H as (h & Hh & Hv);
  cbn [getBoltForHole_loop]; rewrite Hh, bind_ret_l.

Ltac no_fit :=
  match goal with
  | Hf : fits _ _ |- _ =>
      let h := fresh "h" in
      let Hh := fresh "Hh" in
      let Hlt := fresh "Hlt" in
      destruct Hf as (h & Hh & Hlt);
      match type of Hh with
      | value ?c = _ =>
          match goal with
          | Heq : c = ret _ |- _ =>
              rewrite Heq in Hh; cbn in Hh; injection Hh as <-; lra
          end
      end
  end.

(** C7. [getBoltForHole] returns, without failing, the largest standard
    bolt (M16 to M36) whose nominal standard hole diameter is strictly
    below [holeDiameter + tol]: the bolt returned is a standard one that
    fits, and no standard bolt that fits has a larger diameter; when no
    standard bolt fits, the value returned is [None].  The scan goes
    from the largest size to the smallest. *)
Theorem getBoltForHole_largest (holeDiameter tol : R) :
  rev standardBolts = [M36; M30; M27; M24; M22; M20; M16] /\
  exists r, getBoltForHole holeDiameter tol = ret r /\
    match r with
    | Some b =>
        In b standardBolts /\ fits b (holeDiameter + tol) /\
        forall b', In b' standardBolts -> fits b' (holeDiameter + tol) ->
                   diameter b' <= diameter b
    | None =>
        forall b', In b' standardBolts -> ~ fits b' (holeDiameter + tol)
    end.
Proof.
  split; [reflexivity|].
  unfold getBoltForHole.
  set (t := holeDiameter + tol).
  change (rev standardBolts) with [M36; M30; M27; M24; M22; M20; M16].
  pose proof hole_M36 as H36.
  destruct hole_M30 as (h30 & H30 & V30).
  destruct hole_M27 as (h27 & H27 & V27).
  destruct hole_M24 as (h24 & H24 & V24).
  destruct hole_M22 as (h22 & H22 & V22).
  destruct hole_M20 as (h20 & H20 & V20).
  destruct hole_M16 as (h16 & H16 & V16).
  assert (Hfit : forall b h, Bolt.getNominalHoleDiameter b false = ret h ->
                 h < t -> fits b t).
  { intros b h Hb Hlt; exists h; rewrite Hb; split; [reflexivity|exact Hlt]. }
  cbn [getBoltForHole_loop].
  rewrite H36, bind_ret_l.
  destruct (Rlt_dec (36e-3 + 3e-3) t) as [L36|N36].
  { eexists; split; [reflexivity|]. cbn [In standardBolts].
    split; [tauto|]. split; [eauto|].
    intros b' Hin _.
    repeat (destruct Hin as [<-|Hin]; [simpl; lra|]); destruct Hin. }
  rewrite H30, bind_ret_l.
  destruct (Rlt_dec h30 t) as [L30|N30].
  { eexists; split; [reflexivity|]. cbn [In standardBolts].
    split; [tauto|]. split; [eauto|].
    intros b' Hin Hf.
    repeat (destruct Hin as [<-|Hin]; [first [simpl; lra | no_fit]|]); destruct Hin. }
  rewrite H27, bind_ret_l.
  destruct (Rlt_dec h27 t) as [L27|N27].
  { eexists; split; [reflexivity|]. cbn [In standardBolts].
    split; [tauto|]. split; [eauto|].
    intros b' Hin Hf.
    repeat (destruct Hin as [<-|Hin]; [first [simpl; lra | no_fit]|]); destruct Hin. }
  rewrite H24, bind_ret_l.
  destruct (Rlt_dec h24 t) as [L24|N24].
  { eexists; split; [reflexivity|]. cbn [In standardBolts].
    split; [tauto|]. split; [eauto|].
    intros b' Hin Hf.
    repeat (destruct Hin as [<-|Hin]; [first [simpl; lra | no_fit]|]); destruct Hin. }
  rewrite H22, bind_ret_l.
  destruct (Rlt_dec h22 t) as [L22|N22].
  { eexists; split; [reflexivity|]. cbn [In standardBolts].
    split; [tauto|]. split; [eauto|].
    intros b' Hin Hf.
    repeat (destruct Hin as [<-|Hin]; [first [simpl; lra | no_fit]|]); destruct Hin. }
  rewrite H20, bind_ret_l.
  destruct (Rlt_dec h20 t) as [L20|N20].
  { eexists; split; [reflexivity|]. cbn [In standardBolts].
    split; [tauto|]. split; [eauto|].
    intros b' Hin Hf.
    repeat (destruct Hin as [<-|Hin]; [first [simpl; lra | no_fit]|]); destruct Hin. }
  rewrite H16, bind_ret_l.
  destruct (Rlt_dec h16 t) as [L16|N16].
  { eexists; split; [reflexivity|]. cbn [In standardBolts].
    split; [tauto|]. split; [eauto|].
    intros b' Hin Hf.
    repeat (destruct Hin as [<-|Hin]; [first [simpl; lra | no_fit]|]); destruct Hin. }
  exists None; split; [reflexivity|].
  intros b' Hin Hf. cbn [In standardBolts] in Hin.
  repeat (destruct Hin as [<-|Hin]; [no_fit|]); destruct Hin.
Qed.

(** ** Diameters outside the tables *)

(** The claim C5 fails for a 10 mm bolt: both look-ups raise the
    [ValueError] of the interpolator instead of returning a value. *)
Lemma out_of_table_raises :
  value (Bolt.getMinimumEdgeDistanceJ3_4M (BoltFastener_init 10e-3))
    = Raise ValueError
  /\ value (Bolt.getNominalHoleDiameter (BoltFastener_init 10e-3) false)
    = Raise ValueError
  /\ ~ returns (Bolt.getNominalHoleDiameter (BoltFastener_init 10e-3) true)
  /\ ~ returns (Bolt.getNominalHoleDiameter (BoltFastener_init 33e-3) false).
Proof.
  unfold Bolt.getMinimumEdgeDistanceJ3_4M, Bolt.getNominalHoleDiameter, returns.
  cbn [diameter BoltFastener_init].
  destruct (Rle_dec 10e-3 36e-3); [|lra].
  destruct (Rge_dec 10e-3 36e-3); [lra|].
  destruct (Rge_dec 33e-3 36e-3); [lra|].
  unfold fTabJ3_4M, fStandardHoleDia, fOversizeHoleDia.
  rewrite !interp1d_below by (simpl; lra).
  rewrite interp1d_above by (simpl; lra).
  repeat split; try reflexivity; intros [a Ha]; discriminate Ha.
Qed.

(** C5, amended. Below 16 mm both look-ups raise [ValueError]; strictly
    between 30 mm and 36 mm the hole diameter (standard or oversized)
    raises [ValueError] while the edge distance is interpolated; from
    16 mm to 30 mm all of them return the interpolated value; from 36 mm
    on the hole diameter is the diameter plus 3 mm (standard) or plus
    8 mm (oversized), and above 36 mm the edge distance is 1.25 times
    the diameter. *)
Theorem out_of_table_behaviour (b : BoltFastener) (oversized : bool) :
  (diameter b < 16e-3 ->
     Bolt.getMinimumEdgeDistanceJ3_4M b = raise ValueError /\
     Bolt.getNominalHoleDiameter b oversized = raise ValueError)
  /\ (30e-3 < diameter b < 36e-3 ->
     Bolt.getNominalHoleDiameter b oversized = raise ValueError /\
     Bolt.getMinimumEdgeDistanceJ3_4M b
       = ret (interp_linear (combine bf_diams tabJ3_4M) (diameter b)))
  /\ (16e-3 <= diameter b <= 30e-3 ->
     Bolt.getMinimumEdgeDistanceJ3_4M b
       = ret (interp_linear (combine bf_diams tabJ3_4M) (diameter b)) /\
     Bolt.getNominalHoleDiameter b oversized
       = ret (interp_linear
                (combine (removelast bf_diams)
                   (if oversized then oversizeHoleDia else standardHoleDia))
                (diameter b)))
  /\ (36e-3 <= diameter b ->
     Bolt.getNominalHoleDiameter b oversized
       = ret (diameter b + (if oversized then 8e-3 else 3e-3)))
  /\ (36e-3 < diameter b ->
     Bolt.getMinimumEdgeDistanceJ3_4M b = ret (1.25 * diameter b)).
Proof.
  unfold Bolt.getMinimumEdgeDistanceJ3_4M, Bolt.getNominalHoleDiameter.
  unfold fTabJ3_4M, fStandardHoleDia, fOversizeHoleDia.
  split; [|split; [|split; [|split]]]; intros Hd.
  - destruct (Rle_dec (diameter b) 36e-3); [|lra].
    destruct (Rge_dec (diameter b) 36e-3); [lra|].
    split; [|destruct oversized]; apply interp1d_below; simpl; lra.
  - destruct (Rle_dec (diameter b) 36e-3); [|lra].
    destruct (Rge_dec (diameter b) 36e-3); [lra|].
    split.
    + destruct oversized; apply interp1d_above; simpl; lra.
    + apply interp1d_inside; simpl; lra.
  - destruct (Rle_dec (diameter b) 36e-3); [|lra].
    destruct (Rge_dec (diameter b) 36e-3); [lra|].
    split; [|destruct oversized]; apply interp1d_inside; simpl; lra.
  - destruct (Rge_dec (diameter b) 36e-3); [|lra].
    destruct oversized; reflexivity.
  - destruct (Rle_dec (diameter b) 36e-3); [lra|reflexivity].
Qed.

Lemma out_of_table_behaviour_witness :
  diameter (BoltFastener_init 10e-3) < 16e-3 /\
  Bolt.getNominalHoleDiameter (BoltFastener_init 10e-3) false = raise ValueError.
Proof.
  assert (H : diameter (BoltFastener_init 10e-3) < 16e-3) by (simpl; lra).
  split; [exact H|].
  exact (proj2 (proj1 (out_of_table_behaviour (BoltFastener_init 10e-3) false) H)).
Defined.

(** ** Critical stress *)

Lemma value_ret {A} (a : A) : value (ret a) = Return a.
Proof. reflexivity. Qed.

Lemma value_raise {A} e : value (@raise A e) = Raise e.
Proof. reflexivity. Qed.

Lemma value_bind_inv {A B} (c : M A) (k : A -> M B) b :
  value (bind c k) = Return b ->
  exists a, value c = Return a /\ value (k a) = Return b.
Proof.
  destruct c as [l [e|a]]; simpl; [discriminate|].
  intros H; exists a; split; [reflexivity|].
  destruct (k a); exact H.
Qed.

Lemma getFlexuralSlendernessRatio_value s Ly Lz :
  Shape.get_iy s <> 0 -> Shape.get_iz s <> 0 ->
  value (Shape.getFlexuralSlendernessRatio s Ly Lz)
    = Return (pymax (Lz / Shape.get_iz s) (Ly / Shape.get_iy s)).
Proof.
  intros Hy Hz; unfold Shape.getFlexuralSlendernessRatio.
  rewrite (pydiv_ok _ _ Hy), (pydiv_ok _ _ Hz).
  destruct (Rlt_dec 1.01 (Shape.slendernessCheck s)); reflexivity.
Qed.

(** Both formulas of the rule, once the quantities they use are there. *)
Lemma two_regime_code sr E Fy Fe :
  0 < Fy -> Fe <> 0 -> 0 <= E ->
  value (Fratio <- pydiv Fy Fe ;;
         q <- pydiv E Fy ;;
         root <- math_sqrt q ;;
         let thresholdA := 4.71 * root in
         if orb (if Rle_dec sr thresholdA then true else false)
                (if Rle_dec Fratio 2.25 then true else false) then
           p <- math_pow 0.658 Fratio ;; ret (p * Fy)
         else ret (0.877 * Fe))
  = Return (spec_two_regime sr E Fy Fe).
Proof.
  intros HFy HFe HE.
  assert (Hq : 0 <= E / Fy).
  { apply Rmult_le_pos; [exact HE|]. left; apply Rinv_0_lt_compat; exact HFy. }
  rewrite (pydiv_ok Fy Fe HFe), bind_ret_l.
  rewrite (pydiv_ok E Fy) by lra. rewrite bind_ret_l.
  rewrite (math_sqrt_ok _ Hq), bind_ret_l.
  cbv zeta. unfold spec_two_regime.
  rewrite (math_pow_pos 0.658 (Fy / Fe)) by lra. rewrite bind_ret_l.
  destruct (Rle_dec sr (4.71 * sqrt (E / Fy))); simpl; [reflexivity|].
  destruct (Rle_dec (Fy / Fe) 2.25); reflexivity.
Qed.
Lemma spec_two_regime_or sr E Fy Fe :
  (sr <= 4.71 * sqrt (E / Fy) \/ Fy / Fe <= 2.25 ->
     spec_two_regime sr E Fy Fe = Rpower 0.658 (Fy / Fe) * Fy)
  /\ (~ (sr <= 4.71 * sqrt (E / Fy) \/ Fy / Fe <= 2.25) ->
     spec_two_regime sr E Fy Fe = 0.877 * Fe).
Proof.
  unfold spec_two_regime.
  destruct (Rle_dec sr (4.71 * sqrt (E / Fy))), (Rle_dec (Fy / Fe) 2.25);
    split; intros H; try reflexivity; tauto.
Qed.

Lemma getCriticalStressE_value s Ly Lz c Fe :
  classif_ltb c slender = true -> Fe <> 0 -> shape_wf s ->
  value (Shape.getCriticalStressE s Ly Lz c Fe)
    = Return (spec_two_regime
                (pymax (Lz / Shape.get_iz s) (Ly / Shape.get_iy s))
                (Shape.get_E s) (fy (Shape.steelType s)) Fe).
Proof.
  intros Hc HFe (Hy & Hz & HFy & HE).
  unfold Shape.getCriticalStressE. rewrite Hc.
  rewrite (value_bind_return _ _ _ (getFlexuralSlendernessRatio_value s Ly Lz Hy Hz)).
  apply two_regime_code; assumption.
Qed.

Lemma getSlendernessRatio_ret {BB : BucklingBase} m :
  pymin (Shape.get_iy (Member.shape m)) (Shape.get_iz (Member.shape m)) <> 0 ->
  Member.getSlendernessRatio m
    = ret (Member.getEffectiveLength m /
           pymin (Shape.get_iy (Member.shape m)) (Shape.get_iz (Member.shape m))).
Proof. intros H; unfold Member.getSlendernessRatio; apply pydiv_ok; exact H. Qed.

Lemma getCriticalStress_value {BB : BucklingBase} m :
  member_wf m ->
  let st := Shape.steelType (Member.shape m) in
  let r := Member.getEffectiveLength m /
           pymin (Shape.get_iy (Member.shape m)) (Shape.get_iz (Member.shape m)) in
  Member.getElasticBucklingStress m = ret (PI ^ 2 * E st / r ^ 2) /\
  Member.getCriticalStress m
    = ret (spec_two_regime r (E st) (fy st) (PI ^ 2 * E st / r ^ 2)).
Proof.
  intros (HL & Hr & Hfy & HE) st r.
  change (0 < fy st) in Hfy. change (0 < E st) in HE.
  assert (Hr0 : r <> 0).
  { unfold r, Rdiv. apply Rmult_integral_contrapositive_currified;
      [exact HL | apply Rinv_neq_0_compat; exact Hr]. }
  assert (Hr2 : r ^ 2 <> 0) by (apply pow_nonzero; exact Hr0).
  assert (HFe0 : 0 < PI ^ 2 * E st / r ^ 2).
  { apply Rmult_lt_0_compat.
    - apply Rmult_lt_0_compat; [|exact HE].
      apply pow_lt, PI_RGT_0.
    - apply Rinv_0_lt_compat.
      pose proof (pow2_ge_0 r) as Hp. lra. }
  assert (HFe : Member.getElasticBucklingStress m = ret (PI ^ 2 * E st / r ^ 2)).
  { unfold Member.getElasticBucklingStress.
    rewrite (getSlendernessRatio_ret m Hr), bind_ret_l.
    fold r st. unfold math_pi. apply pydiv_ok; exact Hr2. }
  split; [exact HFe|].
  unfold Member.getCriticalStress. fold st.
  assert (Hq : 0 <= E st / fy st).
  { apply Rmult_le_pos; [lra|]. left; apply Rinv_0_lt_compat; exact Hfy. }
  rewrite (pydiv_ok (E st) (fy st)) by lra. rewrite bind_ret_l.
  rewrite (math_sqrt_ok _ Hq), bind_ret_l.
  rewrite (getSlendernessRatio_ret m Hr), bind_ret_l.
  rewrite HFe, bind_ret_l. fold r.
  rewrite (pydiv_ok (fy st) (PI ^ 2 * E st / r ^ 2)) by lra.
  rewrite bind_ret_l. cbv zeta. unfold spec_two_regime.
  rewrite (math_pow_pos 0.658) by lra. rewrite bind_ret_l.
  destruct (Rle_dec r (4.71 * sqrt (E st / fy st))); cbn [orb]; [reflexivity|].
  destruct (Rle_dec (fy st / (PI ^ 2 * E st / r ^ 2)) 2.25); reflexivity.
Qed.
(** C1. For a compact or noncompact section, any two effective lengths
    and an elastic buckling stress [Fe > 0], [getCriticalStressE]
    returns [0.658^(Fy/Fe) * Fy] when the flexural slenderness ratio is
    at most [4.71 sqrt(E/Fy)] or [Fy/Fe] is at most 2.25 (either one
    suffices), and [0.877 * Fe] when neither holds.
    [ConnectedMember.getCriticalStress] follows the same rule with the
    slenderness ratio of the member, its effective length over the
    smaller of the two radii of gyration, and with its own elastic
    buckling stress.  The shape and the member are taken with non-zero
    radii of gyration and effective length and with positive steel
    constants, without which the divisions of the code fail. *)
Theorem critical_stress_two_regime {BB : BucklingBase}
    (s : Shape.ASTMShape) (Ly Lz Fe : R) (c : SectionClassif)
    (m : Member.ConnectedMember)
    (Hc : c = compact \/ c = noncompact) (HFe : 0 < Fe)
    (Hs : shape_wf s) (Hm : member_wf m) :
  (let sr := pymax (Lz / Shape.get_iz s) (Ly / Shape.get_iy s) in
   let E := Shape.get_E s in
   let Fy := fy (Shape.steelType s) in
   (sr <= 4.71 * sqrt (E / Fy) \/ Fy / Fe <= 2.25 ->
      value (Shape.getCriticalStressE s Ly Lz c Fe)
        = Return (Rpower 0.658 (Fy / Fe) * Fy)) /\
   (~ (sr <= 4.71 * sqrt (E / Fy) \/ Fy / Fe <= 2.25) ->
      value (Shape.getCriticalStressE s Ly Lz c Fe) = Return (0.877 * Fe)))
  /\
  (let st := Shape.steelType (Member.shape m) in
   let r := Member.getEffectiveLength m /
            pymin (Shape.get_iy (Member.shape m)) (Shape.get_iz (Member.shape m)) in
   let Fe' := PI ^ 2 * E st / r ^ 2 in
   value (Member.getSlendernessRatio m) = Return r /\
   value (Member.getElasticBucklingStress m) = Return Fe' /\
   (r <= 4.71 * sqrt (E st / fy st) \/ fy st / Fe' <= 2.25 ->
      value (Member.getCriticalStress m)
        = Return (Rpower 0.658 (fy st / Fe') * fy st)) /\
   (~ (r <= 4.71 * sqrt (E st / fy st) \/ fy st / Fe' <= 2.25) ->
      value (Member.getCriticalStress m) = Return (0.877 * Fe'))).
Proof.
  split.
  - intros sr E Fy.
    assert (Hlt : classif_ltb c slender = true)
      by (destruct Hc as [-> | ->]; reflexivity).
    assert (HFe0 : Fe <> 0) by lra.
    pose proof (getCriticalStressE_value s Ly Lz c Fe Hlt HFe0 Hs) as Hv.
    fold sr E Fy in Hv.
    destruct (spec_two_regime_or sr E Fy Fe) as [Hin Hel].
    split; intros H; rewrite Hv; f_equal; auto.
  - intros st r Fe'.
    destruct (getCriticalStress_value m Hm) as [HFe' Hcr].
    fold st r Fe' in HFe', Hcr.
    destruct Hm as (_ & Hr & _ & _).
    destruct (spec_two_regime_or r (E st) (fy st) Fe') as [Hin Hel].
    split; [rewrite (getSlendernessRatio_ret m Hr); reflexivity|].
    split; [rewrite HFe'; reflexivity|].
    split; intros H; rewrite Hcr; cbn [value snd ret]; f_equal; auto.
Qed.

Lemma W310X97_wf : shape_wf W310X97.
Proof. unfold shape_wf; simpl; lra. Qed.

Lemma column4m_wf : @member_wf PinnedK column4m.
Proof.
  unfold member_wf, Member.getEffectiveLength, pymin; simpl.
  destruct (Rlt_dec 134e-3 76.9e-3); lra.
Qed.

Lemma critical_stress_two_regime_witness :
  value (Shape.getCriticalStressE W310X97 4 4 compact 200e6)
    = Return (Rpower 0.658 (345e6 / 200e6) * 345e6).
Proof.
  assert (HFe : 0 < 200e6) by lra.
  refine (proj1 (proj1 (@critical_stress_two_regime PinnedK W310X97 4 4 200e6
            compact column4m (or_introl eq_refl) HFe W310X97_wf column4m_wf)) _).
  right; simpl; lra.
Defined.

(** ** Slender sections *)

(** The claim C4 fails on a slender W310X97: the value returned is the
    number 0.0, the initial value of [retval], not a missing value. *)
Lemma slender_returns_zero :
  Shape.getCriticalStressE W310X97 4 4 slender 200e6
    = ([Error "Critical stress of slender members not implemented yet."],
       Return 0.0)
  /\ exists x : R, value (Shape.getCriticalStressE W310X97 4 4 slender 200e6)
                   = Return x.
Proof. split; [reflexivity|exists 0.0; reflexivity]. Qed.

(** C4, amended. For a slender or too-slender section,
    [getCriticalStressE] logs the error "Critical stress of slender
    members not implemented yet." and returns the number 0.0; it neither
    halts nor computes anything from its other arguments. *)
Theorem slender_critical_stress (s : Shape.ASTMShape) (Ly Lz Fe : R)
    (c : SectionClassif) (Hc : c = slender \/ c = too_slender) :
  Shape.getCriticalStressE s Ly Lz c Fe
    = ([Error "Critical stress of slender members not implemented yet."],
       Return 0.0).
Proof. destruct Hc as [-> | ->]; reflexivity. Qed.

Lemma slender_critical_stress_witness :
  Shape.getCriticalStressE W310X97 4 4 too_slender 200e6
    = ([Error "Critical stress of slender members not implemented yet."],
       Return 0.0).
Proof.
  exact (slender_critical_stress W310X97 4 4 200e6 too_slender
           (or_intror eq_refl)).
Defined.

(** ** Combined forces *)

Lemma getCapacityFactor_not_None {BB : BucklingBase} m Nd Myd Mzd gammaC bsY bsZ ratio :
  Nd <= 0 ->
  value (Member.getCapacityFactor m Nd Myd Mzd gammaC bsY bsZ ratio) <> Return None.
Proof.
  intros HNd H. unfold Member.getCapacityFactor in H.
  destruct (Rle_dec Nd 0.0) as [_|Hn]; [|lra].
  repeat (apply value_bind_inv in H; destruct H as (? & _ & H)).
  discriminate H.
Qed.

Lemma getCapacityFactor_compression {BB : BucklingBase} m Nd Myd Mzd gammaC
    bsY bsZ ratio Fcr Mz My :
  Nd <= 0 ->
  value (Member.getCriticalStress m) = Return Fcr ->
  value (Member.getZNominalFlexuralStrength m bsZ ratio) = Return Mz ->
  value (Member.getYNominalFlexuralStrength m bsY) = Return My ->
  gammaC <> 0 -> Shape.getEffectiveArea (Member.shape m) * Fcr <> 0 ->
  Mz <> 0 -> My <> 0 ->
  value (Member.getCapacityFactor m Nd Myd Mzd gammaC bsY bsZ ratio)
    = Return (Some (Shape.H1
        (Rabs Nd / (Shape.getEffectiveArea (Member.shape m) * Fcr / gammaC))
        (Rabs Mzd / (Mz / gammaC) + Rabs Myd / (My / gammaC)))).
Proof.
  intros HNd HFcr HMz HMy Hg HP HMz0 HMy0.
  assert (Hdiv : forall x, x <> 0 -> x / gammaC <> 0).
  { intros x Hx; unfold Rdiv.
    apply Rmult_integral_contrapositive_currified;
      [exact Hx | apply Rinv_neq_0_compat; exact Hg]. }
  unfold Member.getCapacityFactor.
  destruct (Rle_dec Nd 0.0) as [_|Hn]; [|lra].
  assert (HPn : value (Member.getNominalCompressiveStrength m)
                = Return (Shape.getEffectiveArea (Member.shape m) * Fcr)).
  { unfold Member.getNominalCompressiveStrength.
    rewrite (value_bind_return _ _ _ HFcr); reflexivity. }
  rewrite (value_bind_return _ _ _ HPn).
  rewrite (pydiv_ok _ _ Hg), bind_ret_l.
  rewrite (value_bind_return _ _ _ HMz).
  rewrite (pydiv_ok _ _ Hg), bind_ret_l.
  rewrite (value_bind_return _ _ _ HMy).
  rewrite (pydiv_ok _ _ Hg), bind_ret_l.
  rewrite (pydiv_ok _ _ (Hdiv _ HP)), bind_ret_l.
  rewrite (pydiv_ok _ _ (Hdiv _ HMz0)), bind_ret_l.
  rewrite (pydiv_ok _ _ (Hdiv _ HMy0)), bind_ret_l.
  reflexivity.
Qed.

Lemma getBiaxialBendingEfficiency_tension s c Nd Myd Mzd Vyd chiN chiLT My Mz :
  0 <= Nd ->
  value (Shape.getDesignFlexuralStrength s None None false) = Return My ->
  value (Shape.getReferenceFlexuralStrength s) = Return Mz ->
  Shape.getDesignTensileStrength s None <> 0 ->
  chiLT * Mz <> 0 -> My <> 0 ->
  value (Shape.getBiaxialBendingEfficiency s c Nd Myd Mzd Vyd chiN chiLT)
    = Return (Shape.H1 (Nd / Shape.getDesignTensileStrength s None)
                (Rabs Mzd / (chiLT * Mz) + Rabs Myd / My),
              Shape.getDesignTensileStrength s None, My, Mz, Mz, chiLT * Mz).
Proof.
  intros HNd HMy HMz HT HMz0 HMy0.
  unfold Shape.getBiaxialBendingEfficiency.
  destruct (Rlt_dec Nd 0) as [Hn|_]; [lra|].
  rewrite (pydiv_ok _ _ HT), !bind_ret_l.
  rewrite (value_bind_return _ _ _ HMy).
  rewrite (value_bind_return _ _ _ HMz).
  cbv zeta.
  rewrite (pydiv_ok _ _ HMz0), bind_ret_l.
  rewrite (pydiv_ok _ _ HMy0), bind_ret_l.
  reflexivity.
Qed.

Lemma H1_equations ratioN Msum :
  (0.2 <= ratioN -> Shape.H1 ratioN Msum = ratioN + 8 / 9 * Msum)
  /\ (ratioN < 0.2 -> Shape.H1 ratioN Msum = ratioN / 2 + Msum).
Proof.
  unfold Shape.H1.
  destruct (Rge_dec ratioN 0.2); split; intros H; try lra.
Qed.

(** C9. [ConnectedMember.getCapacityFactor] computes the interaction
    ratio of section H1 only for a design axial load [Nd <= 0], zero
    included: there its value is never [None], and whenever the
    member-level strengths are computed and non-zero it is, for the
    axial ratio [ratioN = |Nd| / Pn] and the sum of the two moment
    ratios [Msum], [ratioN + 8/9 Msum] when [ratioN >= 0.2] and
    [ratioN / 2 + Msum] otherwise.  For every [Nd > 0] it logs
    "Capacity factor not implemented for tension." and returns [None].
    The shape-level [getBiaxialBendingEfficiency] handles every
    [Nd >= 0]: its axial ratio is [Nd] over the design tensile strength,
    combined with the moment ratios by the same two equations. *)
Theorem capacity_factor_tension {BB : BucklingBase}
    (m : Member.ConnectedMember) (Nd Myd Mzd gammaC : R)
    (bsY bsZ : BendingState) (AfgAfnRatio : R)
    (s : Shape.ASTMShape) (c : SectionClassif) (Vyd chiN chiLT : R) :
  (0 < Nd ->
     Member.getCapacityFactor m Nd Myd Mzd gammaC bsY bsZ AfgAfnRatio
       = ([Error "Capacity factor not implemented for tension."], Return None))
  /\ (forall cf,
        value (Member.getCapacityFactor m Nd Myd Mzd gammaC bsY bsZ AfgAfnRatio)
          = Return (Some cf) -> Nd <= 0)
  /\ (Nd <= 0 ->
        value (Member.getCapacityFactor m Nd Myd Mzd gammaC bsY bsZ AfgAfnRatio)
          <> Return None /\
        forall Fcr Mz My,
          value (Member.getCriticalStress m) = Return Fcr ->
          value (Member.getZNominalFlexuralStrength m bsZ AfgAfnRatio) = Return Mz ->
          value (Member.getYNominalFlexuralStrength m bsY) = Return My ->
          gammaC <> 0 -> Shape.getEffectiveArea (Member.shape m) * Fcr <> 0 ->
          Mz <> 0 -> My <> 0 ->
          let ratioN :=
            Rabs Nd / (Shape.getEffectiveArea (Member.shape m) * Fcr / gammaC) in
          let Msum := Rabs Mzd / (Mz / gammaC) + Rabs Myd / (My / gammaC) in
          (0.2 <= ratioN ->
             value (Member.getCapacityFactor m Nd Myd Mzd gammaC bsY bsZ
                      AfgAfnRatio)
               = Return (Some (ratioN + 8 / 9 * Msum))) /\
          (ratioN < 0.2 ->
             value (Member.getCapacityFactor m Nd Myd Mzd gammaC bsY bsZ
                      AfgAfnRatio)
               = Return (Some (ratioN / 2 + Msum))))
  /\ (0 <= Nd ->
        forall My Mz,
          value (Shape.getDesignFlexuralStrength s None None false) = Return My ->
          value (Shape.getReferenceFlexuralStrength s) = Return Mz ->
          Shape.getDesignTensileStrength s None <> 0 ->
          chiLT * Mz <> 0 -> My <> 0 ->
          let T := Shape.getDesignTensileStrength s None in
          let ratioN := Nd / T in
          let Msum := Rabs Mzd / (chiLT * Mz) + Rabs Myd / My in
          (0.2 <= ratioN ->
             value (Shape.getBiaxialBendingEfficiency s c Nd Myd Mzd Vyd chiN chiLT)
               = Return (ratioN + 8 / 9 * Msum, T, My, Mz, Mz, chiLT * Mz)) /\
          (ratioN < 0.2 ->
             value (Shape.getBiaxialBendingEfficiency s c Nd Myd Mzd Vyd chiN chiLT)
               = Return (ratioN / 2 + Msum, T, My, Mz, Mz, chiLT * Mz))).
Proof.
  split; [|split; [|split]].
  - intros HNd. unfold Member.getCapacityFactor.
    destruct (Rle_dec Nd 0.0); [lra|reflexivity].
  - intros cf H. destruct (Rle_dec Nd 0) as [Hle|Hgt]; [exact Hle|exfalso].
    unfold Member.getCapacityFactor in H.
    destruct (Rle_dec Nd 0.0); [lra|discriminate H].
  - intros HNd; split.
    + apply getCapacityFactor_not_None; exact HNd.
    + intros Fcr Mz My HFcr HMz HMy Hg HP HMz0 HMy0 ratioN Msum.
      rewrite (getCapacityFactor_compression m Nd Myd Mzd gammaC bsY bsZ
                 AfgAfnRatio Fcr Mz My HNd HFcr HMz HMy Hg HP HMz0 HMy0).
      fold ratioN Msum.
      destruct (H1_equations ratioN Msum) as [Ha Hb].
      split; intros Hr; [rewrite (Ha Hr)|rewrite (Hb Hr)]; reflexivity.
  - intros HNd My Mz HMy HMz HT HMz0 HMy0 T ratioN Msum.
    rewrite (getBiaxialBendingEfficiency_tension s c Nd Myd Mzd Vyd chiN chiLT
               My Mz HNd HMy HMz HT HMz0 HMy0).
    fold T ratioN Msum.
    destruct (H1_equations ratioN Msum) as [Ha Hb].
    split; intros Hr; [rewrite (Ha Hr)|rewrite (Hb Hr)]; reflexivity.
Qed.

Lemma spec_two_regime_pos sr E Fy Fe :
  0 < Fy -> 0 < Fe -> 0 < spec_two_regime sr E Fy Fe.
Proof.
  intros HFy HFe; unfold spec_two_regime.
  assert (Hp : 0 < Rpower 0.658 (Fy / Fe) * Fy).
  { apply Rmult_lt_0_compat; [apply exp_pos|exact HFy]. }
  destruct (Rle_dec sr (4.71 * sqrt (E / Fy))); [exact Hp|].
  destruct (Rle_dec (Fy / Fe) 2.25); [exact Hp|lra].
Qed.

Lemma column4m_flexural (majorAxis : bool) :
  let bs := mkBendingState 1 1 1 1 in
  value (if majorAxis
         then @Member.getZNominalFlexuralStrength column4m bs 1
         else @Member.getYNominalFlexuralStrength column4m bs)
    = Return (if majorAxis then 549e3 else 249e3).
Proof.
  intros bs.
  assert (Hcb : MemberConnection_getCb (Member.connection column4m) bs
                = ret (12.5 * 1 / (2.5 * 1 + 3 * 1 + 4 * 1 + 3 * 1))).
  { unfold MemberConnection_getCb, BendingState_getCb; simpl.
    apply pydiv_ok; lra. }
  destruct majorAxis.
  - unfold Member.getZNominalFlexuralStrength.
    rewrite Hcb, bind_ret_l. simpl.
    destruct (Rlt_dec 1.0 1); [lra|reflexivity].
  - unfold Member.getYNominalFlexuralStrength.
    rewrite Hcb, bind_ret_l. reflexivity.
Qed.

Lemma capacity_factor_tension_witness :
  @Member.getCapacityFactor PinnedK column4m 1 0 0 1
      (mkBendingState 1 1 1 1) (mkBendingState 1 1 1 1) 1
    = ([Error "Capacity factor not implemented for tension."], Return None)
  /\ exists cf,
       value (@Member.getCapacityFactor PinnedK column4m 0 0 0 1
                (mkBendingState 1 1 1 1) (mkBendingState 1 1 1 1) 1)
         = Return (Some cf).
Proof.
  pose proof (@capacity_factor_tension PinnedK column4m 1 0 0 1
            (mkBendingState 1 1 1 1) (mkBendingState 1 1 1 1) 1
            W310X97 compact 0 1 1) as [Ht _].
  split; [apply Ht; lra|].
  pose proof (@capacity_factor_tension PinnedK column4m 0 0 0 1
            (mkBendingState 1 1 1 1) (mkBendingState 1 1 1 1) 1
            W310X97 compact 0 1 1) as (_ & _ & Hc & _).
  destruct (Hc (Rle_refl 0)) as [_ Hv].
  destruct (@getCriticalStress_value PinnedK column4m column4m_wf) as [_ Hcr].
  eexists. eapply Hv.
  - rewrite Hcr; reflexivity.
  - exact (column4m_flexural true).
  - exact (column4m_flexural false).
  - lra.
  - apply Rmult_integral_contrapositive_currified; [simpl; lra|].
    apply Rgt_not_eq, spec_two_regime_pos; [simpl; lra|].
    destruct column4m_wf as (HL & Hr & Hfy & HE).
    apply Rmult_lt_0_compat.
    + apply Rmult_lt_0_compat; [apply pow_lt, PI_RGT_0|exact HE].
    + apply Rinv_0_lt_compat.
      match goal with |- 0 < ?r ^ 2 =>
        assert (Hr0 : r <> 0);
        [ unfold Rdiv; apply Rmult_integral_contrapositive_currified;
            [exact HL | apply Rinv_neq_0_compat; exact Hr]
        | pose proof (pow2_ge_0 r); pose proof (pow_nonzero r 2 Hr0); lra ]
      end.
  - lra.
  - lra.
  - rewrite Rabs_R0. unfold Rdiv. rewrite Rmult_0_l. lra.
Defined.

(** ** Anchor groups *)

Section AnchorGroups.
Context {G : Geometry}.

Lemma anchor_cone_set a h_ef :
  Anchor.pos3d a <> None ->
  Anchor.getConcreteBreakoutConePolygon a h_ef = ret (cone_of h_ef a).
Proof.
  unfold Anchor.getConcreteBreakoutConePolygon, cone_of, cone_polygon.
  destruct (Anchor.pos3d a); [reflexivity|intros H; contradiction H; reflexivity].
Qed.

Lemma cones_set l h_ef :
  Forall (fun a => Anchor.pos3d a <> None) l ->
  Group.cones l h_ef = ret (map (cone_of h_ef) l).
Proof.
  induction 1 as [|a l Ha Hl IH]; [reflexivity|].
  cbn [Group.cones map].
  rewrite (anchor_cone_set a h_ef Ha), bind_ret_l, IH, bind_ret_l.
  reflexivity.
Qed.

Lemma group_cone_set g a0 rest h_ef :
  Group.anchors g = a0 :: rest -> Group.positions_set g ->
  Group.getConcreteBreakoutConePolygon g h_ef
    = ret (fold_left unePolygon2d (map (cone_of h_ef) rest) (cone_of h_ef a0)).
Proof.
  intros Hg Hpos. unfold Group.getConcreteBreakoutConePolygon.
  unfold Group.positions_set in Hpos.
  rewrite (cones_set _ h_ef Hpos), bind_ret_l, Hg.
  reflexivity.
Qed.

Lemma cones_nil_value h_ef : Group.cones [] h_ef = ret [].
Proof. reflexivity. Qed.

Lemma depth_law_code h_ef retval :
  0 < h_ef ->
  (let h_ef_in := h_ef / 0.0254 in
   retval' <- (if Rlt_dec h_ef_in 11 then
                 p <- math_pow h_ef_in 1.5 ;; ret (retval * (24 * p))
               else
                 p <- math_pow h_ef_in (5.0 / 3.0) ;; ret (retval * (16 * p))) ;;
   ret (retval' * 4.4482216))
  = ret (retval * spec_depth_law h_ef * 4.4482216).
Proof.
  intros Hh. cbv zeta. unfold spec_depth_law.
  assert (Hin : 0 < h_ef / 0.0254).
  { apply Rmult_lt_0_compat; [exact Hh|apply Rinv_0_lt_compat; lra]. }
  rewrite !(math_pow_pos _ _ Hin), !bind_ret_l.
  replace (5.0 / 3.0) with (5 / 3) by lra.
  destruct (Rlt_dec (h_ef / 0.0254) 11); rewrite bind_ret_l; reflexivity.
Qed.

Lemma breakout_strength_value g a0 rest h_ef fc psi3 phi :
  Group.anchors g = a0 :: rest -> Group.positions_set g ->
  0 < h_ef -> 0 <= fc -> geom.getArea (cone_of h_ef a0) <> 0 ->
  Group.getConcreteBreakoutStrength g h_ef fc psi3 phi
    = ret (phi * psi3 * sqrt (fc * 145.038e-6)
           * geom.getArea (fold_left unePolygon2d (map (cone_of h_ef) rest)
                             (cone_of h_ef a0))
           / geom.getArea (cone_of h_ef a0)
           * spec_depth_law h_ef * 4.4482216).
Proof.
  intros Hg Hpos Hh Hfc HA.
  unfold Group.getConcreteBreakoutStrength.
  rewrite (group_cone_set g a0 rest h_ef Hg Hpos), bind_ret_l.
  rewrite Hg. cbn [Group.first]. rewrite bind_ret_l.
  assert (Ha0 : Anchor.pos3d a0 <> None).
  { unfold Group.positions_set in Hpos. rewrite Hg in Hpos.
    inversion Hpos; assumption. }
  rewrite (anchor_cone_set a0 h_ef Ha0), bind_ret_l.
  cbv zeta.
  rewrite math_sqrt_ok by lra. rewrite bind_ret_l.
  rewrite (pydiv_ok _ _ HA), bind_ret_l.
  apply (depth_law_code h_ef _ Hh).
Qed.

(** C2. For a group whose anchors all have a position, with [a0] the
    first of them, [getConcreteBreakoutStrength] is
    [phi * psi3 * sqrt(fc in psi)] times the ratio of the area of the
    union of all the cones to the area of the cone of [a0], times
    [24 h^1.5] when the depth [h] in inches is below 11 and
    [16 h^(5/3)] otherwise, times the newtons of a pound-force.  For a
    single anchor the ratio is one: the result is the same product
    without it.  The depth is positive and the concrete strength not
    negative, and the cone of [a0] has an area. *)
Theorem breakout_strength_formula
    (g : Group.AnchorGroup) (a0 : Anchor.AnchorBolt)
    (rest : list Anchor.AnchorBolt) (h_ef fc psi3 phi : R)
    (Hg : Group.anchors g = a0 :: rest) (Hpos : Group.positions_set g)
    (Hh : 0 < h_ef) (Hfc : 0 <= fc)
    (HA : geom.getArea (cone_of h_ef a0) <> 0) :
  let AN := geom.getArea (fold_left unePolygon2d (map (cone_of h_ef) rest)
                            (cone_of h_ef a0)) in
  let ANo := geom.getArea (cone_of h_ef a0) in
  Group.getConcreteBreakoutStrength g h_ef fc psi3 phi
    = ret (phi * psi3 * sqrt (fc * 145.038e-6) * (AN / ANo)
           * spec_depth_law h_ef * 4.4482216)
  /\ (rest = [] ->
      Group.getConcreteBreakoutStrength g h_ef fc psi3 phi
        = ret (phi * psi3 * sqrt (fc * 145.038e-6)
               * spec_depth_law h_ef * 4.4482216)).
Proof.
  intros AN ANo.
  pose proof (breakout_strength_value g a0 rest h_ef fc psi3 phi
                Hg Hpos Hh Hfc HA) as Hv.
  fold AN ANo in Hv.
  split.
  - rewrite Hv. f_equal. unfold Rdiv. ring.
  - intros Hrest. rewrite Hv. f_equal.
    assert (HAN : AN = ANo) by (unfold AN, ANo; rewrite Hrest; reflexivity).
    rewrite HAN. field. exact HA.
Qed.

Context {B : BoltBase}.

Lemma empty_group_fails g h_ef fc psi3 phi :
  Group.anchors g = [] ->
  value (Group.getConcreteBreakoutConePolygon g h_ef) = Raise IndexError /\
  value (Group.getConcreteBreakoutStrength g h_ef fc psi3 phi) = Raise IndexError /\
  value (Group.report g) = Raise IndexError.
Proof.
  intros Hg.
  assert (Hc : value (Group.getConcreteBreakoutConePolygon g h_ef) = Raise IndexError).
  { unfold Group.getConcreteBreakoutConePolygon. rewrite Hg. reflexivity. }
  split; [exact Hc|]. split.
  - unfold Group.getConcreteBreakoutStrength.
    apply value_bind_raise; exact Hc.
  - unfold Group.report. rewrite Hg. reflexivity.
Qed.

Lemma report_returns g a0 rest nm :
  Group.anchors g = a0 :: rest ->
  Steel.name (Anchor.steelType a0) = Some nm ->
  returns (Group.report g).
Proof.
  intros Hg Hnm. exists tt.
  unfold Group.report, write. rewrite Hg. cbn [Group.first].
  rewrite bind_log_l; cbn [value snd].
  rewrite bind_ret_l, bind_log_l; cbn [value snd].
  rewrite bind_ret_l.
  unfold Anchor.report, write. rewrite Hnm.
  rewrite bind_log_l; reflexivity.
Qed.

(** C10, amended. The three operations read the first anchor: on a
    group without anchors [getConcreteBreakoutConePolygon],
    [getConcreteBreakoutStrength] and [report] end with an
    [IndexError]; on a group with at least one anchor, all positions
    set, the cone polygon is returned, the breakout strength is returned
    for a positive depth, a non-negative concrete strength and a first
    cone that has an area, and the report is written when the steel of
    the first anchor has a name. *)
Theorem anchor_group_first_anchor
    (g : Group.AnchorGroup) (h_ef fc psi3 phi : R) :
  (Group.anchors g = [] ->
     value (Group.getConcreteBreakoutConePolygon g h_ef) = Raise IndexError /\
     value (Group.getConcreteBreakoutStrength g h_ef fc psi3 phi)
       = Raise IndexError /\
     value (Group.report g) = Raise IndexError)
  /\ (forall a0 rest,
        Group.anchors g = a0 :: rest -> Group.positions_set g ->
        returns (Group.getConcreteBreakoutConePolygon g h_ef) /\
        (0 < h_ef -> 0 <= fc -> geom.getArea (cone_of h_ef a0) <> 0 ->
           returns (Group.getConcreteBreakoutStrength g h_ef fc psi3 phi)) /\
        (Steel.name (Anchor.steelType a0) <> None ->
           returns (Group.report g))).
Proof.
  split; [apply empty_group_fails|].
  intros a0 rest Hg Hpos. split; [|split].
  - rewrite (group_cone_set g a0 rest h_ef Hg Hpos). eexists; reflexivity.
  - intros Hh Hfc HA.
    rewrite (breakout_strength_value g a0 rest h_ef fc psi3 phi Hg Hpos Hh Hfc HA).
    eexists; reflexivity.
  - intros Hnm.
    destruct (Steel.name (Anchor.steelType a0)) as [nm|] eqn:E; [|contradiction Hnm; reflexivity].
    exact (report_returns g a0 rest nm Hg E).
Qed.

End AnchorGroups.

Lemma ring_cone_area (p : Pos3d) (h_ef : R) :
  @geom.getArea RingGeometry (@cone_polygon RingGeometry p h_ef)
    = (3 * h_ef) ^ 2.
Proof.
  unfold cone_polygon; simpl. unfold ring_area, pos_plus; simpl.
  match goal with
  | |- Rabs ?x / 2 + 0 = _ => assert (Hx : x = 2 * (3 * h_ef) ^ 2) by lra
  end.
  rewrite Hx, Rabs_right.
  - simpl; lra.
  - pose proof (pow2_ge_0 (3 * h_ef)); lra.
Qed.

Lemma two_anchors_set : Group.positions_set two_anchors.
Proof. repeat constructor; discriminate. Qed.

Lemma one_anchor_set : Group.positions_set one_anchor.
Proof. repeat constructor; discriminate. Qed.

Lemma breakout_strength_formula_witness :
  (exists x, @Group.getConcreteBreakoutStrength RingGeometry
               two_anchors 0.3 30e6 1.25 0.7 = ret x)
  /\ @Group.getConcreteBreakoutStrength RingGeometry one_anchor 0.3 30e6 1.25 0.7
     = ret (0.7 * 1.25 * sqrt (30e6 * 145.038e-6)
            * spec_depth_law 0.3 * 4.4482216).
Proof.
  assert (Hh : 0 < 0.3) by lra.
  assert (Hfc : 0 <= 30e6) by lra.
  assert (HA : forall p, @geom.getArea RingGeometry
                           (@cone_polygon RingGeometry p 0.3) <> 0).
  { intros p; rewrite ring_cone_area; lra. }
  split.
  - eexists.
    exact (proj1 (@breakout_strength_formula RingGeometry two_anchors _ _
                    0.3 30e6 1.25 0.7 eq_refl two_anchors_set Hh Hfc (HA _))).
  - exact (proj2 (@breakout_strength_formula RingGeometry one_anchor _ _
                    0.3 30e6 1.25 0.7 eq_refl one_anchor_set Hh Hfc (HA _))
             eq_refl).
Defined.

Lemma anchor_group_first_anchor_witness :
  value (@Group.report PlainBoltBase (Group.mkGroup [])) = Raise IndexError
  /\ returns (@Group.getConcreteBreakoutConePolygon RingGeometry two_anchors 0.3)
  /\ returns (@Group.getConcreteBreakoutStrength RingGeometry two_anchors
                0.3 30e6 1.25 0.7)
  /\ returns (@Group.report PlainBoltBase two_anchors).
Proof.
  pose proof (@anchor_group_first_anchor RingGeometry PlainBoltBase
                (Group.mkGroup []) 0.3 30e6 1.25 0.7) as [Hempty _].
  pose proof (@anchor_group_first_anchor RingGeometry PlainBoltBase
                two_anchors 0.3 30e6 1.25 0.7) as [_ Hfull].
  destruct (Hfull _ _ eq_refl two_anchors_set) as (Hcone & Hstr & Hrep).
  split; [apply Hempty; reflexivity|].
  split; [exact Hcone|].
  split.
  - apply Hstr; [lra|lra|]. 
    change (@geom.getArea RingGeometry
              (@cone_polygon RingGeometry (mkPos3d 0 0 0) 0.3) <> 0).
    rewrite ring_cone_area; lra.
  - apply Hrep; discriminate.
Defined.

(** The claim C10 fails as worded on groups with an anchor, all
    positions set: the report of a group whose steel has no name ends
    with the [TypeError] of concatenating [None] to a string, and for a
    depth of embedment of zero the breakout strength ends with a
    division by the zero area of the first cone. *)
Lemma positioned_group_can_fail :
  Group.anchors unnamed_anchor <> [] /\ Group.positions_set unnamed_anchor
  /\ value (@Group.report PlainBoltBase unnamed_anchor) = Raise TypeError
  /\ Group.anchors two_anchors <> [] /\ Group.positions_set two_anchors
  /\ value (@Group.getConcreteBreakoutStrength RingGeometry two_anchors
              0 30e6 1.25 0.7) = Raise ZeroDivisionError.
Proof.
  split; [discriminate|]. split; [repeat constructor; discriminate|].
  split; [reflexivity|]. split; [discriminate|].
  split; [exact two_anchors_set|].
  unfold Group.getConcreteBreakoutStrength.
  rewrite (@group_cone_set RingGeometry two_anchors _ _ 0 eq_refl two_anchors_set).
  rewrite bind_ret_l. cbn [Group.first two_anchors Group.AnchorGroup_init
                            Group.init_loop Group.anchors].
  rewrite bind_ret_l.
  rewrite (@anchor_cone_set RingGeometry) by discriminate.
  rewrite bind_ret_l. cbv zeta.
  rewrite math_sqrt_ok by lra. rewrite bind_ret_l.
  change (@cone_of RingGeometry 0
            (Anchor.mkAnchor (Group.str_of_nat 0) F1554gr36 25e-3
               (Some (mkPos3d 0 0 0))))
    with (@cone_polygon RingGeometry (mkPos3d 0 0 0) 0).
  rewrite ring_cone_area.
  replace ((3 * 0) ^ 2) with 0 by (simpl; lra).
  rewrite pydiv_zero. reflexivity.
Qed.

(** ** Dictionaries *)

Lemma steel_round_trip (s : ASTMSteel) :
  Serial.ASTMSteel_setFromDict ASTMSteel_default (Serial.ASTMSteel_getDict s)
    = ASTMSteel_init (Steel.name s) 250e6 400e6 1.0 None None.
Proof.
  unfold Serial.ASTMSteel_getDict, Serial.BasicSteel_getDict,
    Serial.ASTMSteel_setFromDict, ASTMSteel_default, ASTMSteel_init.
  destruct (Steel.name s) as [n|]; [|reflexivity].
  cbn [truthy negb]. destruct (String.eqb n "") eqn:En; cbn.
  - reflexivity.
  - rewrite En; reflexivity.
Qed.

Lemma steel_fromDict_round_trip (base : dict) (s : ASTMSteel) :
  dict_get base "steelTypeClassName" = None ->
  dict_get base "steelType" = None ->
  Serial.steel_fromDict
    (dict_update base
       [("steelTypeClassName"%string, VStr ASTMSteel_className);
        ("steelType"%string, VDict (Serial.ASTMSteel_getDict s))])
    = ret (ASTMSteel_init (Steel.name s) 250e6 400e6 1.0 None None).
Proof.
  intros H1 H2.
  assert (Hget : forall d k v, dict_get (dict_set d k v) k = Some v).
  { induction d as [|[k' v'] d IH]; intros k v; cbn.
    - rewrite String.eqb_refl; reflexivity.
    - destruct (String.eqb k' k) eqn:Ek; cbn.
      + rewrite String.eqb_refl; reflexivity.
      + rewrite Ek; apply IH. }
  assert (Hother : forall d k v k', String.eqb k k' = false ->
                     dict_get (dict_set d k v) k' = dict_get d k').
  { induction d as [|[k0 v0] d IH]; intros k v k' Hk; cbn.
    - rewrite Hk; reflexivity.
    - destruct (String.eqb k0 k) eqn:Ek; cbn.
      + apply String.eqb_eq in Ek; subst k0. rewrite Hk; reflexivity.
      + destruct (String.eqb k0 k'); [reflexivity|apply IH; exact Hk]. }
  unfold Serial.steel_fromDict, dict_item, dict_update. cbn [fold_left fst snd].
  rewrite (Hother _ "steelType" _ "steelTypeClassName")%string by reflexivity.
  rewrite Hget, bind_ret_l.
  unfold eval_steel. rewrite String.eqb_refl, bind_ret_l.
  rewrite Hget, bind_ret_l.
  rewrite steel_round_trip. reflexivity.
Qed.

(** C3 fails on the code: whatever bolt receives the dictionary of a
    bolt [b], it ends with the diameter, the position and the steel name
    of [b], but with a steel whose [fy], [fu] and [gammaM] are the
    defaults of the constructor (250 MPa, 400 MPa, 1.0) and whose [Rt]
    and [Ry] are [None]; likewise for an anchor bolt.  For an M16 bolt
    of A325 steel the result differs from the original, whose yield
    stress is 660 MPa. *)
Theorem round_trip_resets_steel (b b0 : BoltFastener)
    (a a0 : Anchor.AnchorBolt) :
  Serial.BoltFastener_setFromDict b0 (Serial.BoltFastener_getDict b)
    = ret (mkBolt (diameter b)
             (ASTMSteel_init (Steel.name (steelType b)) 250e6 400e6 1.0 None None)
             (pos3d b))
  /\ Serial.AnchorBolt_setFromDict a0 (Serial.AnchorBolt_getDict a)
    = ret (Anchor.mkAnchor (Anchor.name a)
             (ASTMSteel_init (Steel.name (Anchor.steelType a)) 250e6 400e6 1.0
                None None)
             (Anchor.diameter a) (Anchor.pos3d a))
  /\ Serial.BoltFastener_setFromDict b0
       (Serial.BoltFastener_getDict (mkBolt 16e-3 A325 None))
     <> ret (mkBolt 16e-3 A325 None).
Proof.
  assert (Hbolt : forall b b0,
    Serial.BoltFastener_setFromDict b0 (Serial.BoltFastener_getDict b)
    = ret (mkBolt (diameter b)
             (ASTMSteel_init (Steel.name (steelType b)) 250e6 400e6 1.0 None None)
             (pos3d b))).
  { clear. intros b b0.
    unfold Serial.BoltFastener_setFromDict, Serial.BoltFastener_getDict.
    rewrite steel_fromDict_round_trip by reflexivity.
    unfold Serial.BoltBase_setFromDict, Serial.BoltBase_getDict, dict_item.
    destruct (pos3d b); reflexivity. }
  split; [apply Hbolt|]. split.
  - unfold Serial.AnchorBolt_setFromDict, Serial.AnchorBolt_getDict.
    change (dict_update ?d [?n; ?c; ?s])
      with (dict_update (dict_update d [n]) [c; s]).
    rewrite steel_fromDict_round_trip.
    + unfold Serial.BoltBase_setFromDict, Serial.BoltBase_getDict, dict_item.
      destruct (Anchor.pos3d a); reflexivity.
    + reflexivity.
    + reflexivity.
  - rewrite Hbolt. intros H.
    assert (Hfy : fy (ASTMSteel_init (Some "A325"%string) 250e6 400e6 1.0 None None)
                  = fy A325).
    { change (Steel.name (steelType (mkBolt 16e-3 A325 None)))
        with (Some "A325"%string) in H.
      injection H as H. rewrite H at 1. reflexivity. }
    simpl in Hfy. lra.
Qed.

(** * Further properties of the module *)

(** ** Steel factors *)

(** X1. [getPeakConnectionStrengthFactor] fails with a division by zero
    when the yield stress is zero; for a positive yield stress not above
    the ultimate stress it returns a factor between 1 and 1.2, and
    exactly 1.2 as soon as the ultimate stress is at least 1.4 times the
    yield stress. *)
Theorem peak_connection_factor_range (s : ASTMSteel) :
  (fy s = 0 -> getPeakConnectionStrengthFactor s = raise ZeroDivisionError)
  /\ (0 < fy s <= fu s ->
      exists c, getPeakConnectionStrengthFactor s = ret c /\ 1 <= c <= 1.2)
  /\ (0 < fy s -> 1.4 * fy s <= fu s ->
      getPeakConnectionStrengthFactor s = ret 1.2).
Proof.
  unfold getPeakConnectionStrengthFactor.
  split; [|split].
  - intros H0. replace (2 * fy s) with 0 by lra. rewrite pydiv_zero; reflexivity.
  - intros [Hpos Hle].
    rewrite pydiv_ok by lra. rewrite bind_ret_l.
    eexists; split; [reflexivity|].
    assert (Hq : 1 <= (fy s + fu s) / (2 * fy s)).
    { apply (Rmult_le_reg_r (2 * fy s)); [lra|].
      unfold Rdiv; rewrite Rmult_assoc, Rinv_l by lra. lra. }
    unfold pymin. destruct (Rlt_dec 1.2 ((fy s + fu s) / (2 * fy s))); lra.
  - intros Hpos Hle.
    rewrite pydiv_ok by lra. rewrite bind_ret_l. f_equal.
    assert (Hq : 1.2 <= (fy s + fu s) / (2 * fy s)).
    { apply (Rmult_le_reg_r (2 * fy s)); [lra|].
      unfold Rdiv; rewrite Rmult_assoc, Rinv_l by lra. lra. }
    unfold pymin. destruct (Rlt_dec 1.2 ((fy s + fu s) / (2 * fy s))); lra.
Qed.

Lemma peak_connection_factor_range_witness :
  getPeakConnectionStrengthFactor A36 = ret 1.2.
Proof.
  refine (proj2 (proj2 (peak_connection_factor_range A36)) _ _); simpl; lra.
Defined.

(** ** Fillet welds *)

(** X2. For a sheet from 3 mm to 6 mm thick, or at least 7 mm thick,
    the minimum fillet leg does not exceed the maximum one; for a sheet
    thinner than 3 mm, or strictly between 6 mm and 7 mm, the minimum
    leg is larger than the maximum leg, so that no leg satisfies both
    limits. *)
Theorem fillet_weld_leg_range (t : R) :
  (3e-3 <= t <= 6e-3 \/ 7e-3 <= t ->
     getFilletWeldMinimumLeg t <= getFilletWeldMaximumLeg t)
  /\ (t < 3e-3 \/ 6e-3 < t < 7e-3 ->
     getFilletWeldMaximumLeg t < getFilletWeldMinimumLeg t).
Proof.
  unfold getFilletWeldMinimumLeg, getFilletWeldMaximumLeg.
  split; intros H;
    destruct (Rle_dec t 6e-3); destruct (Rle_dec t 13e-3);
    destruct (Rle_dec t 19e-3); lra.
Qed.

Lemma fillet_weld_leg_range_witness :
  getFilletWeldMinimumLeg 10e-3 <= getFilletWeldMaximumLeg 10e-3
  /\ getFilletWeldMaximumLeg 6.5e-3 < getFilletWeldMinimumLeg 6.5e-3.
Proof.
  split.
  - apply (proj1 (fillet_weld_leg_range 10e-3)); right; lra.
  - apply (proj2 (fillet_weld_leg_range 6.5e-3)); right; lra.
Defined.

Lemma getFilletWeldMinimumLeg_mono t1 t2 :
  t1 <= t2 -> getFilletWeldMinimumLeg t1 <= getFilletWeldMinimumLeg t2.
Proof.
  intros H. unfold getFilletWeldMinimumLeg.
  destruct (Rle_dec t1 6e-3); destruct (Rle_dec t1 13e-3);
    destruct (Rle_dec t1 19e-3); destruct (Rle_dec t2 6e-3);
    destruct (Rle_dec t2 13e-3); destruct (Rle_dec t2 19e-3); lra.
Qed.

(** X3. Welding two sheets: the minimum leg is the minimum leg of the
    thicker sheet, the maximum leg never exceeds the thickness of either
    sheet, and neither limit depends on the order of the sheets. *)
Theorem fillet_weld_two_sheets (t1 t2 : R) :
  getFilletWeldMinimumLegSheets t1 t2 = getFilletWeldMinimumLeg (Rmax t1 t2)
  /\ getFilletWeldMinimumLegSheets t1 t2 = getFilletWeldMinimumLegSheets t2 t1
  /\ getFilletWeldMaximumLegSheets t1 t2 <= Rmin t1 t2
  /\ getFilletWeldMaximumLegSheets t1 t2 = getFilletWeldMaximumLegSheets t2 t1.
Proof.
  unfold getFilletWeldMinimumLegSheets, getFilletWeldMaximumLegSheets.
  rewrite !pymax_Rmax, !pymin_Rmin.
  split; [|split; [|split]].
  - unfold Rmax at 2. destruct (Rle_dec t1 t2) as [Hle|Hgt].
    + apply Rmax_right, getFilletWeldMinimumLeg_mono; exact Hle.
    + apply Rmax_left, getFilletWeldMinimumLeg_mono; lra.
  - apply Rmax_comm.
  - assert (Hm : forall t, getFilletWeldMaximumLeg t <= t).
    { intros t; unfold getFilletWeldMaximumLeg; destruct (Rle_dec t 6e-3); lra. }
    pose proof (Hm t1). pose proof (Hm t2).
    unfold Rmin. 
    destruct (Rle_dec (getFilletWeldMaximumLeg t1) (getFilletWeldMaximumLeg t2));
      destruct (Rle_dec t1 t2); lra.
  - apply Rmin_comm.
Qed.

(** ** Bolt holes and edge distances *)

Ltac segments :=
  cbn [removelast combine interp_linear bf_diams tabJ3_4M standardHoleDia
         oversizeHoleDia];
  repeat match goal with
  | |- context [Rle_dec ?a ?b] => destruct (Rle_dec a b)
  end.

(** X4. For a bolt diameter from 16 mm to 30 mm, or of at least 36 mm,
    both nominal hole diameters are returned; the standard hole is at
    least 2 mm wider than the bolt and the oversized hole at least 2 mm
    wider than the standard one. *)
Theorem bolt_hole_clearance (b : BoltFastener)
    (Hd : 16e-3 <= diameter b <= 30e-3 \/ 36e-3 <= diameter b) :
  exists hs ho,
    Bolt.getNominalHoleDiameter b false = ret hs /\
    Bolt.getNominalHoleDiameter b true = ret ho /\
    diameter b + 2e-3 <= hs /\ hs + 2e-3 <= ho.
Proof.
  unfold Bolt.getNominalHoleDiameter.
  destruct (Rge_dec (diameter b) 36e-3) as [Hge|Hlt].
  - do 2 eexists. split; [reflexivity|]. split; [reflexivity|]. lra.
  - destruct Hd as [Hin|Hbig]; [|lra].
    unfold fStandardHoleDia, fOversizeHoleDia.
    rewrite !interp1d_inside by (simpl; lra).
    do 2 eexists. split; [reflexivity|]. split; [reflexivity|].
    unfold bf_diams, standardHoleDia, oversizeHoleDia.
    segments; lra.
Qed.

Lemma bolt_hole_clearance_witness :
  exists hs ho,
    Bolt.getNominalHoleDiameter M20 false = ret hs /\
    Bolt.getNominalHoleDiameter M20 true = ret ho /\
    diameter M20 + 2e-3 <= hs /\ hs + 2e-3 <= ho.
Proof.
  apply (bolt_hole_clearance M20). left; simpl; lra.
Defined.

(** X5. For every bolt diameter of at least 16 mm the minimum edge
    distance is returned and is at least 1.25 times the diameter and at
    least the diameter plus 6 mm.  It is not monotone: just above 36 mm
    (up to 36.8 mm) it is smaller than the 46 mm tabulated at 36 mm. *)
Theorem edge_distance_bounds (b : BoltFastener) (Hd : 16e-3 <= diameter b) :
  (exists e, Bolt.getMinimumEdgeDistanceJ3_4M b = ret e /\
             1.25 * diameter b <= e /\ diameter b + 6e-3 <= e)
  /\ (diameter b = 36e-3 -> Bolt.getMinimumEdgeDistanceJ3_4M b = ret 46e-3)
  /\ (36e-3 < diameter b < 36.8e-3 ->
      exists e, Bolt.getMinimumEdgeDistanceJ3_4M b = ret e /\ e < 46e-3).
Proof.
  unfold Bolt.getMinimumEdgeDistanceJ3_4M.
  split; [|split].
  - destruct (Rle_dec (diameter b) 36e-3) as [Hle|Hgt].
    + unfold fTabJ3_4M. rewrite interp1d_inside by (simpl; lra).
      eexists; split; [reflexivity|].
      unfold bf_diams, tabJ3_4M. segments; lra.
    + eexists; split; [reflexivity|]. lra.
  - intros H36. destruct (Rle_dec (diameter b) 36e-3) as [Hle|Hgt]; [|lra].
    unfold fTabJ3_4M. rewrite interp1d_inside by (simpl; lra).
    f_equal. unfold bf_diams, tabJ3_4M. segments; lra.
  - intros H. destruct (Rle_dec (diameter b) 36e-3) as [Hle|Hgt]; [lra|].
    eexists; split; [reflexivity|]. lra.
Qed.

Lemma edge_distance_bounds_witness :
  Bolt.getMinimumEdgeDistanceJ3_4M M36 = ret 46e-3.
Proof.
  assert (H : 16e-3 <= diameter M36) by (simpl; lra).
  exact (proj1 (proj2 (edge_distance_bounds M36 H)) eq_refl).
Defined.

(** ** Bolt strengths by group *)

Lemma getArea_nonneg d : 0 <= getArea_of_diameter d.
Proof.
  unfold getArea_of_diameter, math_pi.
  apply Rmult_le_pos; [left; apply PI_RGT_0|apply pow2_ge_0].
Qed.

(** X6. For every bolt whose steel has a non-negative ultimate stress,
    in any strength group or in none: excluding the threads from the
    shear plane never lowers the nominal shear strength, and the nominal
    shear strength never exceeds the nominal tensile strength. *)
Theorem bolt_shear_below_tension (b : BoltFastener) (te : bool)
    (Hfu : 0 <= fu (steelType b)) :
  Bolt.getNominalShearStrength b false <= Bolt.getNominalShearStrength b true
  /\ Bolt.getNominalShearStrength b te <= Bolt.getNominalTensileStrength b.
Proof.
  pose proof (getArea_nonneg (diameter b)) as HA.
  unfold Bolt.getNominalShearStrength, Bolt.getNominalTensileStrength,
    Bolt.getGroup, Bolt.getArea.
  set (A := getArea_of_diameter (diameter b)) in *.
  set (f := fu (steelType b)) in *.
  assert (HAf : 0 <= A * f) by (apply Rmult_le_pos; assumption).
  destruct (name_in (Steel.name (steelType b)) groupA);
    [cbn; destruct te; split; lra|].
  destruct (name_in (Steel.name (steelType b)) groupB);
    [cbn; destruct te; split; lra|].
  destruct (name_in (Steel.name (steelType b)) groupC);
    [cbn; destruct te; split; lra|].
  destruct (name_is (Steel.name (steelType b)) "A307");
    destruct te; split; lra.
Qed.

Lemma bolt_shear_below_tension_witness :
  Bolt.getNominalShearStrength (mkBolt 20e-3 A490 None) true
    <= Bolt.getNominalTensileStrength (mkBolt 20e-3 A490 None).
Proof.
  refine (proj2 (bolt_shear_below_tension (mkBolt 20e-3 A490 None) true _)).
  simpl; lra.
Defined.

(** ** Anchor bolts *)

Ltac anchor_segments :=
  cbn [combine interp_linear ab_diams bearingArea rDiams hDiams];
  repeat match goal with
  | |- context [Rle_dec ?a ?b] => destruct (Rle_dec a b)
  end.

(** X7. The bearing area of an anchor, and with it the nominal and the
    design pullout strengths, are returned exactly for diameters from
    15.875 mm to 101.6 mm, the area lying between the first and the last
    tabulated ones; outside they fail with the [ValueError] of the
    interpolator.  The nominal hole diameter is returned exactly for
    diameters from 19.05 mm to 63.5 mm and is then at least 14.2875 mm
    wider than the rod; it fails likewise outside, in particular for the
    smallest tabulated rod of 15.875 mm. *)
Theorem anchor_tables (a : Anchor.AnchorBolt) (fc psi4 phi : R) :
  (Anchor.diameter a < 0.015875 \/ 0.1016 < Anchor.diameter a ->
     AnchorStrength.getBearingArea a = raise ValueError /\
     AnchorStrength.getNominalPulloutStrength a fc psi4 = raise ValueError /\
     AnchorStrength.getDesignPulloutStrength a fc psi4 phi = raise ValueError)
  /\ (0.015875 <= Anchor.diameter a <= 0.1016 ->
     exists A, AnchorStrength.getBearingArea a = ret A /\
       0.00044451524 <= A <= 0.012838684 /\
       AnchorStrength.getNominalPulloutStrength a fc psi4
         = ret (psi4 * A * 8 * fc) /\
       AnchorStrength.getDesignPulloutStrength a fc psi4 phi
         = ret (phi * (psi4 * A * 8 * fc)))
  /\ (Anchor.diameter a < 0.01905 \/ 0.0635 < Anchor.diameter a ->
     AnchorStrength.getNominalHoleDiameter a = raise ValueError)
  /\ (0.01905 <= Anchor.diameter a <= 0.0635 ->
     exists h, AnchorStrength.getNominalHoleDiameter a = ret h /\
       Anchor.diameter a + 0.0142875 <= h).
Proof.
  unfold AnchorStrength.getDesignPulloutStrength,
    AnchorStrength.getNominalPulloutStrength, AnchorStrength.getBearingArea,
    AnchorStrength.getNominalHoleDiameter, fBearingArea, fHoleDiameter.
  split; [|split; [|split]].
  - intros [Hlo|Hhi].
    + rewrite interp1d_below by (simpl; lra). repeat split.
    + rewrite interp1d_above by (simpl; lra). repeat split.
  - intros Hin. rewrite interp1d_inside by (simpl; lra).
    eexists; split; [reflexivity|].
    split; [|split; rewrite !bind_ret_l; reflexivity].
    unfold ab_diams, bearingArea. anchor_segments; lra.
  - intros [Hlo|Hhi].
    + apply interp1d_below; simpl; lra.
    + apply interp1d_above; simpl; lra.
  - intros Hin. rewrite interp1d_inside by (simpl; lra).
    eexists; split; [reflexivity|].
    unfold rDiams, hDiams. anchor_segments; lra.
Qed.

Lemma anchor_tables_witness :
  AnchorStrength.getNominalHoleDiameter
    (Anchor.mkAnchor "0" F1554gr36 0.015875 None) = raise ValueError
  /\ exists A, AnchorStrength.getBearingArea
                 (Anchor.mkAnchor "0" F1554gr36 0.015875 None) = ret A.
Proof.
  pose proof (anchor_tables (Anchor.mkAnchor "0" F1554gr36 0.015875 None) 0 0 0)
    as (_ & Hin & Hout & _).
  split.
  - apply Hout; left; simpl; lra.
  - destruct Hin as (A & HA & _); [simpl; lra|].
    exists A; exact HA.
Defined.

(** X8. For an anchor rod whose steel has a non-negative ultimate
    stress: the nominal tensile strength is three quarters of the
    tensile strength [fu * Ag]; the nominal shear strength is half of
    the tensile strength for type ['X'] and four tenths of it for any
    other type, hence never above the nominal tensile strength; and the
    design strengths are the nominal ones times [phi]. *)
Theorem anchor_shear_below_tension (a : Anchor.AnchorBolt) (typ : string)
    (phi : R) (Hfu : 0 <= fu (Anchor.steelType a)) :
  AnchorStrength.getNominalShearStrength a "X" = 0.5 * Anchor.getTensileStrength a
  /\ (typ <> "X"%string ->
      AnchorStrength.getNominalShearStrength a typ
        = 0.4 * Anchor.getTensileStrength a)
  /\ AnchorStrength.getNominalShearStrength a typ
       <= Anchor.getNominalTensileStrength a
  /\ 0 <= Anchor.getTensileStrength a
  /\ Anchor.getDesignTensileStrength a phi
       = phi * (0.75 * (fu (Anchor.steelType a) * Anchor.getArea a))
  /\ AnchorStrength.getDesignShearStrength a typ phi
       = phi * AnchorStrength.getNominalShearStrength a typ.
Proof.
  assert (HT : 0 <= Anchor.getTensileStrength a).
  { unfold Anchor.getTensileStrength, Anchor.getArea.
    apply Rmult_le_pos; [exact Hfu|apply getArea_nonneg]. }
  unfold AnchorStrength.getDesignShearStrength,
    AnchorStrength.getNominalShearStrength, Anchor.getDesignTensileStrength,
    Anchor.getNominalTensileStrength.
  split; [reflexivity|]. split; [|split; [|split; [exact HT|split; reflexivity]]].
  - intros Hne. destruct (String.eqb typ "X") eqn:Et; [|reflexivity].
    apply String.eqb_eq in Et; contradiction.
  - destruct (String.eqb typ "X"); lra.
Qed.

Lemma anchor_shear_below_tension_witness :
  AnchorStrength.getNominalShearStrength
    (Anchor.mkAnchor "0" F1554gr36 25e-3 None) "N"
  <= Anchor.getNominalTensileStrength (Anchor.mkAnchor "0" F1554gr36 25e-3 None).
Proof.
  refine (proj1 (proj2 (proj2 (anchor_shear_below_tension
            (Anchor.mkAnchor "0" F1554gr36 25e-3 None) "N" 0.55 _)))).
  simpl; lra.
Defined.

(** ** Anchor groups with missing positions *)

Section GroupCones.
Context {G : Geometry}.

Lemma anchor_cone_any a h_ef :
  value (Anchor.getConcreteBreakoutConePolygon a h_ef) = Return (cone_of h_ef a)
  /\ logged (Anchor.getConcreteBreakoutConePolygon a h_ef)
     = match Anchor.pos3d a with
       | Some _ => []
       | None => [Error "Anchor position not specified."]
       end.
Proof.
  unfold Anchor.getConcreteBreakoutConePolygon, cone_of, cone_polygon.
  destruct (Anchor.pos3d a); split; reflexivity.
Qed.

Lemma cones_any l h_ef :
  value (Group.cones l h_ef) = Return (map (cone_of h_ef) l)
  /\ logged (Group.cones l h_ef)
     = repeat (Error "Anchor position not specified.") (count_unset l).
Proof.
  induction l as [|a l [IHv IHl]]; [split; reflexivity|].
  destruct (anchor_cone_any a h_ef) as [Hv Hl].
  cbn [Group.cones map count_unset]. split.
  - rewrite (value_bind_return _ _ _ Hv), (value_bind_return _ _ _ IHv).
    reflexivity.
  - rewrite (logged_bind_return _ _ _ Hv), (logged_bind_return _ _ _ IHv).
    rewrite Hl, IHl. cbn [logged fst ret]. rewrite app_nil_r.
    destruct (Anchor.pos3d a); reflexivity.
Qed.

Lemma count_errors_repeat msg n : count_errors msg (repeat (Error msg) n) = n.
Proof.
  induction n as [|n IH]; [reflexivity|].
  cbn [repeat count_errors]. rewrite String.eqb_refl, IH. reflexivity.
Qed.

(** X9. On a group with at least one anchor
    [getConcreteBreakoutConePolygon] never fails, whether the anchors
    have positions or not: it returns the union of the cones, an anchor
    without position contributing the empty polygon, and logs the error
    "Anchor position not specified." once for each anchor without
    position and nothing else. *)
Theorem group_cone_missing_positions
    (g : Group.AnchorGroup) (a0 : Anchor.AnchorBolt)
    (rest : list Anchor.AnchorBolt) (h_ef : R)
    (Hg : Group.anchors g = a0 :: rest) :
  value (Group.getConcreteBreakoutConePolygon g h_ef)
    = Return (fold_left unePolygon2d (map (cone_of h_ef) rest) (cone_of h_ef a0))
  /\ logged (Group.getConcreteBreakoutConePolygon g h_ef)
     = repeat (Error "Anchor position not specified.")
         (count_unset (Group.anchors g))
  /\ count_errors "Anchor position not specified."
       (logged (Group.getConcreteBreakoutConePolygon g h_ef))
     = count_unset (Group.anchors g).
Proof.
  destruct (cones_any (Group.anchors g) h_ef) as [Hv Hl].
  assert (Hlog : logged (Group.getConcreteBreakoutConePolygon g h_ef)
                 = repeat (Error "Anchor position not specified.")
                     (count_unset (Group.anchors g))).
  { unfold Group.getConcreteBreakoutConePolygon.
    rewrite (logged_bind_return _ _ _ Hv), Hl, Hg.
    cbn [map Group.first]. rewrite bind_ret_l.
    cbn [logged fst ret]. apply app_nil_r. }
  split; [|split].
  - unfold Group.getConcreteBreakoutConePolygon.
    rewrite (value_bind_return _ _ _ Hv), Hg. reflexivity.
  - exact Hlog.
  - rewrite Hlog. apply count_errors_repeat.
Qed.

End GroupCones.

Lemma group_cone_missing_positions_witness :
  logged (@Group.getConcreteBreakoutConePolygon RingGeometry
            (Group.AnchorGroup_init F1554gr36 25e-3 [None; Some (mkPos3d 0 0 0)])
            0.3)
    = [Error "Anchor position not specified."].
Proof.
  exact (proj1 (proj2 (@group_cone_missing_positions RingGeometry
           (Group.AnchorGroup_init F1554gr36 25e-3 [None; Some (mkPos3d 0 0 0)])
           _ _ 0.3 eq_refl))).
Defined.

(** ** Construction of anchor groups *)

Lemma init_loop_spec steel d positions count :
  List.length (Group.init_loop steel d positions count) = List.length positions
  /\ map Anchor.name (Group.init_loop steel d positions count)
     = map Group.str_of_nat (seq count (List.length positions))
  /\ map Anchor.pos3d (Group.init_loop steel d positions count) = positions
  /\ Forall (fun a => Anchor.steelType a = steel /\ Anchor.diameter a = d)
       (Group.init_loop steel d positions count).
Proof.
  revert count; induction positions as [|p ps IH]; intros count.
  - repeat split; constructor.
  - destruct (IH (S count)) as (H1 & H2 & H3 & H4).
    cbn [Group.init_loop List.length map seq].
    rewrite H1, H2, H3. repeat split. constructor; [split; reflexivity|exact H4].
Qed.

(** X10. [AnchorGroup(steel, diameter, positions)] creates one anchor
    per position, in order, named by its index ("0", "1", ...), all of
    the given steel and diameter; when every position is given, every
    anchor of the group has a position. *)
Theorem anchor_group_init (steel : ASTMSteel) (d : R)
    (positions : list (option Pos3d)) :
  let g := Group.AnchorGroup_init steel d positions in
  Group.getNumberOfBolts g = List.length positions
  /\ map Anchor.name (Group.anchors g)
     = map Group.str_of_nat (seq 0 (List.length positions))
  /\ map Anchor.pos3d (Group.anchors g) = positions
  /\ Forall (fun a => Anchor.steelType a = steel /\ Anchor.diameter a = d)
       (Group.anchors g)
  /\ (Forall (fun p => p <> None) positions -> Group.positions_set g).
Proof.
  intros g. unfold g, Group.AnchorGroup_init, Group.getNumberOfBolts,
    Group.positions_set. cbn [Group.anchors].
  destruct (init_loop_spec steel d positions 0) as (H1 & H2 & H3 & H4).
  repeat split; try assumption.
  intros Hall. rewrite <- H3 in Hall.
  rewrite Forall_map in Hall. exact Hall.
Qed.

Lemma anchor_group_init_witness :
  Group.positions_set
    (Group.AnchorGroup_init F1554gr36 25e-3
       [Some (mkPos3d 0 0 0); Some (mkPos3d 1 0 0)]).
Proof.
  refine (proj2 (proj2 (proj2 (proj2 (anchor_group_init F1554gr36 25e-3
            [Some (mkPos3d 0 0 0); Some (mkPos3d 1 0 0)])))) _).
  repeat constructor; discriminate.
Defined.

Lemma setPositions_loop_spec l positions :
  List.length (Group.setPositions_loop l positions) = List.length l
  /\ map Anchor.name (Group.setPositions_loop l positions) = map Anchor.name l
  /\ map Anchor.steelType (Group.setPositions_loop l positions)
     = map Anchor.steelType l
  /\ map Anchor.diameter (Group.setPositions_loop l positions)
     = map Anchor.diameter l
  /\ map Anchor.pos3d (Group.setPositions_loop l positions)
     = (firstn (List.length l) positions
        ++ skipn (List.length positions) (map Anchor.pos3d l))%list.
Proof.
  revert positions; induction l as [|a l IH]; intros positions.
  - destruct positions; repeat split.
  - destruct positions as [|p ps].
    + repeat split.
    + destruct (IH ps) as (H1 & H2 & H3 & H4 & H5).
      cbn [Group.setPositions_loop List.length map firstn skipn].
      rewrite H1, H2, H3, H4, H5. repeat split.
Qed.

(** X11. [setPositions] keeps the number of anchors, their names, steels
    and diameters; the first anchors take the positions given, one each,
    and the anchors beyond the length of the list keep theirs.  When at
    least as many positions are given as there are anchors, and none is
    missing, every anchor of the group has a position afterwards. *)
Theorem set_positions_spec (g : Group.AnchorGroup)
    (positions : list (option Pos3d)) :
  let g' := Group.setPositions g positions in
  Group.getNumberOfBolts g' = Group.getNumberOfBolts g
  /\ map Anchor.name (Group.anchors g') = map Anchor.name (Group.anchors g)
  /\ map Anchor.steelType (Group.anchors g')
     = map Anchor.steelType (Group.anchors g)
  /\ map Anchor.diameter (Group.anchors g')
     = map Anchor.diameter (Group.anchors g)
  /\ map Anchor.pos3d (Group.anchors g')
     = (firstn (Group.getNumberOfBolts g) positions
        ++ skipn (List.length positions) (map Anchor.pos3d (Group.anchors g)))%list
  /\ ((Group.getNumberOfBolts g <= List.length positions)%nat ->
      Forall (fun p => p <> None) positions -> Group.positions_set g').
Proof.
  intros g'. unfold g', Group.setPositions, Group.getNumberOfBolts,
    Group.positions_set. cbn [Group.anchors].
  destruct (setPositions_loop_spec (Group.anchors g) positions)
    as (H1 & H2 & H3 & H4 & H5).
  repeat split; try assumption.
  intros Hlen Hall.
  apply (proj1 (Forall_map Anchor.pos3d (fun p => p <> None) _)). rewrite H5.
  rewrite skipn_all2 by (rewrite length_map; exact Hlen).
  rewrite app_nil_r.
  apply Forall_forall. intros p Hp.
  apply (proj1 (Forall_forall _ _) Hall p).
  rewrite <- (firstn_skipn (List.length (Group.anchors g)) positions).
  apply in_or_app; left; exact Hp.
Qed.

Lemma set_positions_spec_witness :
  Group.positions_set
    (Group.setPositions
       (Group.AnchorGroup_init F1554gr36 25e-3 [None; None])
       [Some (mkPos3d 0 0 0); Some (mkPos3d 1 0 0)]).
Proof.
  refine (proj2 (proj2 (proj2 (proj2 (proj2 (set_positions_spec
            (Group.AnchorGroup_init F1554gr36 25e-3 [None; None])
            [Some (mkPos3d 0 0 0); Some (mkPos3d 1 0 0)]))))) _ _).
  - apply le_n.
  - repeat constructor; discriminate.
Defined.

(** ** Moment gradient factor *)

(** X12. The factor Cb of a member: a cantilever (translation and
    rotation free at the far end) gets 1.0 whatever the bending state;
    otherwise the factor is that of the bending state, which is between
    1 and 5 when the quarter-point moments are between zero and a
    positive maximum moment, is exactly 1 for a uniform non-zero moment,
    and fails with a division by zero when the weighted sum of the
    moments in its denominator is zero, as for a member without
    moment. *)
Theorem cb_factor (c : MemberConnection) (bs : BendingState) :
  (transJ c = "free"%string -> rotJ c = "free"%string ->
     MemberConnection_getCb c bs = ret 1.0)
  /\ (transJ c <> "free"%string \/ rotJ c <> "free"%string ->
     MemberConnection_getCb c bs = BendingState_getCb bs)
  /\ (0 < Mmax bs -> 0 <= Ma bs <= Mmax bs -> 0 <= Mb bs <= Mmax bs ->
      0 <= Mc bs <= Mmax bs ->
      exists cb, BendingState_getCb bs = ret cb /\ 1 <= cb <= 5)
  /\ (Mmax bs <> 0 -> Ma bs = Mmax bs -> Mb bs = Mmax bs -> Mc bs = Mmax bs ->
      BendingState_getCb bs = ret 1)
  /\ (2.5 * Mmax bs + 3 * Ma bs + 4 * Mb bs + 3 * Mc bs = 0 ->
      BendingState_getCb bs = raise ZeroDivisionError).
Proof.
  unfold MemberConnection_getCb, BendingState_getCb.
  split; [|split; [|split; [|split]]].
  - intros -> ->. reflexivity.
  - intros [H|H].
    + destruct (String.eqb (transJ c) "free") eqn:Et; [|reflexivity].
      apply String.eqb_eq in Et; contradiction.
    + destruct (String.eqb (rotJ c) "free") eqn:Er;
        [apply String.eqb_eq in Er; contradiction|].
      rewrite andb_false_r; reflexivity.
  - intros Hmax Ha Hb Hc.
    set (den := 2.5 * Mmax bs + 3 * Ma bs + 4 * Mb bs + 3 * Mc bs).
    assert (Hden : 0 < den) by (unfold den; lra).
    rewrite pydiv_ok by lra. eexists; split; [reflexivity|].
    split.
    + apply (Rmult_le_reg_r den); [exact Hden|].
      unfold Rdiv; rewrite Rmult_assoc, Rinv_l by lra. unfold den; lra.
    + apply (Rmult_le_reg_r den); [exact Hden|].
      unfold Rdiv; rewrite Rmult_assoc, Rinv_l by lra. unfold den; lra.
  - intros Hne Ha Hb Hc. rewrite Ha, Hb, Hc.
    rewrite pydiv_ok by lra. f_equal.
    replace (2.5 * Mmax bs + 3 * Mmax bs + 4 * Mmax bs + 3 * Mmax bs)
      with (12.5 * Mmax bs) by lra.
    unfold Rdiv. apply Rinv_r. lra.
  - intros Hz. rewrite Hz. apply pydiv_zero.
Qed.

Lemma cb_factor_witness :
  exists cb, BendingState_getCb (mkBendingState 100 50 100 50) = ret cb
             /\ 1 <= cb <= 5.
Proof.
  refine (proj1 (proj2 (proj2 (cb_factor
            (MemberConnection_init 4.0 "free" "fixed" "free" "fixed")
            (mkBendingState 100 50 100 50)))) _ _ _ _); simpl; lra.
Defined.

(** ** Holes in the tension flange *)

(** X13. With a ratio of gross to net flange area above 1,
    [getZNominalFlexuralStrength] never returns a value: once the factor
    Cb, the flexural strength of the shape and the factor Yt are
    computed, it ends with the [AttributeError] of reading the steel of
    the member itself.  In consequence [getCapacityFactor] never returns
    anything for such a ratio and a design axial load [Nd <= 0]. *)
Theorem flange_holes_never_return {BB : BucklingBase}
    (m : Member.ConnectedMember) (Nd Myd Mzd gammaC : R)
    (bsY bsZ : BendingState) (AfgAfnRatio : R)
    (Hratio : 1 < AfgAfnRatio) :
  ~ returns (Member.getZNominalFlexuralStrength m bsZ AfgAfnRatio)
  /\ (forall cb Mn,
        value (MemberConnection_getCb (Member.connection m) bsZ) = Return cb ->
        value (Shape.getNominalFlexuralStrength (Member.shape m)
                 (Lb (Member.connection m)) cb true) = Return Mn ->
        fu (Shape.steelType (Member.shape m)) <> 0 ->
        value (Member.getZNominalFlexuralStrength m bsZ AfgAfnRatio)
          = Raise AttributeError)
  /\ (Nd <= 0 ->
      ~ returns (Member.getCapacityFactor m Nd Myd Mzd gammaC bsY bsZ AfgAfnRatio)).
Proof.
  assert (HZ : ~ returns (Member.getZNominalFlexuralStrength m bsZ AfgAfnRatio)).
  { intros [x Hx]. unfold Member.getZNominalFlexuralStrength in Hx.
    apply value_bind_inv in Hx; destruct Hx as (cb & _ & Hx).
    apply value_bind_inv in Hx; destruct Hx as (Mn & _ & Hx).
    destruct (Rlt_dec 1.0 AfgAfnRatio); [|lra].
    apply value_bind_inv in Hx; destruct Hx as (Yt & _ & Hx).
    discriminate Hx. }
  split; [exact HZ|]. split.
  - intros cb Mn Hcb HMn Hfu.
    unfold Member.getZNominalFlexuralStrength.
    rewrite (value_bind_return _ _ _ Hcb), (value_bind_return _ _ _ HMn).
    destruct (Rlt_dec 1.0 AfgAfnRatio); [|lra].
    unfold getYt. rewrite (pydiv_ok _ _ Hfu), !bind_ret_l. reflexivity.
  - intros HNd [x Hx]. unfold Member.getCapacityFactor in Hx.
    destruct (Rle_dec Nd 0.0); [|lra].
    apply value_bind_inv in Hx; destruct Hx as (? & _ & Hx).
    apply value_bind_inv in Hx; destruct Hx as (? & _ & Hx).
    apply value_bind_inv in Hx; destruct Hx as (Mz & HMz & _).
    apply HZ; exists Mz; exact HMz.
Qed.

Lemma flange_holes_never_return_witness :
  ~ returns (@Member.getCapacityFactor PinnedK column4m 0 0 0 1
               (mkBendingState 1 1 1 1) (mkBendingState 1 1 1 1) 1.2).
Proof.
  assert (H : 1 < 1.2) by lra.
  refine (proj2 (proj2 (@flange_holes_never_return PinnedK column4m 0 0 0 1
            (mkBendingState 1 1 1 1) (mkBendingState 1 1 1 1) 1.2 H)) _).
  lra.
Defined.

(** ** Compression of the shape *)

Lemma pymax_nonzero a b : a <> 0 -> b <> 0 -> pymax a b <> 0.
Proof. intros Ha Hb; unfold pymax; destruct (Rlt_dec a b); assumption. Qed.

Lemma div_nonzero a b : a <> 0 -> b <> 0 -> a / b <> 0.
Proof.
  intros Ha Hb; unfold Rdiv.
  apply Rmult_integral_contrapositive_currified;
    [exact Ha | apply Rinv_neq_0_compat; exact Hb].
Qed.

Lemma getFlexuralElasticBucklingStress_value s Ly Lz :
  Shape.get_iy s <> 0 -> Shape.get_iz s <> 0 ->
  pymax (Lz / Shape.get_iz s) (Ly / Shape.get_iy s) <> 0 ->
  value (Shape.getFlexuralElasticBucklingStress s Ly Lz)
    = Return (PI ^ 2 * Shape.get_E s
              / pymax (Lz / Shape.get_iz s) (Ly / Shape.get_iy s) ^ 2).
Proof.
  intros Hy Hz Hsr. unfold Shape.getFlexuralElasticBucklingStress.
  rewrite (value_bind_return _ _ _ (getFlexuralSlendernessRatio_value s Ly Lz Hy Hz)).
  rewrite pydiv_ok by (apply pow_nonzero; exact Hsr). reflexivity.
Qed.

Lemma slender_value_aux s Ly Lz Fe c :
  c = slender \/ c = too_slender ->
  Shape.getCriticalStressE s Ly Lz c Fe
    = ([Error "Critical stress of slender members not implemented yet."],
       Return 0.0).
Proof. intros [-> | ->]; reflexivity. Qed.

(** X14. A compressive axial load on a section classified as slender or
    too slender: the reference compressive strength of the shape is the
    number zero, and [getBiaxialBendingEfficiency] fails with a division
    by zero when it divides the load by it.  The radii of gyration are
    non-zero. *)
Theorem slender_compression_divides_by_zero
    (s : Shape.ASTMShape) (c : SectionClassif)
    (Nd Myd Mzd Vyd chiN chiLT : R)
    (Hc : c = slender \/ c = too_slender) (HNd : Nd < 0)
    (Hy : Shape.get_iy s <> 0) (Hz : Shape.get_iz s <> 0) :
  value (Shape.getReferenceCompressiveStrength s c) = Return 0
  /\ value (Shape.getBiaxialBendingEfficiency s c Nd Myd Mzd Vyd chiN chiLT)
     = Raise ZeroDivisionError.
Proof.
  assert (Hsr : pymax (0.1 / Shape.get_iz s) (0.1 / Shape.get_iy s) <> 0).
  { apply pymax_nonzero; apply div_nonzero; try assumption; lra. }
  assert (Href : value (Shape.getReferenceCompressiveStrength s c) = Return 0).
  { unfold Shape.getReferenceCompressiveStrength,
      Shape.getDesignCompressiveStrength, Shape.getNominalCompressiveStrength.
    destruct (Rle_dec 0.1 (pymax 0.1 0.1)) as [_|Hn];
      [|exfalso; apply Hn; unfold pymax; destruct (Rlt_dec 0.1 0.1); lra].
    unfold Shape.getFlexuralCriticalStress.
    assert (Hcr : forall Fe, value (Shape.getCriticalStressE s 0.1 0.1 c Fe)
                             = Return 0.0).
    { intros Fe. rewrite (slender_value_aux s 0.1 0.1 Fe c Hc).
      reflexivity. }
    assert (HF : value (Fe <- Shape.getFlexuralElasticBucklingStress s 0.1 0.1 ;;
                        Shape.getCriticalStressE s 0.1 0.1 c Fe) = Return 0.0).
    { rewrite (value_bind_return _ _ _
                 (getFlexuralElasticBucklingStress_value s 0.1 0.1 Hy Hz Hsr)).
      apply Hcr. }
    assert (HN : value (Fcr <- (Fe <- Shape.getFlexuralElasticBucklingStress s 0.1 0.1 ;;
                                Shape.getCriticalStressE s 0.1 0.1 c Fe) ;;
                        ret (Fcr * Shape.get_A s)) = Return (0.0 * Shape.get_A s)).
    { rewrite (value_bind_return _ _ _ HF). reflexivity. }
    rewrite (value_bind_return _ _ _ HN). cbn [value snd ret].
    f_equal. lra. }
  split; [exact Href|].
  unfold Shape.getBiaxialBendingEfficiency.
  apply value_bind_raise.
  destruct (Rlt_dec Nd 0) as [_|Hn]; [|lra].
  rewrite (value_bind_return _ _ _ Href).
  replace (chiN * 0) with 0 by lra. rewrite pydiv_zero. reflexivity.
Qed.

Lemma slender_compression_divides_by_zero_witness :
  value (Shape.getBiaxialBendingEfficiency W310X97 slender (-1000) 0 0 0 1 1)
    = Raise ZeroDivisionError.
Proof.
  refine (proj2 (slender_compression_divides_by_zero W310X97 slender
            (-1000) 0 0 0 1 1 (or_introl eq_refl) _ _ _)); simpl; lra.
Defined.

(** X15. When the torsional effective length exceeds both flexural
    effective lengths, the nominal and the design compressive strengths
    of the shape fail with a [NameError]: the torsional path calls a
    function that the module neither defines nor imports.  The reference
    compressive strength, computed with three equal lengths, never takes
    that path. *)
Theorem torsional_path_fails (s : Shape.ASTMShape) (Lx Ly Lz : R)
    (c : SectionClassif) (Hy : Ly < Lx) (Hz : Lz < Lx) :
  Shape.getNominalCompressiveStrength s Lx Ly Lz c = raise NameError
  /\ Shape.getDesignCompressiveStrength s Lx Ly Lz c = raise NameError
  /\ Shape.getReferenceCompressiveStrength s c
     = (Fcr <- Shape.getFlexuralCriticalStress s 0.1 0.1 c ;;
        Pn <- ret (Fcr * Shape.get_A s) ;; ret (0.9 * Pn)).
Proof.
  assert (HN : Shape.getNominalCompressiveStrength s Lx Ly Lz c = raise NameError).
  { unfold Shape.getNominalCompressiveStrength.
    destruct (Rle_dec Lx (pymax Ly Lz)) as [Hle|_]; [|reflexivity].
    unfold pymax in Hle; destruct (Rlt_dec Ly Lz); lra. }
  split; [exact HN|]. split.
  - unfold Shape.getDesignCompressiveStrength. rewrite HN. reflexivity.
  - unfold Shape.getReferenceCompressiveStrength,
      Shape.getDesignCompressiveStrength, Shape.getNominalCompressiveStrength.
    destruct (Rle_dec 0.1 (pymax 0.1 0.1)) as [_|Hn];
      [|exfalso; apply Hn; unfold pymax; destruct (Rlt_dec 0.1 0.1); lra].
    destruct (Shape.getFlexuralCriticalStress s 0.1 0.1 c) as [l [e|a]];
      unfold bind, ret; rewrite ?app_nil_r; reflexivity.
Qed.

Lemma torsional_path_fails_witness :
  Shape.getDesignCompressiveStrength W310X97 5 4 4 compact = raise NameError.
Proof.
  refine (proj1 (proj2 (torsional_path_fails W310X97 5 4 4 compact _ _))); lra.
Defined.

(** ** Flexural buckling of the shape *)

Lemma slenderness_subsumed sr E Fy :
  0 <= sr -> 0 < E -> 0 < Fy -> sr <> 0 ->
  sr <= 4.71 * sqrt (E / Fy) -> Fy / (PI ^ 2 * E / sr ^ 2) <= 2.25.
Proof.
  intros Hsr HE HFy Hne Hle.
  assert (Hq : 0 < E / Fy).
  { apply Rmult_lt_0_compat; [exact HE|apply Rinv_0_lt_compat; exact HFy]. }
  assert (Hsq : sr ^ 2 <= 4.71 ^ 2 * (E / Fy)).
  { replace (4.71 ^ 2 * (E / Fy)) with ((4.71 * sqrt (E / Fy)) ^ 2).
    - apply pow_incr; split; assumption.
    - rewrite Rpow_mult_distr. f_equal.
      simpl. rewrite Rmult_1_r. apply sqrt_sqrt; lra. }
  destruct PI_bounds as [Hlo Hhi].
  assert (Hpi2 : 9.8695 < PI ^ 2).
  { simpl. rewrite Rmult_1_r.
    apply Rlt_trans with (3.14159 * 3.14159); [lra|].
    apply Rmult_gt_0_lt_compat; lra. }
  assert (Hsr2 : 0 < sr ^ 2).
  { pose proof (pow2_ge_0 sr). pose proof (pow_nonzero sr 2 Hne). lra. }
  replace (Fy / (PI ^ 2 * E / sr ^ 2)) with (sr ^ 2 * (Fy / E) / PI ^ 2)
    by (field; repeat split; lra).
  apply (Rmult_le_reg_r (PI ^ 2)); [lra|].
  unfold Rdiv at 1. rewrite Rmult_assoc, Rinv_l, Rmult_1_r by lra.
  apply Rle_trans with (4.71 ^ 2 * (E / Fy) * (Fy / E)).
  - apply Rmult_le_compat_r; [|exact Hsq].
    left; apply Rmult_lt_0_compat; [exact HFy|apply Rinv_0_lt_compat; exact HE].
  - replace (4.71 ^ 2 * (E / Fy) * (Fy / E)) with (4.71 ^ 2)
      by (field; split; lra).
    simpl. lra.
Qed.

(** X16. Flexural critical stress of a compact or noncompact shape with
    positive radii of gyration, modulus and yield stress, for
    non-negative effective lengths that are not both zero: the elastic
    buckling stress is [pi^2 E / sr^2] for the slenderness ratio
    [sr = max(Lz/iz, Ly/iy)], and the critical stress is
    [0.658^(Fy/Fe) * Fy] exactly when [Fy/Fe <= 2.25], and [0.877 * Fe]
    otherwise: with this elastic stress the slenderness test of the rule
    adds nothing to the stress-ratio test. *)
Theorem flexural_critical_stress (s : Shape.ASTMShape) (Ly Lz : R)
    (c : SectionClassif)
    (Hc : c = compact \/ c = noncompact)
    (Hiy : 0 < Shape.get_iy s) (Hiz : 0 < Shape.get_iz s)
    (HE : 0 < Shape.get_E s) (HFy : 0 < fy (Shape.steelType s))
    (HLy : 0 <= Ly) (HLz : 0 <= Lz) (HL : 0 < Ly \/ 0 < Lz) :
  let sr := pymax (Lz / Shape.get_iz s) (Ly / Shape.get_iy s) in
  let Fe := PI ^ 2 * Shape.get_E s / sr ^ 2 in
  let Fy := fy (Shape.steelType s) in
  0 < sr /\ 0 < Fe
  /\ value (Shape.getFlexuralElasticBucklingStress s Ly Lz) = Return Fe
  /\ (Fy / Fe <= 2.25 ->
      value (Shape.getFlexuralCriticalStress s Ly Lz c)
        = Return (Rpower 0.658 (Fy / Fe) * Fy))
  /\ (2.25 < Fy / Fe ->
      value (Shape.getFlexuralCriticalStress s Ly Lz c) = Return (0.877 * Fe)).
Proof.
  intros sr Fe Fy.
  assert (Hdz : 0 <= Lz / Shape.get_iz s).
  { apply Rmult_le_pos; [exact HLz|left; apply Rinv_0_lt_compat; exact Hiz]. }
  assert (Hdy : 0 <= Ly / Shape.get_iy s).
  { apply Rmult_le_pos; [exact HLy|left; apply Rinv_0_lt_compat; exact Hiy]. }
  assert (Hsr : 0 < sr).
  { unfold sr, pymax.
    destruct (Rlt_dec (Lz / Shape.get_iz s) (Ly / Shape.get_iy s)); [lra|].
    destruct HL as [HL|HL].
    - assert (0 < Ly / Shape.get_iy s)
        by (apply Rmult_lt_0_compat; [exact HL|apply Rinv_0_lt_compat; exact Hiy]).
      lra.
    - apply Rmult_lt_0_compat; [exact HL|apply Rinv_0_lt_compat; exact Hiz]. }
  assert (HFe : 0 < Fe).
  { unfold Fe. apply Rmult_lt_0_compat.
    - apply Rmult_lt_0_compat; [apply pow_lt, PI_RGT_0|exact HE].
    - apply Rinv_0_lt_compat, pow_lt; exact Hsr. }
  assert (Hy : Shape.get_iy s <> 0) by lra.
  assert (Hz : Shape.get_iz s <> 0) by lra.
  assert (Hsr0 : sr <> 0) by lra.
  pose proof (getFlexuralElasticBucklingStress_value s Ly Lz Hy Hz Hsr0) as HvFe.
  fold sr Fe in HvFe.
  assert (Hlt : classif_ltb c slender = true)
    by (destruct Hc as [-> | ->]; reflexivity).
  assert (Hwf : shape_wf s) by (repeat split; lra).
  assert (HFe0 : Fe <> 0) by lra.
  pose proof (getCriticalStressE_value s Ly Lz c Fe Hlt HFe0 Hwf) as Hcr.
  fold sr Fy in Hcr.
  assert (Hv : value (Shape.getFlexuralCriticalStress s Ly Lz c)
               = Return (spec_two_regime sr (Shape.get_E s) Fy Fe)).
  { unfold Shape.getFlexuralCriticalStress.
    rewrite (value_bind_return _ _ _ HvFe). exact Hcr. }
  destruct (spec_two_regime_or sr (Shape.get_E s) Fy Fe) as [Hin Hel].
  split; [exact Hsr|]. split; [exact HFe|]. split; [exact HvFe|]. split.
  - intros Hr. rewrite Hv, Hin; [reflexivity|right; exact Hr].
  - intros Hr. rewrite Hv, Hel; [reflexivity|].
    intros [Ha|Hb]; [|lra].
    pose proof (slenderness_subsumed sr (Shape.get_E s) Fy
                  (Rlt_le _ _ Hsr) HE HFy Hsr0 Ha) as Hsub.
    fold Fe in Hsub. lra.
Qed.

Lemma flexural_critical_stress_witness :
  value (Shape.getFlexuralElasticBucklingStress W310X97 4 4)
    = Return (PI ^ 2 * 200e9 / pymax (4 / 134e-3) (4 / 76.9e-3) ^ 2).
Proof.
  refine (proj1 (proj2 (proj2 (flexural_critical_stress W310X97 4 4 compact
            (or_introl eq_refl) _ _ _ _ _ _ _)))); simpl; lra.
Defined.

(** ** The member against its shape *)

(** X17. The slenderness ratio of a member, its effective length over
    the smaller radius of gyration, is the flexural slenderness ratio of
    its shape taken with that effective length about both axes, for
    positive radii of gyration and a non-negative effective length. *)
Theorem member_slenderness_is_shape_slenderness {BB : BucklingBase}
    (m : Member.ConnectedMember)
    (Hiy : 0 < Shape.get_iy (Member.shape m))
    (Hiz : 0 < Shape.get_iz (Member.shape m))
    (HL : 0 <= Member.getEffectiveLength m) :
  value (Member.getSlendernessRatio m)
    = value (Shape.getFlexuralSlendernessRatio (Member.shape m)
               (Member.getEffectiveLength m) (Member.getEffectiveLength m)).
Proof.
  set (Lc := Member.getEffectiveLength m) in *.
  set (iy := Shape.get_iy (Member.shape m)) in *.
  set (iz := Shape.get_iz (Member.shape m)) in *.
  rewrite getFlexuralSlendernessRatio_value by (fold iy iz; lra).
  fold iy iz.
  assert (Hmin : pymin iy iz <> 0).
  { unfold pymin; destruct (Rlt_dec iz iy); lra. }
  rewrite (getSlendernessRatio_ret m Hmin). fold Lc iy iz.
  cbn [value snd ret]. f_equal.
  assert (Hinv : forall a b, 0 < a -> a <= b -> Lc / b <= Lc / a).
  { intros a b Ha Hab. unfold Rdiv.
    apply Rmult_le_compat_l; [exact HL|].
    apply Rinv_le_contravar; assumption. }
  unfold pymin, pymax.
  destruct (Rlt_dec iz iy) as [Hlt|Hge];
    destruct (Rlt_dec (Lc / iz) (Lc / iy)) as [Hd|Hd]; try reflexivity.
  - pose proof (Hinv iz iy Hiz (Rlt_le _ _ Hlt)). lra.
  - apply Rle_antisym; [lra|].
    apply Hinv; lra.
Qed.

Lemma member_slenderness_is_shape_slenderness_witness :
  value (@Member.getSlendernessRatio PinnedK column4m)
    = value (Shape.getFlexuralSlendernessRatio W310X97 (1.0 * 4.0) (1.0 * 4.0)).
Proof.
  refine (@member_slenderness_is_shape_slenderness PinnedK column4m _ _ _);
    unfold Member.getEffectiveLength; simpl; lra.
Defined.

(** ** Tension of the shape *)

(** X18. The design tensile strength of a shape never exceeds the
    yielding limit [0.9 fy Ag]; an effective net area that is omitted or
    zero is replaced by the gross area; for a non-negative gross area
    and [0.9 fy <= 0.75 fu] yielding of the gross section governs when
    the net area is omitted; and with a non-zero net area the strength
    never exceeds the rupture limit [0.75 fu Ae]. *)
Theorem design_tensile_strength (s : Shape.ASTMShape) (Ae : option R) :
  let Ag := Shape.get_A s in
  let st := Shape.steelType s in
  Shape.getDesignTensileStrength s Ae <= 0.9 * fy st * Ag
  /\ Shape.getDesignTensileStrength s None
     = Shape.getDesignTensileStrength s (Some Ag)
  /\ Shape.getDesignTensileStrength s (Some 0)
     = Shape.getDesignTensileStrength s None
  /\ (0 <= Ag -> 0.9 * fy st <= 0.75 * fu st ->
      Shape.getDesignTensileStrength s None = 0.9 * fy st * Ag)
  /\ (forall x, x <> 0 ->
      Shape.getDesignTensileStrength s (Some x) <= 0.75 * fu st * x).
Proof.
  intros Ag st. unfold Shape.getDesignTensileStrength. fold Ag st.
  rewrite !pymin_Rmin.
  split; [apply Rmin_l|]. split; [|split; [|split]].
  - destruct (Req_dec_T Ag 0); reflexivity.
  - destruct (Req_dec_T 0 0); [reflexivity|contradiction].
  - intros HAg Hle. apply Rmin_left.
    apply Rmult_le_compat_r; assumption.
  - intros x Hx. destruct (Req_dec_T x 0); [contradiction|].
    rewrite pymin_Rmin. apply Rmin_r.
Qed.

Lemma design_tensile_strength_witness :
  Shape.getDesignTensileStrength W310X97 None = 0.9 * 345e6 * 12300e-6.
Proof.
  refine (proj1 (proj2 (proj2 (proj2
            (design_tensile_strength W310X97 None)))) _ _); simpl; lra.
Defined.

(** ** Reading a steel and a shape from a dictionary *)

(** X19. [ASTMSteel.setFromDict] never fails and changes nothing but the
    name: the modulus, the stresses, the partial factor and the ratios
    Rt and Ry are those of the steel that receives the dictionary, so
    that the invariant of the grades is kept.  The name becomes [None]
    when the dictionary has no name or an empty one, and the stored name
    otherwise; read back from the dictionary of a steel, it is the name
    of that steel. *)
Theorem steel_setFromDict_only_name (s s0 : ASTMSteel) (dct : dict) :
  let s' := Serial.ASTMSteel_setFromDict s dct in
  (E s' = E s /\ nu s' = nu s /\ fy s' = fy s /\ fu s' = fu s /\
   gammaM s' = gammaM s /\ Rt s' = Rt s /\ Ry s' = Ry s)
  /\ (grade_ok s -> grade_ok s')
  /\ (dict_get dct "name" = None -> Steel.name s' = None)
  /\ (dict_get dct "name" = Some (VStr "") -> Steel.name s' = None)
  /\ (forall n, n <> ""%string -> dict_get dct "name" = Some (VStr n) ->
      Steel.name s' = Some n)
  /\ Steel.name (Serial.ASTMSteel_setFromDict s0 (Serial.ASTMSteel_getDict s))
     = if truthy (Steel.name s) then Steel.name s else None.
Proof.
  intros s'.
  assert (Hkeep : E s' = E s /\ nu s' = nu s /\ fy s' = fy s /\ fu s' = fu s /\
                  gammaM s' = gammaM s /\ Rt s' = Rt s /\ Ry s' = Ry s).
  { unfold s', Serial.ASTMSteel_setFromDict.
    destruct (dict_get dct "name") as [[| | n | |]|]; try (repeat split; fail).
    destruct (truthy (Some n)); repeat split. }
  split; [exact Hkeep|].
  destruct Hkeep as (_ & _ & Hfy & Hfu & _ & HRt & HRy).
  split; [|split; [|split; [|split]]].
  - unfold grade_ok. rewrite Hfy, Hfu, HRt, HRy. tauto.
  - intros Hn. unfold s', Serial.ASTMSteel_setFromDict. rewrite Hn. reflexivity.
  - intros Hn. unfold s', Serial.ASTMSteel_setFromDict. rewrite Hn. reflexivity.
  - intros n Hne Hn. unfold s', Serial.ASTMSteel_setFromDict. rewrite Hn.
    cbn [truthy]. destruct (String.eqb n "") eqn:En; [|reflexivity].
    apply String.eqb_eq in En; contradiction.
  - unfold Serial.ASTMSteel_getDict, Serial.BasicSteel_getDict,
      Serial.ASTMSteel_setFromDict.
    destruct (Steel.name s) as [n|]; [|reflexivity].
    cbn [truthy negb]. destruct (String.eqb n "") eqn:En; cbn.
    + reflexivity.
    + rewrite En; reflexivity.
Qed.

Lemma steel_setFromDict_only_name_witness :
  grade_ok (Serial.ASTMSteel_setFromDict A36 [("name"%string, VStr "S235")])
  /\ Steel.name (Serial.ASTMSteel_setFromDict A36 [("name"%string, VStr "S235")])
     = Some "S235"%string.
Proof.
  pose proof (steel_setFromDict_only_name A36 A36 [("name"%string, VStr "S235")])
    as (_ & Hok & _ & _ & Hname & _).
  split.
  - apply Hok. unfold grade_ok; simpl; lra.
  - apply Hname; [discriminate|reflexivity].
Defined.

(** X20. [ASTMShape.setFromDict] applied to the dictionary of a shape
    gives the receiving shape the name of that shape and leaves its
    other members as they were; applied to a dictionary without the key
    'name' it fails with a [KeyError]. *)
Theorem shape_dict_round_trip (s s0 : Shape.ASTMShape) (dct : dict) :
  (exists s',
     Serial.ASTMShape_setFromDict s0 (Serial.ASTMShape_getDict s) = ret s' /\
     Shape.name s' = Shape.name s /\
     Shape.steelType s' = Shape.steelType s0 /\
     Shape.get_A s' = Shape.get_A s0 /\ Shape.get_iy s' = Shape.get_iy s0 /\
     Shape.get_iz s' = Shape.get_iz s0 /\ Shape.get_E s' = Shape.get_E s0)
  /\ Serial.ASTMShape_setFromDict s (Serial.ASTMShape_getDict s) = ret s
  /\ (dict_get dct "name" = None ->
      Serial.ASTMShape_setFromDict s0 dct = raise KeyError).
Proof.
  split; [|split].
  - eexists; split; [reflexivity|]. repeat split.
  - destruct s; reflexivity.
  - intros Hn. unfold Serial.ASTMShape_setFromDict, dict_item.
    rewrite Hn. reflexivity.
Qed.

Lemma shape_dict_round_trip_witness :
  Serial.ASTMShape_setFromDict W310X97 [] = raise KeyError.
Proof.
  exact (proj2 (proj2 (shape_dict_round_trip W310X97 W310X97 [])) eq_refl).
Defined.

(** ** Anchor groups and dictionaries *)

Lemma anchor_reread (a a0 : Anchor.AnchorBolt) :
  Serial.AnchorBolt_setFromDict a0 (Serial.AnchorBolt_getDict a) = ret (reread a).
Proof.
  unfold Serial.AnchorBolt_setFromDict, Serial.AnchorBolt_getDict, reread.
  change (dict_update ?d [?n; ?c; ?s])
    with (dict_update (dict_update d [n]) [c; s]).
  rewrite steel_fromDict_round_trip by reflexivity.
  unfold Serial.BoltBase_setFromDict, Serial.BoltBase_getDict, dict_item.
  destruct (Anchor.pos3d a); reflexivity.
Qed.

Lemma dict_set_new (d : dict) k v :
  dict_get d k = None -> dict_set d k v = (d ++ [(k, v)])%list.
Proof.
  induction d as [|[k' v'] d IH]; intros H; [reflexivity|].
  cbn in *. destruct (String.eqb k' k); [discriminate|].
  rewrite IH by exact H. reflexivity.
Qed.

Lemma dict_get_app (d d' : dict) k :
  dict_get (d ++ d') k
    = match dict_get d k with Some v => Some v | None => dict_get d' k end.
Proof.
  induction d as [|[k' v'] d IH]; [reflexivity|].
  cbn. destruct (String.eqb k' k); [reflexivity|exact IH].
Qed.

Lemma dict_get_entries_none l k :
  ~ In k (map Anchor.name l) -> dict_get (map entry l) k = None.
Proof.
  induction l as [|a l IH]; intros H; [reflexivity|].
  cbn in *. destruct (String.eqb (Anchor.name a) k) eqn:Ek.
  - apply String.eqb_eq in Ek. exfalso; apply H; left; exact Ek.
  - apply IH. intros Hin; apply H; right; exact Hin.
Qed.

Lemma getDict_entries l acc :
  NoDup (map Anchor.name l) ->
  (forall a, In a l -> dict_get acc (Anchor.name a) = None) ->
  fold_left (fun retval a =>
               dict_set retval (Anchor.name a) (VDict (Serial.AnchorBolt_getDict a)))
            l acc
    = (acc ++ map entry l)%list.
Proof.
  revert acc; induction l as [|a l IH]; intros acc Hnd Hacc.
  - cbn. rewrite app_nil_r. reflexivity.
  - cbn [fold_left map]. inversion Hnd as [|x xs Hnotin Hnd']; subst.
    rewrite dict_set_new by (apply Hacc; left; reflexivity).
    rewrite IH.
    + rewrite <- app_assoc. reflexivity.
    + exact Hnd'.
    + intros b Hb. rewrite dict_get_app, (Hacc b (or_intror Hb)).
      cbn. destruct (String.eqb (Anchor.name a) (Anchor.name b)) eqn:Ek;
        [|reflexivity].
      apply String.eqb_eq in Ek. exfalso; apply Hnotin.
      rewrite Ek. apply in_map; exact Hb.
Qed.

Lemma dict_get_entry l a :
  NoDup (map Anchor.name l) -> In a l ->
  dict_get (map entry l) (Anchor.name a)
    = Some (VDict (Serial.AnchorBolt_getDict a)).
Proof.
  induction l as [|b l IH]; intros Hnd Hin; [destruct Hin|].
  inversion Hnd as [|x xs Hnotin Hnd']; subst.
  cbn. destruct Hin as [->|Hin].
  - rewrite String.eqb_refl. reflexivity.
  - destruct (String.eqb (Anchor.name b) (Anchor.name a)) eqn:Ek.
    + apply String.eqb_eq in Ek. exfalso; apply Hnotin.
      rewrite Ek. apply in_map; exact Hin.
    + apply IH; assumption.
Qed.

Lemma setFromDict_loop_entries (dct : dict) l :
  (forall a, In a l ->
     dict_get dct (Anchor.name a) = Some (VDict (Serial.AnchorBolt_getDict a))) ->
  GroupSerial.setFromDict_loop dct (map Anchor.name l) = ret (map reread l).
Proof.
  induction l as [|a l IH]; intros H; [reflexivity|].
  cbn [map GroupSerial.setFromDict_loop]. unfold dict_item.
  rewrite (H a (or_introl eq_refl)), bind_ret_l.
  rewrite anchor_reread, bind_ret_l.
  rewrite IH by (intros b Hb; apply H; right; exact Hb).
  rewrite bind_ret_l. reflexivity.
Qed.

Lemma str_of_nat_inj n m : Group.str_of_nat n = Group.str_of_nat m -> n = m.
Proof.
  unfold Group.str_of_nat. intros H.
  apply (f_equal NilEmpty.uint_of_string) in H.
  rewrite !NilEmpty.usu in H. injection H as H.
  apply (f_equal Nat.of_uint) in H.
  rewrite !DecimalNat.Unsigned.of_to in H. exact H.
Qed.

Lemma init_names_nodup steel d positions :
  NoDup (map Anchor.name
           (Group.anchors (Group.AnchorGroup_init steel d positions))).
Proof.
  destruct (init_loop_spec steel d positions 0) as (_ & Hn & _).
  unfold Group.AnchorGroup_init; cbn [Group.anchors]. rewrite Hn.
  generalize (seq_NoDup (List.length positions) 0).
  generalize (seq 0 (List.length positions)) as l.
  induction l as [|n l IH]; intros Hnd; [constructor|].
  inversion Hnd as [|x xs Hnotin Hnd']; subst.
  cbn [map]. constructor; [|apply IH; exact Hnd'].
  intros Hin. apply in_map_iff in Hin. destruct Hin as (m & Hm & Hin).
  apply str_of_nat_inj in Hm. subst m. contradiction.
Qed.

Lemma names_injective (l : list Anchor.AnchorBolt) x y :
  NoDup (map Anchor.name l) -> In x l -> In y l ->
  Anchor.name x = Anchor.name y -> x = y.
Proof.
  induction l as [|a l IH]; intros Hnd Hx Hy Hxy; [destruct Hx|].
  inversion Hnd as [|n ns Hnotin Hnd']; subst.
  destruct Hx as [->|Hx], Hy as [->|Hy].
  - reflexivity.
  - exfalso; apply Hnotin. rewrite Hxy. apply in_map; exact Hy.
  - exfalso; apply Hnotin. rewrite <- Hxy. apply in_map; exact Hx.
  - apply IH; assumption.
Qed.

Lemma setFromDict_loop_keys (dct : dict) l keys :
  (forall a, In a l ->
     dict_get dct (Anchor.name a) = Some (VDict (Serial.AnchorBolt_getDict a))) ->
  (forall k, In k keys -> In k (map Anchor.name l)) ->
  exists l', GroupSerial.setFromDict_loop dct keys = ret l' /\
    map Anchor.name l' = keys /\
    (forall b, In b l' -> In b (map reread l)).
Proof.
  intros Hget. induction keys as [|k keys IH]; intros Hin.
  - exists []. repeat split. intros b [].
  - destruct (proj1 (in_map_iff _ _ _) (Hin k (or_introl eq_refl)))
      as (a & Hak & Ha).
    destruct IH as (l' & Hl' & Hnames & Hsub);
      [intros k' Hk'; apply Hin; right; exact Hk'|].
    exists (reread a :: l').
    cbn [GroupSerial.setFromDict_loop]. unfold dict_item.
    rewrite <- Hak, (Hget a Ha), bind_ret_l.
    rewrite anchor_reread, bind_ret_l, Hl', bind_ret_l.
    split; [reflexivity|]. split.
    + cbn [map reread Anchor.name]. rewrite Hnames. reflexivity.
    + intros b [<-|Hb]; [apply in_map; exact Ha|apply Hsub; exact Hb].
Qed.

Lemma reread_names l : map Anchor.name (map reread l) = map Anchor.name l.
Proof. rewrite map_map. reflexivity. Qed.

Lemma reread_positions l : map Anchor.pos3d (map reread l) = map Anchor.pos3d l.
Proof. rewrite map_map. reflexivity. Qed.

Lemma group_reread {O : GroupSerial.DictOrder} (g g0 : Group.AnchorGroup) :
  NoDup (map Anchor.name (Group.anchors g)) ->
  exists l,
    GroupSerial.setFromDict g0 (GroupSerial.getDict g) = ret (Group.mkGroup l) /\
    Permutation l (map reread (Group.anchors g)) /\
    (GroupSerial.iter_keys (GroupSerial.getDict g)
       = map fst (GroupSerial.getDict g) ->
     l = map reread (Group.anchors g)).
Proof.
  intros Hnd.
  assert (Hd : GroupSerial.getDict g = map entry (Group.anchors g)).
  { unfold GroupSerial.getDict.
    rewrite getDict_entries; [reflexivity|exact Hnd|reflexivity]. }
  assert (Hkeys : map fst (map entry (Group.anchors g))
                  = map Anchor.name (Group.anchors g)).
  { rewrite map_map. reflexivity. }
  pose proof (GroupSerial.iter_keys_perm (GroupSerial.getDict g)) as Hperm.
  rewrite Hd, Hkeys in Hperm.
  assert (Hget : forall a, In a (Group.anchors g) ->
            dict_get (map entry (Group.anchors g)) (Anchor.name a)
              = Some (VDict (Serial.AnchorBolt_getDict a))).
  { intros a Ha. apply dict_get_entry; assumption. }
  destruct (setFromDict_loop_keys (map entry (Group.anchors g))
              (Group.anchors g)
              (GroupSerial.iter_keys (map entry (Group.anchors g))) Hget)
    as (l & Hl & Hnames & Hsub).
  { intros k Hk. exact (Permutation_in _ Hperm Hk). }
  exists l. unfold GroupSerial.setFromDict. rewrite Hd, Hl, bind_ret_l.
  split; [reflexivity|]. split.
  - apply NoDup_Permutation.
    + apply (NoDup_map_inv Anchor.name). rewrite Hnames.
      exact (Permutation_NoDup (Permutation_sym Hperm) Hnd).
    + apply (NoDup_map_inv Anchor.name). rewrite reread_names. exact Hnd.
    + intros x; split; [apply Hsub|].
      intros Hx. apply in_map_iff in Hx. destruct Hx as (a & <- & Ha).
      assert (Hk : In (Anchor.name a) (map Anchor.name l)).
      { rewrite Hnames. apply (Permutation_in _ (Permutation_sym Hperm)).
        apply in_map; exact Ha. }
      apply in_map_iff in Hk. destruct Hk as (b & Hb & Hbl).
      pose proof (Hsub b Hbl) as Hb'. apply in_map_iff in Hb'.
      destruct Hb' as (a' & <- & Ha').
      cbn [reread Anchor.name] in Hb.
      rewrite (names_injective _ a' a Hnd Ha' Ha Hb) in Hbl. exact Hbl.
  - intros Hins. rewrite Hkeys in Hins. rewrite Hins in Hl.
    rewrite (setFromDict_loop_entries _ _ Hget) in Hl.
    injection Hl as Hl. symmetry; exact Hl.
Qed.

(** X21. The dictionary of an anchor group has one entry per anchor
    name.  When the names of the anchors are pairwise distinct, as they
    are in every group built by the constructor, reading the dictionary
    back gives a group with the same anchors up to their order, which is
    the order in which the interpreter visits the keys of the
    dictionary (the same order when that is the order of insertion):
    as many anchors, with the same names, diameters and positions, each
    steel keeping its name but taking the default strengths of the
    constructor.  Two anchors that share a name leave a single entry,
    that of the second one. *)
Theorem anchor_group_round_trip {O : GroupSerial.DictOrder}
    (g g0 : Group.AnchorGroup)
    (steel : ASTMSteel) (d : R) (positions : list (option Pos3d))
    (a b : Anchor.AnchorBolt) :
  (NoDup (map Anchor.name (Group.anchors g)) ->
     (forall x, In x (Group.anchors g) ->
        dict_get (GroupSerial.getDict g) (Anchor.name x)
          = Some (VDict (Serial.AnchorBolt_getDict x))) /\
     List.length (GroupSerial.getDict g) = Group.getNumberOfBolts g /\
     exists l,
       GroupSerial.setFromDict g0 (GroupSerial.getDict g)
         = ret (Group.mkGroup l) /\
       Permutation l (map reread (Group.anchors g)) /\
       (GroupSerial.iter_keys (GroupSerial.getDict g)
          = map fst (GroupSerial.getDict g) ->
        l = map reread (Group.anchors g)))
  /\ (exists g',
        GroupSerial.setFromDict g0
          (GroupSerial.getDict (Group.AnchorGroup_init steel d positions))
          = ret g' /\
        Group.getNumberOfBolts g' = List.length positions /\
        Permutation (map Anchor.pos3d (Group.anchors g')) positions /\
        Permutation (map Anchor.name (Group.anchors g'))
          (map Group.str_of_nat (seq 0 (List.length positions))) /\
        Forall (fun x => Anchor.diameter x = d) (Group.anchors g'))
  /\ (Anchor.name a = Anchor.name b ->
      GroupSerial.getDict (Group.mkGroup [a; b]) = [entry b]).
Proof.
  split; [|split].
  - intros Hnd.
    assert (Hd : GroupSerial.getDict g = map entry (Group.anchors g)).
    { unfold GroupSerial.getDict.
      rewrite getDict_entries; [reflexivity|exact Hnd|reflexivity]. }
    split; [|split].
    + intros x Hx. rewrite Hd. apply dict_get_entry; assumption.
    + rewrite Hd, length_map. reflexivity.
    + apply group_reread; exact Hnd.
  - destruct (group_reread (Group.AnchorGroup_init steel d positions) g0
                (init_names_nodup steel d positions)) as (l & Hl & Hperm & _).
    exists (Group.mkGroup l). split; [exact Hl|].
    destruct (init_loop_spec steel d positions 0) as (Hlen & Hn & Hp & Hsd).
    unfold Group.AnchorGroup_init in Hperm. cbn [Group.anchors] in Hperm.
    unfold Group.getNumberOfBolts. cbn [Group.anchors].
    split; [|split; [|split]].
    + rewrite (Permutation_length Hperm), length_map. exact Hlen.
    + eapply perm_trans; [apply Permutation_map; exact Hperm|].
      rewrite reread_positions, Hp. apply Permutation_refl.
    + eapply perm_trans; [apply Permutation_map; exact Hperm|].
      rewrite reread_names, Hn. apply Permutation_refl.
    + apply Forall_forall. intros x Hx.
      pose proof (Permutation_in _ Hperm Hx) as Hx'.
      apply in_map_iff in Hx'. destruct Hx' as (a' & <- & Ha').
      cbn [reread Anchor.diameter].
      exact (proj2 (proj1 (Forall_forall _ _) Hsd a' Ha')).
  - intros Hab. unfold GroupSerial.getDict, entry. cbn.
    rewrite Hab, String.eqb_refl. reflexivity.
Qed.

Lemma anchor_group_round_trip_witness :
  exists l,
    @GroupSerial.setFromDict GroupSerial.InsertionOrder two_anchors
        (GroupSerial.getDict two_anchors) = ret (Group.mkGroup l) /\
    Permutation l (map reread (Group.anchors two_anchors)).
Proof.
  destruct (proj1 (@anchor_group_round_trip GroupSerial.InsertionOrder
                     two_anchors two_anchors F1554gr36 25e-3 []
                     GroupSerial.blank_bolt GroupSerial.blank_bolt)
              (init_names_nodup F1554gr36 25e-3
                 [Some (mkPos3d 0 0 0); Some (mkPos3d 1 0 0)]))
    as (_ & _ & l & Hl & Hperm & _).
  exists l; split; assumption.
Defined.

(** ** A bolt and its own hole *)

Ltac scan_holes H36 H30 H27 H24 H22 H20 H16 :=
  unfold getBoltForHole;
  change (rev standardBolts) with [M36; M30; M27; M24; M22; M20; M16];
  cbn [getBoltForHole_loop];
  repeat first
    [ rewrite H36, bind_ret_l | rewrite H30, bind_ret_l
    | rewrite H27, bind_ret_l | rewrite H24, bind_ret_l
    | rewrite H22, bind_ret_l | rewrite H20, bind_ret_l
    | rewrite H16, bind_ret_l
    | match goal with
      | |- context [Rlt_dec ?a ?b] => destruct (Rlt_dec a b); try lra
      end ];
  try reflexivity.

(** X22. Each standard bolt, M16 to M36, is the bolt that
    [getBoltForHole] returns for a hole of its own nominal standard
    diameter with the default tolerance of 0.5 mm; with a tolerance of
    zero the same hole does not admit that bolt, the comparison being
    strict; and a hole for which diameter plus tolerance is at most
    18 mm admits no standard bolt. *)
Theorem bolt_for_own_hole (b : BoltFastener) (holeDiameter tol : R) :
  (In b standardBolts ->
     exists h, Bolt.getNominalHoleDiameter b false = ret h /\
       getBoltForHole h 0.5e-3 = ret (Some b) /\
       getBoltForHole h 0 <> ret (Some b))
  /\ (holeDiameter + tol <= 18e-3 ->
      getBoltForHole holeDiameter tol = ret None).
Proof.
  pose proof hole_M36 as H36.
  destruct hole_M30 as (h30 & H30 & V30).
  destruct hole_M27 as (h27 & H27 & V27).
  destruct hole_M24 as (h24 & H24 & V24).
  destruct hole_M22 as (h22 & H22 & V22).
  destruct hole_M20 as (h20 & H20 & V20).
  destruct hole_M16 as (h16 & H16 & V16).
  split.
  - intros Hin. cbn [In standardBolts] in Hin.
    assert (Hneq : forall x y : BoltFastener,
              diameter x <> diameter y -> ret (Some x) <> ret (Some y)).
    { intros x y Hd Heq. injection Heq as Heq. apply Hd; rewrite Heq; reflexivity. }
    destruct Hin as [<-|[<-|[<-|[<-|[<-|[<-|[<-|[]]]]]]]];
      eexists; (split; [eassumption|]); split.
    all: try (scan_holes H36 H30 H27 H24 H22 H20 H16; fail).
    all: scan_holes H36 H30 H27 H24 H22 H20 H16;
         try (apply Hneq; simpl; lra); try discriminate.
  - intros Hle. scan_holes H36 H30 H27 H24 H22 H20 H16.
Qed.

Lemma bolt_for_own_hole_witness :
  exists h, Bolt.getNominalHoleDiameter M20 false = ret h /\
    getBoltForHole h 0.5e-3 = ret (Some M20) /\
    getBoltForHole h 0 <> ret (Some M20).
Proof.
  refine (proj1 (bolt_for_own_hole M20 0 0) _).
  cbn; tauto.
Defined.

(** ** Buckling about each axis *)

(** X23. For positive effective lengths, radii of gyration and modulus,
    the flexural elastic buckling stress of the shape is the smaller of
    the two elastic buckling stresses taken about the major and the
    minor axis. *)
Theorem elastic_stress_is_least_axis_stress (s : Shape.ASTMShape) (Ly Lz : R)
    (HLy : 0 < Ly) (HLz : 0 < Lz)
    (Hiy : 0 < Shape.get_iy s) (Hiz : 0 < Shape.get_iz s)
    (HE : 0 < Shape.get_E s) :
  exists Fez Fey,
    ShapeAxis.getFlexuralElasticBucklingStressOnAxis s Ly Lz true = ret Fez /\
    ShapeAxis.getFlexuralElasticBucklingStressOnAxis s Ly Lz false = ret Fey /\
    value (Shape.getFlexuralElasticBucklingStress s Ly Lz)
      = Return (Rmin Fez Fey).
Proof.
  set (iy := Shape.get_iy s) in *. set (iz := Shape.get_iz s) in *.
  set (E := Shape.get_E s) in *.
  assert (Hsz : 0 < Lz / iz)
    by (apply Rmult_lt_0_compat; [exact HLz|apply Rinv_0_lt_compat; exact Hiz]).
  assert (Hsy : 0 < Ly / iy)
    by (apply Rmult_lt_0_compat; [exact HLy|apply Rinv_0_lt_compat; exact Hiy]).
  assert (Hpos : forall x, 0 < x -> x ^ 2 <> 0).
  { intros x Hx; apply pow_nonzero; lra. }
  exists (PI ^ 2 * E / (Lz / iz) ^ 2), (PI ^ 2 * E / (Ly / iy) ^ 2).
  unfold ShapeAxis.getFlexuralElasticBucklingStressOnAxis. fold iy iz E.
  rewrite !pydiv_ok by lra. rewrite !bind_ret_l.
  unfold math_pi. rewrite !pydiv_ok by (apply Hpos; assumption).
  split; [reflexivity|]. split; [reflexivity|].
  assert (Hsr : pymax (Lz / iz) (Ly / iy) <> 0).
  { unfold pymax; destruct (Rlt_dec (Lz / iz) (Ly / iy)); lra. }
  rewrite (getFlexuralElasticBucklingStress_value s Ly Lz) by (fold iy iz; lra).
  fold iy iz E. f_equal.
  assert (Hk : 0 < PI ^ 2 * E).
  { apply Rmult_lt_0_compat; [apply pow_lt, PI_RGT_0|exact HE]. }
  assert (Hmono : forall a b, 0 < a -> a <= b ->
            PI ^ 2 * E / b ^ 2 <= PI ^ 2 * E / a ^ 2).
  { intros a b Ha Hab. unfold Rdiv.
    apply Rmult_le_compat_l; [lra|].
    apply Rinv_le_contravar; [apply pow_lt; exact Ha|].
    apply pow_incr; lra. }
  unfold pymax.
  destruct (Rlt_dec (Lz / iz) (Ly / iy)) as [Hlt|Hge].
  - symmetry. apply Rmin_right. apply Hmono; lra.
  - symmetry. apply Rmin_left. apply Hmono; lra.
Qed.

Lemma elastic_stress_is_least_axis_stress_witness :
  exists Fez Fey,
    ShapeAxis.getFlexuralElasticBucklingStressOnAxis W310X97 4 4 true = ret Fez /\
    ShapeAxis.getFlexuralElasticBucklingStressOnAxis W310X97 4 4 false = ret Fey /\
    value (Shape.getFlexuralElasticBucklingStress W310X97 4 4)
      = Return (Rmin Fez Fey).
Proof.
  apply (elastic_stress_is_least_axis_stress W310X97 4 4); simpl; lra.
Defined.

(** X24. For positive radii of gyration, modulus and yield stress and
    non-negative effective lengths that are not both zero, the ratio of
    the yield stress to the flexural elastic buckling stress is the
    square of the critical slenderness ratio returned by
    [getFlexuralCriticalSlendernessRatio]; the stress-ratio limit of
    2.25 of the critical stress is therefore a critical slenderness
    ratio of 1.5. *)
Theorem stress_ratio_is_squared_critical_slenderness
    (s : Shape.ASTMShape) (Ly Lz : R)
    (Hiy : 0 < Shape.get_iy s) (Hiz : 0 < Shape.get_iz s)
    (HE : 0 < Shape.get_E s) (HFy : 0 < fy (Shape.steelType s))
    (HLy : 0 <= Ly) (HLz : 0 <= Lz) (HL : 0 < Ly \/ 0 < Lz) :
  exists lam Fe,
    value (ShapeAxis.getFlexuralCriticalSlendernessRatio s Ly Lz) = Return lam /\
    value (Shape.getFlexuralElasticBucklingStress s Ly Lz) = Return Fe /\
    0 < lam /\ fy (Shape.steelType s) / Fe = lam ^ 2 /\
    (fy (Shape.steelType s) / Fe <= 2.25 <-> lam <= 1.5).
Proof.
  set (iy := Shape.get_iy s) in *. set (iz := Shape.get_iz s) in *.
  set (E := Shape.get_E s) in *. set (Fy := fy (Shape.steelType s)) in *.
  set (sr := pymax (Lz / iz) (Ly / iy)).
  assert (Hdz : 0 <= Lz / iz)
    by (apply Rmult_le_pos; [exact HLz|left; apply Rinv_0_lt_compat; exact Hiz]).
  assert (Hdy : 0 <= Ly / iy)
    by (apply Rmult_le_pos; [exact HLy|left; apply Rinv_0_lt_compat; exact Hiy]).
  assert (Hsr : 0 < sr).
  { unfold sr, pymax. destruct (Rlt_dec (Lz / iz) (Ly / iy)); [lra|].
    destruct HL as [HL|HL].
    - assert (0 < Ly / iy)
        by (apply Rmult_lt_0_compat; [exact HL|apply Rinv_0_lt_compat; exact Hiy]).
      lra.
    - apply Rmult_lt_0_compat; [exact HL|apply Rinv_0_lt_compat; exact Hiz]. }
  assert (Hq : 0 < Fy / E)
    by (apply Rmult_lt_0_compat; [exact HFy|apply Rinv_0_lt_compat; exact HE]).
  pose proof PI_RGT_0 as Hpi.
  assert (Hroot : 0 < sqrt (Fy / E)) by (apply sqrt_lt_R0; exact Hq).
  exists (sr / PI * sqrt (Fy / E)), (PI ^ 2 * E / sr ^ 2).
  assert (Hlam : 0 < sr / PI * sqrt (Fy / E)).
  { apply Rmult_lt_0_compat; [|exact Hroot].
    apply Rmult_lt_0_compat; [exact Hsr|apply Rinv_0_lt_compat; exact Hpi]. }
  assert (Hsq : Fy / (PI ^ 2 * E / sr ^ 2) = (sr / PI * sqrt (Fy / E)) ^ 2).
  { rewrite Rpow_mult_distr.
    replace (sqrt (Fy / E) ^ 2) with (Fy / E)
      by (simpl; rewrite Rmult_1_r, sqrt_sqrt; lra).
    field. repeat split; lra. }
  split.
  - unfold ShapeAxis.getFlexuralCriticalSlendernessRatio.
    rewrite (value_bind_return _ _ _
               (getFlexuralSlendernessRatio_value s Ly Lz
                  (Rgt_not_eq _ _ Hiy) (Rgt_not_eq _ _ Hiz))).
    fold iy iz E Fy sr.
    rewrite pydiv_ok by lra. rewrite bind_ret_l.
    rewrite math_sqrt_ok by lra. rewrite bind_ret_l. reflexivity.
  - split.
    + apply getFlexuralElasticBucklingStress_value; fold iy iz sr; lra.
    + split; [exact Hlam|]. split; [exact Hsq|].
      rewrite Hsq. set (lam := sr / PI * sqrt (Fy / E)) in *.
      split; intros H.
      * destruct (Rle_dec lam 1.5) as [Hle|Hgt]; [exact Hle|exfalso].
        assert (1.5 ^ 2 < lam ^ 2)
          by (simpl; rewrite !Rmult_1_r;
              apply Rmult_gt_0_lt_compat; lra).
        simpl in *. lra.
      * assert (lam ^ 2 <= 1.5 ^ 2) by (apply pow_incr; lra).
        simpl in *. lra.
Qed.

Lemma stress_ratio_is_squared_critical_slenderness_witness :
  exists lam Fe,
    value (ShapeAxis.getFlexuralCriticalSlendernessRatio W310X97 4 4)
      = Return lam /\
    value (Shape.getFlexuralElasticBucklingStress W310X97 4 4) = Return Fe /\
    0 < lam /\ fy (Shape.steelType W310X97) / Fe = lam ^ 2 /\
    (fy (Shape.steelType W310X97) / Fe <= 2.25 <-> lam <= 1.5).
Proof.
  apply (stress_ratio_is_squared_critical_slenderness W310X97 4 4);
    simpl; lra.
Defined.

(** ** The critical stress against the yield stress *)

Lemma spec_two_regime_le_Fy sr E Fy Fe :
  0 < Fy -> 0 < Fe -> spec_two_regime sr E Fy Fe <= Fy.
Proof.
  intros HFy HFe.
  assert (Hr : 0 < Fy / Fe)
    by (apply Rmult_lt_0_compat; [exact HFy|apply Rinv_0_lt_compat; exact HFe]).
  assert (Hp : Rpower 0.658 (Fy / Fe) * Fy <= Fy).
  { assert (Hle : Rpower 0.658 (Fy / Fe) <= 1).
    { unfold Rpower. rewrite <- exp_0. left. apply exp_increasing.
      assert (Hln : ln 0.658 < 0).
      { rewrite <- ln_1. apply ln_increasing; lra. }
      rewrite <- (Rmult_0_r (Fy / Fe)).
      apply Rmult_lt_compat_l; assumption. }
    apply Rle_trans with (1 * Fy); [|lra].
    apply Rmult_le_compat_r; lra. }
  unfold spec_two_regime.
  destruct (Rle_dec sr (4.71 * sqrt (E / Fy))); [exact Hp|].
  destruct (Rle_dec (Fy / Fe) 2.25) as [|Hgt]; [exact Hp|].
  assert (H225 : 2.25 * Fe < Fy).
  { apply Rnot_le_lt in Hgt.
    apply (Rmult_lt_compat_r Fe) in Hgt; [|exact HFe].
    unfold Rdiv in Hgt. rewrite Rmult_assoc, Rinv_l, Rmult_1_r in Hgt by lra.
    exact Hgt. }
  lra.
Qed.

Lemma rpower_lower x : x <= 2.25 -> 0.28 <= Rpower 0.658 x.
Proof.
  intros Hx.
  assert (Hln : ln 0.658 < 0) by (rewrite <- ln_1; apply ln_increasing; lra).
  assert (H3 : Rpower 0.658 3 = 0.658 ^ 3).
  { replace 3 with (INR 3) at 1 by (simpl; lra).
    apply Rpower_pow; lra. }
  apply Rle_trans with (Rpower 0.658 3); [rewrite H3; simpl; lra|].
  unfold Rpower. left. apply exp_increasing.
  assert (H : (3 - x) * ln 0.658 < 0).
  { rewrite <- (Rmult_0_r (3 - x)). apply Rmult_lt_compat_l; lra. }
  lra.
Qed.

Lemma spec_two_regime_lower sr E Fy Fe :
  0 < Fy -> Fy / Fe <= 2.25 -> 0.28 * Fy <= spec_two_regime sr E Fy Fe.
Proof.
  intros HFy Hr. unfold spec_two_regime.
  pose proof (rpower_lower (Fy / Fe) Hr) as Hp.
  assert (0.28 * Fy <= Rpower 0.658 (Fy / Fe) * Fy)
    by (apply Rmult_le_compat_r; lra).
  destruct (Rle_dec sr (4.71 * sqrt (E / Fy))); [assumption|].
  destruct (Rle_dec (Fy / Fe) 2.25); [assumption|contradiction].
Qed.

(** X25. For a compact or noncompact section and a positive elastic
    buckling stress, the critical stress returned by
    [getCriticalStressE] is never negative and never exceeds the yield
    stress of the steel, and it is at least 0.28 times the yield stress
    when the ratio of the yield stress to the elastic buckling stress is
    at most 2.25; the same holds for the critical stress of a member
    with its own elastic buckling stress.  The shape and the member have
    non-zero radii of gyration and effective length and positive steel
    constants. *)
Theorem critical_stress_below_yield {BB : BucklingBase}
    (s : Shape.ASTMShape) (Ly Lz Fe : R) (c : SectionClassif)
    (m : Member.ConnectedMember)
    (Hc : c = compact \/ c = noncompact) (HFe : 0 < Fe)
    (Hs : shape_wf s) (Hm : member_wf m) :
  (exists Fcr, value (Shape.getCriticalStressE s Ly Lz c Fe) = Return Fcr /\
               0 <= Fcr <= fy (Shape.steelType s) /\
               (fy (Shape.steelType s) / Fe <= 2.25 ->
                0.28 * fy (Shape.steelType s) <= Fcr))
  /\ (exists Fcr Fe',
        Member.getCriticalStress m = ret Fcr /\
        Member.getElasticBucklingStress m = ret Fe' /\
        0 <= Fcr <= fy (Shape.steelType (Member.shape m)) /\
        (fy (Shape.steelType (Member.shape m)) / Fe' <= 2.25 ->
         0.28 * fy (Shape.steelType (Member.shape m)) <= Fcr)).
Proof.
  split.
  - assert (Hlt : classif_ltb c slender = true)
      by (destruct Hc as [-> | ->]; reflexivity).
    assert (HFe0 : Fe <> 0) by lra.
    eexists; split;
      [exact (getCriticalStressE_value s Ly Lz c Fe Hlt HFe0 Hs)|].
    destruct Hs as (_ & _ & HFy & _).
    split; [split|].
    + left; apply spec_two_regime_pos; assumption.
    + apply spec_two_regime_le_Fy; assumption.
    + intros Hr. apply spec_two_regime_lower; assumption.
  - destruct (getCriticalStress_value m Hm) as [HFe' Hcr].
    do 2 eexists. split; [exact Hcr|]. split; [exact HFe'|].
    destruct Hm as (HL & Hr & HFy & HE).
    set (r := Member.getEffectiveLength m /
              pymin (Shape.get_iy (Member.shape m)) (Shape.get_iz (Member.shape m))).
    assert (Hr0 : r <> 0) by (apply div_nonzero; assumption).
    assert (HFep : 0 < PI ^ 2 * E (Shape.steelType (Member.shape m)) / r ^ 2).
    { apply Rmult_lt_0_compat.
      - apply Rmult_lt_0_compat; [apply pow_lt, PI_RGT_0|exact HE].
      - apply Rinv_0_lt_compat.
        pose proof (pow2_ge_0 r). pose proof (pow_nonzero r 2 Hr0). lra. }
    split; [split|].
    + left; apply spec_two_regime_pos; assumption.
    + apply spec_two_regime_le_Fy; assumption.
    + intros Hratio. apply spec_two_regime_lower; assumption.
Qed.

Lemma critical_stress_below_yield_witness :
  exists Fcr, value (Shape.getCriticalStressE W310X97 4 4 compact 200e6)
                = Return Fcr /\
              0 <= Fcr <= fy (Shape.steelType W310X97) /\
              0.28 * fy (Shape.steelType W310X97) <= Fcr.
Proof.
  assert (HFe : 0 < 200e6) by lra.
  destruct (proj1 (@critical_stress_below_yield PinnedK W310X97 4 4 200e6
                     compact column4m (or_introl eq_refl) HFe W310X97_wf
                     column4m_wf)) as (Fcr & Hv & Hb & Hlow).
  exists Fcr. split; [exact Hv|]. split; [exact Hb|].
  apply Hlow. simpl; lra.
Defined.
